(** * CableMonitor: a shallow embedding of [src/detector/monitor.py]

    The monitor is a Python object mutated in place by its methods.  It is
    embedded as a record [Monitor] threaded through every method.

    - Python [int] counters that only count up from 0 are [nat]; configured
      integers and times are [Z]; Python floats (rates, scores, values) are
      abstracted by exact rationals [Q].
    - [datetime.now()] and [time.time()] read the system clock.  The clock is
      an oracle [wall_clock : nat -> Z] (microseconds): the k-th read of the
      run returns [wall_clock k], and [clock_reads] counts the reads so far.
    - Readings are Python dicts shared by reference between the data buffer,
      the per-sensor history and the anomaly events, and annotated in place
      after they were stored.  They live in an object store [heap]; the
      containers hold addresses.
    - [sensor_states] is a Python dict: a [gmap] for lookup plus the list
      [sensor_order] of its keys in insertion order, which is the order in
      which [.items()] iterates.
    - Logger calls and callback invocations are recorded in [effects]. *)

From Stdlib Require Import ZArith QArith Lia.
From stdpp Require Import base option list gmap strings pretty.

Local Open Scope string_scope.

(** ** Data model *)

(** Addresses of the object store. *)
Abbreviation addr := nat (only parsing).

(** A reading dict, restricted to the keys the monitor looks at.  [None] is
    an absent key. *)
Record Reading := {
  r_sensor_id : option string;
  r_timestamp : option Z;
  r_value : option Q;
  r_is_anomaly_detected : option bool;
  r_anomaly_score : option Q
}.

Inductive Status := unknown | active | timeout.

Global Instance Status_eq_dec : EqDecision Status.
Proof. solve_decision. Defined.

(** One entry of [self.sensor_states]. *)
Record SensorState := {
  last_seen : option Z;
  consecutive_anomalies : nat;
  recent_readings : list addr;          (* deque(maxlen=50) *)
  status : Status
}.

Record AnomalyEvent := {
  ae_timestamp : Z;
  ae_sensor_id : string;
  ae_reading : addr;
  ae_consecutive_count : nat
}.

Record TimeoutEvent := {
  te_timestamp : Z;
  te_sensor_id : string;
  te_timeout_duration : Z;              (* microseconds *)
  te_event_type : string
}.

(** The [alert_data] dict handed to [_raise_alert]; absent keys are [None]. *)
Record AlertData := {
  ad_sensor_id : option string;
  ad_count : option nat;
  ad_rate : option Q;
  ad_threshold : option Q;
  ad_timeout_duration : option Q;
  ad_timestamp : option Z
}.

Inductive Severity := medium | high | critical.

Record Alert := {
  alert_id : string;
  alert_type : string;
  alert_timestamp : Z;
  severity : Severity;
  alert_data : AlertData;
  description : string
}.

(** What a callback is called with. *)
Inductive Event :=
  | AnomalyEv (e : AnomalyEvent)
  | AlertEv (a : Alert)
  | TimeoutEv (t : TimeoutEvent).

(** A registered callable: [cb_ok ev = false] when the call raises. *)
Record Callback := {
  cb_id : nat;
  cb_ok : Event -> bool
}.

(** The anomaly classifier handed to [start_monitoring]; [predict_single]
    answers [None] when it raises. *)
Record Detector := {
  is_trained : bool;
  predict_single : Reading -> option (bool * Q)
}.

Inductive Level := warning | error | critical_level | info.

Inductive LogMsg :=
  | MissingSensorId                       (* "Reading missing sensor_id, skipping" *)
  | DetectError                           (* "Error detecting anomaly for reading: ..." *)
  | CallbackError (kind : string)         (* "Error executing ... callback: ..." *)
  | AnomalyDetected (sensor_id : string) (value score : Q)
  | SensorTimeoutMsg (sensor_id : string) (duration : Z)
  | AlertMsg (descr : string)             (* "ALERT: <description>" *)
  | AlreadyMonitoring
  | Started
  | Stopped.

Inductive Effect :=
  | Called (kind : string) (cb : nat) (ev : Event)
  | Logged (lvl : Level) (msg : LogMsg).

(** [self.stats] *)
Record Stats := {
  total_readings : nat;
  anomalies_detected : nat;
  alerts_raised : nat;
  start_time : option Z;
  last_reading_time : option Z
}.

(** [self.alert_rules] *)
Record AlertRules := {
  rule_consecutive_anomalies : Z;
  rule_anomaly_rate_threshold : Q;
  rule_sensor_timeout : Z;                (* seconds *)
  rule_critical_sensors : list string
}.

(** [self.callbacks] *)
Record Callbacks := {
  on_anomaly : list Callback;
  on_alert : list Callback;
  on_sensor_failure : list Callback
}.

Record Monitor := {
  monitoring_interval : Q;
  buffer_size : nat;
  is_monitoring : bool;
  heap : list Reading;
  data_buffer : list addr;                (* deque(maxlen=buffer_size) *)
  anomaly_queue : list AnomalyEvent;      (* queue.Queue() *)
  alert_queue : list Alert;               (* queue.Queue() *)
  stats : Stats;
  alert_rules : AlertRules;
  callbacks : Callbacks;
  sensor_states : gmap string SensorState;
  sensor_order : list string;
  anomaly_detector : option Detector;     (* None: attribute not set *)
  wall_clock : nat -> Z;
  clock_reads : nat;
  effects : list Effect
}.

(** Exceptions the modelled code can raise. *)
Inductive Exn := ValueError | KeyError | ZeroDivisionError.

Inductive result (A : Type) :=
  | Ok (a : A)
  | Raise (e : Exn).
Arguments Ok {A} a.
Arguments Raise {A} e.

(** ** Field updates *)

Definition with_is_monitoring (b : bool) (m : Monitor) : Monitor :=
  {| monitoring_interval := monitoring_interval m; buffer_size := buffer_size m;
     is_monitoring := b; heap := heap m; data_buffer := data_buffer m;
     anomaly_queue := anomaly_queue m; alert_queue := alert_queue m;
     stats := stats m; alert_rules := alert_rules m; callbacks := callbacks m;
     sensor_states := sensor_states m; sensor_order := sensor_order m;
     anomaly_detector := anomaly_detector m; wall_clock := wall_clock m;
     clock_reads := clock_reads m; effects := effects m |}.

Definition with_heap (h : list Reading) (m : Monitor) : Monitor :=
  {| monitoring_interval := monitoring_interval m; buffer_size := buffer_size m;
     is_monitoring := is_monitoring m; heap := h; data_buffer := data_buffer m;
     anomaly_queue := anomaly_queue m; alert_queue := alert_queue m;
     stats := stats m; alert_rules := alert_rules m; callbacks := callbacks m;
     sensor_states := sensor_states m; sensor_order := sensor_order m;
     anomaly_detector := anomaly_detector m; wall_clock := wall_clock m;
     clock_reads := clock_reads m; effects := effects m |}.

Definition with_data_buffer (b : list addr) (m : Monitor) : Monitor :=
  {| monitoring_interval := monitoring_interval m; buffer_size := buffer_size m;
     is_monitoring := is_monitoring m; heap := heap m; data_buffer := b;
     anomaly_queue := anomaly_queue m; alert_queue := alert_queue m;
     stats := stats m; alert_rules := alert_rules m; callbacks := callbacks m;
     sensor_states := sensor_states m; sensor_order := sensor_order m;
     anomaly_detector := anomaly_detector m; wall_clock := wall_clock m;
     clock_reads := clock_reads m; effects := effects m |}.

Definition with_anomaly_queue (q : list AnomalyEvent) (m : Monitor) : Monitor :=
  {| monitoring_interval := monitoring_interval m; buffer_size := buffer_size m;
     is_monitoring := is_monitoring m; heap := heap m; data_buffer := data_buffer m;
     anomaly_queue := q; alert_queue := alert_queue m;
     stats := stats m; alert_rules := alert_rules m; callbacks := callbacks m;
     sensor_states := sensor_states m; sensor_order := sensor_order m;
     anomaly_detector := anomaly_detector m; wall_clock := wall_clock m;
     clock_reads := clock_reads m; effects := effects m |}.

Definition with_alert_queue (q : list Alert) (m : Monitor) : Monitor :=
  {| monitoring_interval := monitoring_interval m; buffer_size := buffer_size m;
     is_monitoring := is_monitoring m; heap := heap m; data_buffer := data_buffer m;
     anomaly_queue := anomaly_queue m; alert_queue := q;
     stats := stats m; alert_rules := alert_rules m; callbacks := callbacks m;
     sensor_states := sensor_states m; sensor_order := sensor_order m;
     anomaly_detector := anomaly_detector m; wall_clock := wall_clock m;
     clock_reads := clock_reads m; effects := effects m |}.

Definition with_stats (s : Stats) (m : Monitor) : Monitor :=
  {| monitoring_interval := monitoring_interval m; buffer_size := buffer_size m;
     is_monitoring := is_monitoring m; heap := heap m; data_buffer := data_buffer m;
     anomaly_queue := anomaly_queue m; alert_queue := alert_queue m;
     stats := s; alert_rules := alert_rules m; callbacks := callbacks m;
     sensor_states := sensor_states m; sensor_order := sensor_order m;
     anomaly_detector := anomaly_detector m; wall_clock := wall_clock m;
     clock_reads := clock_reads m; effects := effects m |}.

Definition with_alert_rules (r : AlertRules) (m : Monitor) : Monitor :=
  {| monitoring_interval := monitoring_interval m; buffer_size := buffer_size m;
     is_monitoring := is_monitoring m; heap := heap m; data_buffer := data_buffer m;
     anomaly_queue := anomaly_queue m; alert_queue := alert_queue m;
     stats := stats m; alert_rules := r; callbacks := callbacks m;
     sensor_states := sensor_states m; sensor_order := sensor_order m;
     anomaly_detector := anomaly_detector m; wall_clock := wall_clock m;
     clock_reads := clock_reads m; effects := effects m |}.

Definition with_callbacks (c : Callbacks) (m : Monitor) : Monitor :=
  {| monitoring_interval := monitoring_interval m; buffer_size := buffer_size m;
     is_monitoring := is_monitoring m; heap := heap m; data_buffer := data_buffer m;
     anomaly_queue := anomaly_queue m; alert_queue := alert_queue m;
     stats := stats m; alert_rules := alert_rules m; callbacks := c;
     sensor_states := sensor_states m; sensor_order := sensor_order m;
     anomaly_detector := anomaly_detector m; wall_clock := wall_clock m;
     clock_reads := clock_reads m; effects := effects m |}.

Definition with_sensors (s : gmap string SensorState) (o : list string)
    (m : Monitor) : Monitor :=
  {| monitoring_interval := monitoring_interval m; buffer_size := buffer_size m;
     is_monitoring := is_monitoring m; heap := heap m; data_buffer := data_buffer m;
     anomaly_queue := anomaly_queue m; alert_queue := alert_queue m;
     stats := stats m; alert_rules := alert_rules m; callbacks := callbacks m;
     sensor_states := s; sensor_order := o;
     anomaly_detector := anomaly_detector m; wall_clock := wall_clock m;
     clock_reads := clock_reads m; effects := effects m |}.

Definition with_anomaly_detector (d : option Detector) (m : Monitor) : Monitor :=
  {| monitoring_interval := monitoring_interval m; buffer_size := buffer_size m;
     is_monitoring := is_monitoring m; heap := heap m; data_buffer := data_buffer m;
     anomaly_queue := anomaly_queue m; alert_queue := alert_queue m;
     stats := stats m; alert_rules := alert_rules m; callbacks := callbacks m;
     sensor_states := sensor_states m; sensor_order := sensor_order m;
     anomaly_detector := d; wall_clock := wall_clock m;
     clock_reads := clock_reads m; effects := effects m |}.

Definition with_clock_reads (n : nat) (m : Monitor) : Monitor :=
  {| monitoring_interval := monitoring_interval m; buffer_size := buffer_size m;
     is_monitoring := is_monitoring m; heap := heap m; data_buffer := data_buffer m;
     anomaly_queue := anomaly_queue m; alert_queue := alert_queue m;
     stats := stats m; alert_rules := alert_rules m; callbacks := callbacks m;
     sensor_states := sensor_states m; sensor_order := sensor_order m;
     anomaly_detector := anomaly_detector m; wall_clock := wall_clock m;
     clock_reads := n; effects := effects m |}.

Definition with_effects (e : list Effect) (m : Monitor) : Monitor :=
  {| monitoring_interval := monitoring_interval m; buffer_size := buffer_size m;
     is_monitoring := is_monitoring m; heap := heap m; data_buffer := data_buffer m;
     anomaly_queue := anomaly_queue m; alert_queue := alert_queue m;
     stats := stats m; alert_rules := alert_rules m; callbacks := callbacks m;
     sensor_states := sensor_states m; sensor_order := sensor_order m;
     anomaly_detector := anomaly_detector m; wall_clock := wall_clock m;
     clock_reads := clock_reads m; effects := e |}.

Definition with_last_seen (t : option Z) (s : SensorState) : SensorState :=
  {| last_seen := t; consecutive_anomalies := consecutive_anomalies s;
     recent_readings := recent_readings s; status := status s |}.

Definition with_consecutive_anomalies (n : nat) (s : SensorState) : SensorState :=
  {| last_seen := last_seen s; consecutive_anomalies := n;
     recent_readings := recent_readings s; status := status s |}.

Definition with_recent_readings (l : list addr) (s : SensorState) : SensorState :=
  {| last_seen := last_seen s; consecutive_anomalies := consecutive_anomalies s;
     recent_readings := l; status := status s |}.

Definition with_status (st : Status) (s : SensorState) : SensorState :=
  {| last_seen := last_seen s; consecutive_anomalies := consecutive_anomalies s;
     recent_readings := recent_readings s; status := st |}.

(** [reading['is_anomaly_detected'] = b; reading['anomaly_score'] = s] *)
Definition annotate (b : bool) (s : Q) (r : Reading) : Reading :=
  {| r_sensor_id := r_sensor_id r; r_timestamp := r_timestamp r;
     r_value := r_value r; r_is_anomaly_detected := Some b;
     r_anomaly_score := Some s |}.

(** ** Environment and containers *)

(** The two writes through the reference [reading], seen by every
    container that holds it. *)
Definition annotate_reading (reading : addr) (b : bool) (s : Q) (m : Monitor) : Monitor :=
  with_heap (alter (annotate b s) reading (heap m)) m.

(** One read of the system clock. *)
Definition read_clock (m : Monitor) : Z * Monitor :=
  (wall_clock m (clock_reads m), with_clock_reads (S (clock_reads m)) m).

Definition emit (e : Effect) (m : Monitor) : Monitor :=
  with_effects (effects m ++ [e]) m.

Definition log (lvl : Level) (msg : LogMsg) (m : Monitor) : Monitor :=
  emit (Logged lvl msg) m.

(** [deque.append] on a deque built with [maxlen]: the new element goes to
    the right end and whatever exceeds [maxlen] falls off the left end. *)
Definition deque_append {A : Type} (maxlen : nat) (x : A) (d : list A) : list A :=
  drop (length (d ++ [x]) - maxlen) (d ++ [x]).

(** [l[-n:]] for a positive [n]. *)
Definition last_n {A : Type} (n : nat) (l : list A) : list A :=
  drop (length l - n) l.

Definition microseconds_per_second : Z := 1000000.

(** [timedelta(seconds=s)] *)
Definition timedelta_seconds (s : Z) : Z := (s * microseconds_per_second)%Z.

(** The writes to [self.stats]. *)

(** [self.stats['total_readings'] += 1; self.stats['last_reading_time'] = t] *)
Definition count_reading (t : Z) (m : Monitor) : Monitor :=
  let s := stats m in
  with_stats {| total_readings := S (total_readings s);
                anomalies_detected := anomalies_detected s;
                alerts_raised := alerts_raised s;
                start_time := start_time s;
                last_reading_time := Some t |} m.

(** [self.stats['anomalies_detected'] += 1] *)
Definition incr_anomalies_detected (m : Monitor) : Monitor :=
  let s := stats m in
  with_stats {| total_readings := total_readings s;
                anomalies_detected := S (anomalies_detected s);
                alerts_raised := alerts_raised s;
                start_time := start_time s;
                last_reading_time := last_reading_time s |} m.

(** [self.stats['alerts_raised'] += 1] *)
Definition incr_alerts_raised (m : Monitor) : Monitor :=
  let s := stats m in
  with_stats {| total_readings := total_readings s;
                anomalies_detected := anomalies_detected s;
                alerts_raised := S (alerts_raised s);
                start_time := start_time s;
                last_reading_time := last_reading_time s |} m.

(** [self.stats['start_time'] = t] *)
Definition set_start_time (t : Z) (m : Monitor) : Monitor :=
  let s := stats m in
  with_stats {| total_readings := total_readings s;
                anomalies_detected := anomalies_detected s;
                alerts_raised := alerts_raised s;
                start_time := Some t;
                last_reading_time := last_reading_time s |} m.

(** ** CableMonitor *)

Definition default_alert_rules : AlertRules :=
  {| rule_consecutive_anomalies := 3;
     rule_anomaly_rate_threshold := 2 # 10;
     rule_sensor_timeout := 300;
     rule_critical_sensors := [] |}.

(** [CableMonitor.__init__]; the first argument is the clock of the run. *)
Definition init (clk : nat -> Z) (interval : Q) (size : nat) : Monitor :=
  {| monitoring_interval := interval;
     buffer_size := size;
     is_monitoring := false;
     heap := [];
     data_buffer := [];
     anomaly_queue := [];
     alert_queue := [];
     stats := {| total_readings := 0; anomalies_detected := 0;
                 alerts_raised := 0; start_time := None;
                 last_reading_time := None |};
     alert_rules := default_alert_rules;
     callbacks := {| on_anomaly := []; on_alert := []; on_sensor_failure := [] |};
     sensor_states := ∅;
     sensor_order := [];
     anomaly_detector := None;
     wall_clock := clk;
     clock_reads := 0;
     effects := [] |}.

Definition new_sensor_state : SensorState :=
  {| last_seen := None; consecutive_anomalies := 0;
     recent_readings := []; status := unknown |}.

(** [_get_sensor_state]: creates the entry when the key is new.  The
    caller's later writes to the returned dict are [set_sensor]. *)
Definition _get_sensor_state (sensor_id : string) (m : Monitor) : Monitor :=
  match sensor_states m !! sensor_id with
  | Some _ => m
  | None =>
      with_sensors (<[sensor_id := new_sensor_state]> (sensor_states m))
                   (sensor_order m ++ [sensor_id]) m
  end.

(** A write to a field of the state dict of [sensor_id]. *)
Definition set_sensor (sensor_id : string) (f : SensorState -> SensorState)
    (m : Monitor) : Monitor :=
  with_sensors (alter f sensor_id (sensor_states m)) (sensor_order m) m.

(** [add_callback] *)
Definition add_callback (event_type : string) (callback : Callback)
    (m : Monitor) : result Monitor :=
  let c := callbacks m in
  if String.eqb event_type "on_anomaly" then
    Ok (with_callbacks {| on_anomaly := on_anomaly c ++ [callback];
                          on_alert := on_alert c;
                          on_sensor_failure := on_sensor_failure c |} m)
  else if String.eqb event_type "on_alert" then
    Ok (with_callbacks {| on_anomaly := on_anomaly c;
                          on_alert := on_alert c ++ [callback];
                          on_sensor_failure := on_sensor_failure c |} m)
  else if String.eqb event_type "on_sensor_failure" then
    Ok (with_callbacks {| on_anomaly := on_anomaly c;
                          on_alert := on_alert c;
                          on_sensor_failure := on_sensor_failure c ++ [callback] |} m)
  else Raise ValueError.

(** The loop [for callback in self.callbacks[kind]: try: callback(ev) except
    Exception: logger.error(...)]. *)
Definition run_callbacks (kind : string) (cbs : list Callback) (ev : Event)
    (m : Monitor) : Monitor :=
  foldl (fun m cb =>
           let m := emit (Called kind (cb_id cb) ev) m in
           if cb_ok cb ev then m else log error (CallbackError kind) m)
        m cbs.

(** Where a method stopped: it returned, or an exception left it in the
    state reached so far. *)
Inductive outcome :=
  | Returned (m : Monitor)
  | Raised (e : Exn) (m : Monitor).

(** [_handle_anomaly]: [reading['timestamp']] raises [KeyError] for a reading
    without that key, after the counters were already incremented. *)
Definition _handle_anomaly (reading : addr) (sensor_id : string)
    (m : Monitor) : outcome :=
  let m := incr_anomalies_detected m in
  let m := _get_sensor_state sensor_id m in
  let m := set_sensor sensor_id
             (fun st => with_consecutive_anomalies (S (consecutive_anomalies st)) st) m in
  match heap m !! reading with
  | None => Raised KeyError m
  | Some r =>
      match r_timestamp r with
      | None => Raised KeyError m
      | Some ts =>
          let anomaly_event :=
            {| ae_timestamp := ts;
               ae_sensor_id := sensor_id;
               ae_reading := reading;
               ae_consecutive_count :=
                 from_option consecutive_anomalies 0 (sensor_states m !! sensor_id) |} in
          let m := with_anomaly_queue (anomaly_queue m ++ [anomaly_event]) m in
          let m := run_callbacks "on_anomaly" (on_anomaly (callbacks m))
                     (AnomalyEv anomaly_event) m in
          let value := default 0%Q (r_value r) in
          let score := default 0%Q (r_anomaly_score r) in
          Returned (log warning (AnomalyDetected sensor_id value score) m)
      end
  end.

(** The [except Exception] branch of [_process_single_reading]. *)
Definition detect_failed (reading : addr) (m : Monitor) : Monitor :=
  let m := log error DetectError m in
  annotate_reading reading false 0%Q m.

(** [_process_single_reading] *)
Definition _process_single_reading (reading : addr) (m : Monitor) : Monitor :=
  match heap m !! reading with
  | None => m
  | Some r =>
      let sensor_id := r_sensor_id r in
      let '(now, m) := read_clock m in
      let timestamp := default now (r_timestamp r) in
      match sensor_id with
      | None => log warning MissingSensorId m
      | Some sensor_id =>
          let m := count_reading timestamp m in
          let m := with_data_buffer
                     (deque_append (buffer_size m) reading (data_buffer m)) m in
          let m := _get_sensor_state sensor_id m in
          let m := set_sensor sensor_id (with_last_seen (Some timestamp)) m in
          let m := set_sensor sensor_id
                     (fun st => with_recent_readings
                                  (deque_append 50 reading (recent_readings st)) st) m in
          let m := set_sensor sensor_id (with_status active) m in
          match anomaly_detector m with
          | None => m
          | Some d =>
              if is_trained d then
                match predict_single d r with
                | None => detect_failed reading m
                | Some (is_anomaly, anomaly_score) =>
                    let m := annotate_reading reading is_anomaly anomaly_score m in
                    if is_anomaly then
                      match _handle_anomaly reading sensor_id m with
                      | Returned m => m
                      | Raised _ m => detect_failed reading m
                      end
                    else
                      set_sensor sensor_id (with_consecutive_anomalies 0) m
                end
              else m
          end
      end
  end.

(** [_process_readings] *)
Definition _process_readings (readings : list addr) (m : Monitor) : Monitor :=
  foldl (fun m reading => _process_single_reading reading m) m readings.

(** [self.sensor_states[sensor_id]] on the defaultdict: a missing key is
    filled by the default factory, which builds the same entry as
    [_get_sensor_state]. *)
Definition sensor_states_getitem (sensor_id : string) (m : Monitor) : Monitor :=
  _get_sensor_state sensor_id m.

(** [_handle_sensor_timeout] *)
Definition _handle_sensor_timeout (sensor_id : string) (timeout_duration : Z)
    (m : Monitor) : Monitor :=
  let m := sensor_states_getitem sensor_id m in
  let m := set_sensor sensor_id (with_status timeout) m in
  let '(now, m) := read_clock m in
  let timeout_event :=
    {| te_timestamp := now;
       te_sensor_id := sensor_id;
       te_timeout_duration := timeout_duration;
       te_event_type := "sensor_timeout" |} in
  let m := run_callbacks "on_sensor_failure" (on_sensor_failure (callbacks m))
             (TimeoutEv timeout_event) m in
  log error (SensorTimeoutMsg sensor_id timeout_duration) m.

(** The body of the loop of [_check_sensor_timeouts] for one key. *)
Definition check_one_sensor (current_time timeout_threshold : Z)
    (m : Monitor) (sensor_id : string) : Monitor :=
  match sensor_states m !! sensor_id with
  | None => m
  | Some state =>
      match last_seen state with
      | Some seen =>
          if decide (status state = active) then
            let time_since_last := (current_time - seen)%Z in
            if (timeout_threshold <? time_since_last)%Z
            then _handle_sensor_timeout sensor_id time_since_last m
            else m
          else m
      | None => m
      end
  end.

(** [_check_sensor_timeouts] *)
Definition _check_sensor_timeouts (m : Monitor) : Monitor :=
  let '(current_time, m) := read_clock m in
  let timeout_threshold := timedelta_seconds (rule_sensor_timeout (alert_rules m)) in
  foldl (check_one_sensor current_time timeout_threshold) m (sensor_order m).

(** [_get_alert_severity] *)
Definition _get_alert_severity (alert_type : string) : Severity :=
  if String.eqb alert_type "consecutive_anomalies" then high
  else if String.eqb alert_type "high_anomaly_rate" then medium
  else if String.eqb alert_type "sensor_timeout" then high
  else if String.eqb alert_type "critical_sensor_anomaly" then critical
  else medium.

(** [str(x)] for the value of [alert_data.get(key)]. *)
Definition str_opt {A : Type} `{Pretty A} (o : option A) : string :=
  match o with
  | Some x => pretty x
  | None => "None"
  end.

Definition str_opt_string (o : option string) : string :=
  match o with
  | Some x => x
  | None => "None"
  end.

(** The nearest integer to [q], ties to the even one. *)
Definition round_half_even (q : Q) : Z :=
  let n := (Qnum q / Z.pos (Qden q))%Z in
  let r := (Qnum q mod Z.pos (Qden q))%Z in
  match (2 * r ?= Z.pos (Qden q))%Z with
  | Lt => n
  | Gt => (n + 1)%Z
  | Eq => if Z.even n then n else (n + 1)%Z
  end.

(** [f"{q:.0f}"] and [f"{q:.1%}"], on the rational that stands for the
    float.  The sign is that of the value, also when it rounds to zero
    ([f"{-0.4:.0f}"] is "-0").  Ties are decided on the rational: a decimal
    tie whose float is not exactly a tie may print differently in Python. *)
Definition format_f0 (q : Q) : string :=
  let n := round_half_even q in
  (if (Qnum q <? 0)%Z then "-" else "") +:+ pretty (Z.abs n).

Definition format_pct1 (q : Q) : string :=
  let n := round_half_even (q * 1000) in
  (if (Qnum q <? 0)%Z then "-" else "")
    +:+ pretty (Z.abs n / 10)%Z +:+ "." +:+ pretty (Z.abs n mod 10)%Z +:+ "%".

(** [_get_alert_description] *)
Definition _get_alert_description (alert_type : string) (d : AlertData) : string :=
  if String.eqb alert_type "consecutive_anomalies" then
    "Sensor " +:+ str_opt_string (ad_sensor_id d) +:+ " has "
      +:+ str_opt (ad_count d) +:+ " consecutive anomalies"
  else if String.eqb alert_type "high_anomaly_rate" then
    "High anomaly rate detected: " +:+ format_pct1 (default 0%Q (ad_rate d))
      +:+ " (threshold: " +:+ format_pct1 (default 0%Q (ad_threshold d)) +:+ ")"
  else if String.eqb alert_type "sensor_timeout" then
    "Sensor " +:+ str_opt_string (ad_sensor_id d) +:+ " timeout for "
      +:+ format_f0 (default 0%Q (ad_timeout_duration d)) +:+ " seconds"
  else "Alert type: " +:+ alert_type.

(** [int(time.time())]: whole seconds. *)
Definition whole_seconds (t : Z) : Z := Z.quot t microseconds_per_second.

(** The alert dict that [_raise_alert] builds from its two clock reads. *)
Definition make_alert (t_id t_stamp : Z) (alert_type : string) (d : AlertData) : Alert :=
  {| alert_id := "alert_" +:+ pretty (whole_seconds t_id) +:+ "_" +:+ alert_type;
     alert_type := alert_type;
     alert_timestamp := t_stamp;
     severity := _get_alert_severity alert_type;
     alert_data := d;
     description := _get_alert_description alert_type d |}.

(** [_raise_alert] *)
Definition _raise_alert (alert_type : string) (d : AlertData) (m : Monitor) : Monitor :=
  let m := incr_alerts_raised m in
  let '(t_id, m) := read_clock m in
  let '(t_stamp, m) := read_clock m in
  let alert := make_alert t_id t_stamp alert_type d in
  let m := with_alert_queue (alert_queue m ++ [alert]) m in
  let m := run_callbacks "on_alert" (on_alert (callbacks m)) (AlertEv alert) m in
  log critical_level (AlertMsg (description alert)) m.

(** The body of the first loop of [_analyze_alerts] for one key. *)
Definition analyze_one_sensor (current_time : Z) (m : Monitor)
    (sensor_id : string) : Monitor :=
  match sensor_states m !! sensor_id with
  | None => m
  | Some state =>
      let consecutive_count := consecutive_anomalies state in
      if (rule_consecutive_anomalies (alert_rules m) <=? Z.of_nat consecutive_count)%Z
      then _raise_alert "consecutive_anomalies"
             {| ad_sensor_id := Some sensor_id;
                ad_count := Some consecutive_count;
                ad_rate := None; ad_threshold := None;
                ad_timeout_duration := None;
                ad_timestamp := Some current_time |} m
      else m
  end.

(** [r.get('is_anomaly_detected', False)] for the object at [a]. *)
Definition flagged (h : list Reading) (a : addr) : bool :=
  match h !! a with
  | Some r => default false (r_is_anomaly_detected r)
  | None => false
  end.

(** The second half of [_analyze_alerts]: the overall anomaly rate. *)
Definition analyze_rate (current_time : Z) (m : Monitor) : Monitor :=
  if (100 <=? length (data_buffer m))%nat then
    let recent_data := last_n 100 (data_buffer m) in
    let anomaly_count := length (filter (fun a => flagged (heap m) a = true) recent_data) in
    let anomaly_rate := Z.of_nat anomaly_count # Pos.of_nat (length recent_data) in
    if Qle_bool anomaly_rate (rule_anomaly_rate_threshold (alert_rules m)) then m
    else _raise_alert "high_anomaly_rate"
           {| ad_sensor_id := None; ad_count := None;
              ad_rate := Some anomaly_rate;
              ad_threshold := Some (rule_anomaly_rate_threshold (alert_rules m));
              ad_timeout_duration := None;
              ad_timestamp := Some current_time |} m
  else m.

(** [_analyze_alerts] *)
Definition _analyze_alerts (m : Monitor) : Monitor :=
  let '(current_time, m) := read_clock m in
  let m := foldl (analyze_one_sensor current_time) m (sensor_order m) in
  analyze_rate current_time m.

(** The dict returned by [get_monitoring_stats]. *)
Record Snapshot := {
  snap_is_monitoring : bool;
  snap_uptime_seconds : Q;
  snap_total_readings : nat;
  snap_anomalies_detected : nat;
  snap_alerts_raised : nat;
  snap_anomaly_rate : Q;
  snap_active_sensors : nat;
  snap_timeout_sensors : nat;
  snap_buffer_utilization : Q;
  snap_last_reading_time : option Z
}.

Definition count_status (st : Status) (m : Monitor) : nat :=
  length (filter (fun k => status <$> (sensor_states m !! k) = Some st) (sensor_order m)).

(** [get_monitoring_stats]: the only division whose divisor can be zero is
    the one by [self.buffer_size]. *)
Definition get_monitoring_stats (m : Monitor) : result Snapshot * Monitor :=
  let '(current_time, m) := read_clock m in
  let uptime :=
    match start_time (stats m) with
    | Some t0 => (current_time - t0)%Z # 1000000
    | None => 0%Q
    end in
  let anomaly_rate :=
    Z.of_nat (anomalies_detected (stats m))
      # Pos.of_nat (Nat.max 1 (total_readings (stats m))) in
  let active_sensors := count_status active m in
  let timeout_sensors := count_status timeout m in
  match buffer_size m with
  | 0 => (Raise ZeroDivisionError, m)
  | S _ =>
      (Ok {| snap_is_monitoring := is_monitoring m;
             snap_uptime_seconds := uptime;
             snap_total_readings := total_readings (stats m);
             snap_anomalies_detected := anomalies_detected (stats m);
             snap_alerts_raised := alerts_raised (stats m);
             snap_anomaly_rate := anomaly_rate;
             snap_active_sensors := active_sensors;
             snap_timeout_sensors := timeout_sensors;
             snap_buffer_utilization :=
               Z.of_nat (length (data_buffer m)) # Pos.of_nat (buffer_size m);
             snap_last_reading_time := last_reading_time (stats m) |}, m)
  end.

(** [get_recent_anomalies]: pops up to [limit] events off the queue. *)
Definition get_recent_anomalies (limit : Z) (m : Monitor) : list AnomalyEvent * Monitor :=
  (take (Z.to_nat limit) (anomaly_queue m),
   with_anomaly_queue (drop (Z.to_nat limit) (anomaly_queue m)) m).

(** [get_recent_alerts] *)
Definition get_recent_alerts (limit : Z) (m : Monitor) : list Alert * Monitor :=
  (take (Z.to_nat limit) (alert_queue m),
   with_alert_queue (drop (Z.to_nat limit) (alert_queue m)) m).

(** One value of the dict [get_sensor_summary] returns. *)
Record SensorSummary := {
  ss_status : Status;
  ss_last_seen : option Z;
  ss_consecutive_anomalies : nat;
  ss_recent_reading_count : nat
}.

(** [get_sensor_summary]: the returned dict, as its items in iteration
    order. *)
Definition get_sensor_summary (m : Monitor) : list (string * SensorSummary) :=
  omap (fun sensor_id =>
          (fun state =>
             (sensor_id,
              {| ss_status := status state;
                 ss_last_seen := last_seen state;
                 ss_consecutive_anomalies := consecutive_anomalies state;
                 ss_recent_reading_count := length (recent_readings state) |}))
          <$> sensor_states m !! sensor_id)
       (sensor_order m).

(** [start_monitoring]; the loop it starts is [loop_iteration], once per
    iteration. *)
Definition start_monitoring (d : Detector) (m : Monitor) : Monitor :=
  if is_monitoring m then log warning AlreadyMonitoring m
  else
    let m := with_anomaly_detector (Some d) m in
    let m := with_is_monitoring true m in
    let '(now, m) := read_clock m in
    let m := set_start_time now m in
    log info Started m.

(** [stop_monitoring] *)
Definition stop_monitoring (m : Monitor) : Monitor :=
  log info Stopped (with_is_monitoring false m).

(** New dicts enter the object store at the next free addresses. *)
Definition alloc (rs : list Reading) (m : Monitor) : list addr * Monitor :=
  (seq (length (heap m)) (length rs), with_heap (heap m ++ rs) m).

Definition new_refs (rs : list Reading) (m : Monitor) : list addr := fst (alloc rs m).
Definition with_new_objects (rs : list Reading) (m : Monitor) : Monitor := snd (alloc rs m).

(** [_process_readings] called with a list of new dicts, as the simulator
    hands them over. *)
Definition process_new_readings (rs : list Reading) (m : Monitor) : Monitor :=
  let '(refs, m) := alloc rs m in
  _process_readings refs m.

(** One iteration of the [while self.is_monitoring] loop of
    [_monitoring_loop]; [rs] is what [self.network.simulate_step()] returned. *)
Definition loop_iteration (rs : list Reading) (m : Monitor) : Monitor :=
  if is_monitoring m then
    let '(refs, m) := alloc rs m in
    let m := match refs with
             | [] => m
             | _ => _process_readings refs m
             end in
    let m := _check_sensor_timeouts m in
    _analyze_alerts m
  else m.

(** ** Runs of the monitor *)

Inductive Op :=
  | OpAddCallback (event_type : string) (cb : Callback)
  | OpStart (d : Detector)
  | OpStop
  | OpLoop (rs : list Reading)
  | OpProcessReadings (rs : list Reading)
  | OpReprocess (refs : list addr)
  | OpCheckTimeouts
  | OpAnalyzeAlerts
  | OpSetRules (r : AlertRules)
  | OpGetStats
  | OpGetRecentAnomalies (limit : Z)
  | OpGetRecentAlerts (limit : Z).

Definition step (m : Monitor) (o : Op) : Monitor :=
  match o with
  | OpAddCallback ty cb =>
      match add_callback ty cb m with
      | Ok m' => m'
      | Raise _ => m
      end
  | OpStart d => start_monitoring d m
  | OpStop => stop_monitoring m
  | OpLoop rs => loop_iteration rs m
  | OpProcessReadings rs => process_new_readings rs m
  | OpReprocess refs => _process_readings refs m
  | OpCheckTimeouts => _check_sensor_timeouts m
  | OpAnalyzeAlerts => _analyze_alerts m
  | OpSetRules r => with_alert_rules r m
  | OpGetStats => snd (get_monitoring_stats m)
  | OpGetRecentAnomalies limit => snd (get_recent_anomalies limit m)
  | OpGetRecentAlerts limit => snd (get_recent_alerts limit m)
  end.

Definition run (ops : list Op) (m : Monitor) : Monitor := foldl step m ops.

(** ** Vocabulary of the properties *)

(** An observation [pi] of the monitor does not see the write [set]. *)
Definition blind_to {X V : Type} (pi : Monitor -> X)
    (set : V -> Monitor -> Monitor) : Prop :=
  forall v m, pi (set v m) = pi m.

(** The state a method leaves behind, however it ended. *)
Definition state_of (o : outcome) : Monitor :=
  match o with
  | Returned m => m
  | Raised _ m => m
  end.

(** The sensor a logger or callback call reports a timeout of, if it
    reports one. *)
Definition timeout_effect (e : Effect) : option string :=
  match e with
  | Called _ _ (TimeoutEv te) => Some (te_sensor_id te)
  | Logged _ (SensorTimeoutMsg k _) => Some k
  | _ => None
  end.

(** The kinds of write the methods perform on the monitor. *)
Inductive Write :=
  | W_effects | W_clock | W_count_reading | W_incr_anomalies | W_incr_alerts
  | W_start_time | W_data_buffer | W_alloc | W_annotate | W_sensors
  | W_anomaly_queue | W_alert_queue | W_callbacks | W_rules | W_detector
  | W_is_monitoring.

(** [pi] does not see writes of kind [w]. *)
Definition unseen {X : Type} (pi : Monitor -> X) (w : Write) : Prop :=
  match w with
  | W_effects => forall e m, pi (emit e m) = pi m
  | W_clock => blind_to pi with_clock_reads
  | W_count_reading => forall t m, pi (count_reading t m) = pi m
  | W_incr_anomalies => forall m, pi (incr_anomalies_detected m) = pi m
  | W_incr_alerts => forall m, pi (incr_alerts_raised m) = pi m
  | W_start_time => forall t m, pi (set_start_time t m) = pi m
  | W_data_buffer => blind_to pi with_data_buffer
  | W_alloc => forall rs m, pi (with_new_objects rs m) = pi m
  | W_annotate => forall a b s m, pi (annotate_reading a b s m) = pi m
  | W_sensors => forall s o m, pi (with_sensors s o m) = pi m
  | W_anomaly_queue => blind_to pi with_anomaly_queue
  | W_alert_queue => blind_to pi with_alert_queue
  | W_callbacks => blind_to pi with_callbacks
  | W_rules => blind_to pi with_alert_rules
  | W_detector => blind_to pi with_anomaly_detector
  | W_is_monitoring => blind_to pi with_is_monitoring
  end.

Definition ingest_writes : list Write :=
  [W_clock; W_effects; W_count_reading; W_data_buffer; W_sensors; W_annotate;
   W_incr_anomalies; W_anomaly_queue].

Definition timeout_writes : list Write := [W_clock; W_sensors; W_effects].

Definition alert_writes : list Write :=
  [W_clock; W_incr_alerts; W_alert_queue; W_effects].

(** The writes an operation may perform. *)
Definition footprint (o : Op) : list Write :=
  match o with
  | OpAddCallback _ _ => [W_callbacks]
  | OpStart _ => [W_detector; W_is_monitoring; W_clock; W_start_time; W_effects]
  | OpStop => [W_is_monitoring; W_effects]
  | OpLoop _ => W_alloc :: ingest_writes ++ timeout_writes ++ alert_writes
  | OpProcessReadings _ => W_alloc :: ingest_writes
  | OpReprocess _ => ingest_writes
  | OpCheckTimeouts => timeout_writes
  | OpAnalyzeAlerts => alert_writes
  | OpSetRules _ => [W_rules]
  | OpGetStats => [W_clock]
  | OpGetRecentAnomalies _ => [W_anomaly_queue]
  | OpGetRecentAlerts _ => [W_alert_queue]
  end.

(** The bookkeeping [_process_single_reading] does for the reading at [a],
    stamped [t], of sensor [s], before it turns to the classifier. *)
Definition recorded (a : addr) (t : Z) (s : string) (m : Monitor) : Monitor :=
  set_sensor s (with_status active)
    (set_sensor s
       (fun st => with_recent_readings (deque_append 50 a (recent_readings st)) st)
       (set_sensor s (with_last_seen (Some t))
          (_get_sensor_state s
             (with_data_buffer (deque_append (buffer_size m) a (data_buffer m))
                (count_reading t (with_clock_reads (S (clock_reads m)) m)))))).

(** What [_process_single_reading] does after that bookkeeping: it asks the
    classifier about the reading [r] found at [a] and acts on the answer. *)
Definition classified (a : addr) (r : Reading) (k : string) (m : Monitor) : Monitor :=
  match anomaly_detector m with
  | None => m
  | Some d =>
      if is_trained d then
        match predict_single d r with
        | None => detect_failed a m
        | Some (is_anomaly, anomaly_score) =>
            let m := annotate_reading a is_anomaly anomaly_score m in
            if is_anomaly then
              match _handle_anomaly a k m with
              | Returned m => m
              | Raised _ m => detect_failed a m
              end
            else set_sensor k (with_consecutive_anomalies 0) m
        end
      else m
  end.

(** The sensor id carried by the object at [a], if there is one. *)
Definition sensor_of (h : list Reading) (a : addr) : option string :=
  h !! a ≫= r_sensor_id.

(** The objects an operation ingests: those it processes that carry a
    sensor id, in processing order. *)
Definition ingested_by (m : Monitor) (o : Op) : list addr :=
  match o with
  | OpLoop rs =>
      if is_monitoring m
      then filter (fun a => is_Some (sensor_of (heap (with_new_objects rs m)) a))
                  (new_refs rs m)
      else []
  | OpProcessReadings rs =>
      filter (fun a => is_Some (sensor_of (heap (with_new_objects rs m)) a))
             (new_refs rs m)
  | OpReprocess refs => filter (fun a => is_Some (sensor_of (heap m) a)) refs
  | _ => []
  end.

Fixpoint ingested (ops : list Op) (m : Monitor) : list addr :=
  match ops with
  | [] => []
  | o :: ops' => ingested_by m o ++ ingested ops' (step m o)
  end.

(** The sensor dict is well formed: [sensor_order] lists its keys, once
    each. *)
Definition wf (m : Monitor) : Prop :=
  NoDup (sensor_order m)
  /\ dom (sensor_states m) = list_to_set (sensor_order m).

Definition wfb (m : Monitor) : bool := bool_decide (wf m).

(** The [alert_data] of a consecutive-anomalies alert. *)
Definition consecutive_data (sensor_id : string) (count : nat) (t : Z) : AlertData :=
  {| ad_sensor_id := Some sensor_id; ad_count := Some count;
     ad_rate := None; ad_threshold := None; ad_timeout_duration := None;
     ad_timestamp := Some t |}.

(** [a] is a consecutive-anomalies alert about sensor [s]. *)
Definition alert_about (s : string) (a : Alert) : Prop :=
  alert_type a = "consecutive_anomalies" /\ ad_sensor_id (alert_data a) = Some s.

Global Instance alert_about_dec s a : Decision (alert_about s a).
Proof. unfold alert_about. apply _. Defined.

(** The count that makes sensor [s] fire in an analysis pass over [m]. *)
Definition fires (m : Monitor) (s : string) : option nat :=
  match sensor_states m !! s with
  | Some st =>
      if (rule_consecutive_anomalies (alert_rules m) <=? Z.of_nat (consecutive_anomalies st))%Z
      then Some (consecutive_anomalies st)
      else None
  | None => None
  end.

(** The logger and callback calls in the history of [m] that report a
    timeout of sensor [s]. *)
Definition timeout_reports (s : string) (m : Monitor) : list Effect :=
  filter (fun e => timeout_effect e = Some s) (effects m).

Definition status_of (m : Monitor) (s : string) : option Status :=
  status <$> sensor_states m !! s.

(** How long sensor [s] has been silent at time [now], when that makes the
    timeout check act on it. *)
Definition overdue (now : Z) (m : Monitor) (s : string) : option Z :=
  match sensor_states m !! s with
  | Some st =>
      match last_seen st with
      | Some seen =>
          if decide (status st = active) then
            if (timedelta_seconds (rule_sensor_timeout (alert_rules m)) <? now - seen)%Z
            then Some (now - seen)%Z
            else None
          else None
      | None => None
      end
  | None => None
  end.

(** The calls [_handle_sensor_timeout] makes for sensor [s] silent for [d],
    with the event stamped [t]. *)
Definition timeout_calls (m : Monitor) (s : string) (d t : Z) : list Effect :=
  map (fun cb => Called "on_sensor_failure" (cb_id cb)
                   (TimeoutEv {| te_timestamp := t; te_sensor_id := s;
                                 te_timeout_duration := d;
                                 te_event_type := "sensor_timeout" |}))
      (on_sensor_failure (callbacks m))
  ++ [Logged error (SensorTimeoutMsg s d)].

(** No reading of sensor [s] is handed to the monitor by [o]. *)
Definition quiet_for (s : string) (m : Monitor) (o : Op) : Prop :=
  match o with
  | OpLoop rs | OpProcessReadings rs => Forall (fun r => r_sensor_id r <> Some s) rs
  | OpReprocess refs => Forall (fun a => sensor_of (heap m) a <> Some s) refs
  | _ => True
  end.

Fixpoint quiet_run (s : string) (ops : list Op) (m : Monitor) : Prop :=
  match ops with
  | [] => True
  | o :: ops' => quiet_for s m o /\ quiet_run s ops' (step m o)
  end.

(** The part of the monitor that decides and records the timeouts of [s]. *)
Definition timeout_view (s : string) (m : Monitor)
    : list Effect * option SensorState * AlertRules * Callbacks :=
  (timeout_reports s m, sensor_states m !! s, alert_rules m, callbacks m).

(** The part of the monitor that records the timeouts of [s]. *)
Definition sensor_view (s : string) (m : Monitor) : list Effect * option SensorState :=
  (timeout_reports s m, sensor_states m !! s).

(** Every anomaly counted is a reading counted. *)
Definition counters_ok (m : Monitor) : Prop :=
  anomalies_detected (stats m) <= total_readings (stats m).

Definition counters (m : Monitor) : nat * nat :=
  (anomalies_detected (stats m), total_readings (stats m)).

(** *** Callbacks, queues and tables over a run *)

(** [e] is the call of a callback. *)
Definition is_call (e : Effect) : bool :=
  match e with
  | Called _ _ _ => true
  | Logged _ _ => false
  end.

(** [e] is the error line a loop over callbacks logs when one raises. *)
Definition is_callback_error (e : Effect) : bool :=
  match e with
  | Logged error (CallbackError _) => true
  | _ => false
  end.

(** The calls of callbacks among some logger and callback calls. *)
Definition calls_in (l : list Effect) : list Effect :=
  filter (fun e => is_call e = true) l.

(** The callback errors logged among some logger and callback calls. *)
Definition callback_errors_in (l : list Effect) : list Effect :=
  filter (fun e => is_callback_error e = true) l.

(** The three event types [add_callback] knows. *)
Definition event_types : list string := ["on_anomaly"; "on_alert"; "on_sensor_failure"].

(** [self.callbacks[event_type]], for a known event type. *)
Definition callbacks_of (event_type : string) (m : Monitor) : list Callback :=
  if String.eqb event_type "on_anomaly" then on_anomaly (callbacks m)
  else if String.eqb event_type "on_alert" then on_alert (callbacks m)
  else on_sensor_failure (callbacks m).

(** The counter of consecutive anomalies after the classifier was asked
    about reading [r], from the counter [c] before. *)
Definition next_count (m : Monitor) (r : Reading) (c : nat) : nat :=
  match anomaly_detector m with
  | Some d =>
      if is_trained d then
        match predict_single d r with
        | Some (true, _) => S c
        | Some (false, _) => 0
        | None => c
        end
      else c
  | None => c
  end.

(** The entry of its sensor after the reading [r] stored at [a] went
    through [_process_single_reading] in state [m]. *)
Definition updated_entry (a : addr) (r : Reading) (m : Monitor) (st : SensorState)
    : SensorState :=
  {| last_seen := Some (default (wall_clock m (clock_reads m)) (r_timestamp r));
     consecutive_anomalies := next_count m r (consecutive_anomalies st);
     recent_readings := deque_append 50 a (recent_readings st);
     status := active |}.

(** The event [_handle_anomaly] builds for reading [a] of sensor [k]. *)
Definition anomaly_event_of (a : addr) (k : string) (ts : Z) (m : Monitor) : AnomalyEvent :=
  {| ae_timestamp := ts;
     ae_sensor_id := k;
     ae_reading := a;
     ae_consecutive_count :=
       S (consecutive_anomalies (default new_sensor_state (sensor_states m !! k))) |}.

(** How many of the last 100 buffered readings are flagged anomalous. *)
Definition flagged_recent (m : Monitor) : nat :=
  length (filter (fun a => flagged (heap m) a = true) (last_n 100 (data_buffer m))).

(** The overall-rate rule fires. *)
Definition rate_fires (m : Monitor) : bool :=
  (100 <=? length (data_buffer m))%nat
  && negb (Qle_bool (Z.of_nat (flagged_recent m) # 100)
                    (rule_anomaly_rate_threshold (alert_rules m))).

Definition is_consecutive_alert (a : Alert) : Prop :=
  alert_type a = "consecutive_anomalies" /\ severity a = high.

Definition is_rate_alert (a : Alert) : Prop :=
  alert_type a = "high_anomaly_rate" /\ severity a = medium.

Definition alert_kinds_ok (m : Monitor) : Prop :=
  if (buffer_size m <? 100)%nat
  then Forall is_consecutive_alert (alert_queue m)
  else Forall (fun a => is_consecutive_alert a \/ is_rate_alert a) (alert_queue m).

Definition alert_view (m : Monitor) : nat * list Alert * nat :=
  (alerts_raised (stats m), alert_queue m, buffer_size m).

(** The alerts the reader [get_recent_alerts] takes out of the queue. *)
Definition drained_by (m : Monitor) (o : Op) : nat :=
  match o with
  | OpGetRecentAlerts limit => length (fst (get_recent_alerts limit m))
  | _ => 0
  end.

Fixpoint drained (ops : list Op) (m : Monitor) : nat :=
  match ops with
  | [] => 0
  | o :: ops' => drained_by m o + drained ops' (step m o)
  end.

(** What every entry of the sensor dict looks like once its first reading
    has been processed. *)
Definition entry_ok (st : SensorState) : Prop :=
  status st <> unknown /\ is_Some (last_seen st)
  /\ 1 <= length (recent_readings st) <= 50.

Definition entries_ok (m : Monitor) : Prop :=
  forall k st, sensor_states m !! k = Some st -> entry_ok st.

(** What [start_monitoring] and [stop_monitoring] do to the monitoring flag
    and the detector in use. *)
Definition lifecycle (s : bool * option Detector) (o : Op) : bool * option Detector :=
  match o with
  | OpStart d => if s.1 then s else (true, Some d)
  | OpStop => (false, s.2)
  | _ => s
  end.

Definition lifecycle_view (m : Monitor) : bool * option Detector :=
  (is_monitoring m, anomaly_detector m).

Definition started_view (m : Monitor) : bool * option Detector * option Z :=
  (is_monitoring m, anomaly_detector m, start_time (stats m)).

(** The start time is set exactly when a detector has been installed. *)
Definition started_ok (v : bool * option Detector * option Z) : Prop :=
  match v.1.2 with
  | None => v.2 = None /\ v.1.1 = false
  | Some _ => is_Some v.2
  end.

Definition reading_counters (m : Monitor) : nat * option Z :=
  (total_readings (stats m), last_reading_time (stats m)).

Definition reading_counters_ok (v : nat * option Z) : Prop :=
  match v.2 with
  | None => v.1 = 0
  | Some _ => 0 < v.1
  end.

(** Every event in the anomaly queue has been counted. *)
Definition queued_le_counted (taken : nat) (m : Monitor) : Prop :=
  length (anomaly_queue m) + taken <= anomalies_detected (stats m).

Definition anomaly_view (m : Monitor) : list AnomalyEvent * nat :=
  (anomaly_queue m, anomalies_detected (stats m)).

(** The events the reader [get_recent_anomalies] takes out of the queue. *)
Definition taken_by (m : Monitor) (o : Op) : nat :=
  match o with
  | OpGetRecentAnomalies limit => length (fst (get_recent_anomalies limit m))
  | _ => 0
  end.

Fixpoint taken (ops : list Op) (m : Monitor) : nat :=
  match ops with
  | [] => 0
  | o :: ops' => taken_by m o + taken ops' (step m o)
  end.

(** A key enters a dict behind the keys already there, once. *)
Definition note_sensor (seen : list string) (k : string) : list string :=
  if decide (k ∈ seen) then seen else seen ++ [k].

(** The key order once [s] has been looked up with [_get_sensor_state]. *)
Definition order_with (s : string) (m : Monitor) : list string :=
  sensor_order (_get_sensor_state s m).

(** ** Sample inputs *)

Definition sample_clock : nat -> Z := fun _ => 1700000000000000%Z.

Definition sample_reading (s : string) : Reading :=
  {| r_sensor_id := Some s; r_timestamp := Some 1699999000000000%Z;
     r_value := Some 1%Q; r_is_anomaly_detected := None; r_anomaly_score := None |}.

Definition reading_without_id : Reading :=
  {| r_sensor_id := None; r_timestamp := Some 1699999000000000%Z;
     r_value := Some 1%Q; r_is_anomaly_detected := None; r_anomaly_score := None |}.

Definition always_anomalous : Detector :=
  {| is_trained := true; predict_single := fun _ => Some (true, 1%Q) |}.

Definition failing_callback : Callback := {| cb_id := 7; cb_ok := fun _ => false |}.

Definition recording_callback (n : nat) : Callback :=
  {| cb_id := n; cb_ok := fun _ => true |}.

(** A monitor with one callback of each kind that has seen sensor "a"
    once, 1000 seconds before the time on the clock. *)
Definition stale_sensor_monitor : Monitor :=
  run [OpAddCallback "on_alert" (recording_callback 1);
       OpAddCallback "on_sensor_failure" (recording_callback 2);
       OpProcessReadings [sample_reading "a"]]
      (init sample_clock 1 1000).



(** A plain monitor, as [CableMonitor()] builds it, on the sample clock. *)
Definition default_monitor : Monitor := init sample_clock 1 1000.

(** Sensor "a" after three anomalous readings in a row. *)
Definition alarmed_monitor : Monitor :=
  run [OpStart always_anomalous;
       OpProcessReadings [sample_reading "a"; sample_reading "a"; sample_reading "a"]]
      default_monitor.

(** A reading that lacks the 'timestamp' key. *)
Definition reading_without_timestamp (s : string) : Reading :=
  {| r_sensor_id := Some s; r_timestamp := None;
     r_value := Some 1%Q; r_is_anomaly_detected := None; r_anomaly_score := None |}.

(** * Properties *)

Local Open Scope list_scope.

(** ** Containers *)

Lemma foldl_invariant {A B : Type} (P : A -> Prop) (f : A -> B -> A) (l : list B) :
  (forall a b, P a -> P (f a b)) -> forall a, P a -> P (foldl f a l).
Proof.
  intros Hstep. induction l as [|b l IH]; intros a Ha; simpl; [assumption|].
  apply IH, Hstep, Ha.
Qed.

Lemma last_n_length {A : Type} (n : nat) (l : list A) :
  length (last_n n l) = Nat.min (length l) n.
Proof. unfold last_n. rewrite length_drop. lia. Qed.

Lemma last_n_all {A : Type} (n : nat) (l : list A) :
  length l <= n -> last_n n l = l.
Proof.
  intros H. unfold last_n. replace (length l - n) with 0 by lia. reflexivity.
Qed.

Lemma last_n_app {A : Type} (n : nat) (l k : list A) :
  last_n n (last_n n l ++ k) = last_n n (l ++ k).
Proof.
  unfold last_n.
  rewrite <- (drop_app_le l k (length l - n)) by lia.
  rewrite drop_drop. f_equal.
  rewrite length_drop, !length_app. lia.
Qed.

Lemma deque_append_last_n {A : Type} (n : nat) (x : A) (d : list A) :
  deque_append n x d = last_n n (d ++ [x]).
Proof. reflexivity. Qed.

Lemma deque_append_length {A : Type} (n : nat) (x : A) (d : list A) :
  length (deque_append n x d) <= n.
Proof. rewrite deque_append_last_n, last_n_length. lia. Qed.

(** ** The two halves of [_process_single_reading] *)

Lemma _process_single_reading_present a r k m :
  heap m !! a = Some r -> r_sensor_id r = Some k ->
  _process_single_reading a m
  = classified a r k
      (recorded a (default (wall_clock m (clock_reads m)) (r_timestamp r)) k m).
Proof.
  intros Hr Hk. unfold _process_single_reading, read_clock. rewrite Hr, Hk.
  cbv beta iota zeta. unfold classified, recorded. reflexivity.
Qed.

Lemma _process_single_reading_absent a r m :
  heap m !! a = Some r -> r_sensor_id r = None ->
  _process_single_reading a m
  = log warning MissingSensorId (with_clock_reads (S (clock_reads m)) m).
Proof.
  intros Hr Hk. unfold _process_single_reading, read_clock. rewrite Hr, Hk.
  reflexivity.
Qed.

(** ** What each method leaves alone

    [pi] is any observation of the monitor; the hypotheses say which writes
    it does not see. *)

Section Frame.
Context {X : Type} (pi : Monitor -> X).

(** [pi] may see some of the logger and callback calls; [allowed] are those
    it does not see. *)
Variable allowed : Effect -> Prop.
Hypothesis pi_emit : forall e m, allowed e -> pi (emit e m) = pi m.
Hypothesis pi_clock : blind_to pi with_clock_reads.
Hypothesis allowed_other : forall e, timeout_effect e = None -> allowed e.

Lemma log_frame lvl msg m : allowed (Logged lvl msg) -> pi (log lvl msg m) = pi m.
Proof. apply pi_emit. Qed.

Lemma read_clock_frame m : pi (snd (read_clock m)) = pi m.
Proof. apply pi_clock. Qed.

Lemma run_callbacks_frame kind cbs ev m :
  (forall cb, allowed (Called kind cb ev)) ->
  pi (run_callbacks kind cbs ev m) = pi m.
Proof.
  intros Hev. unfold run_callbacks.
  apply (foldl_invariant (fun m' => pi m' = pi m)); [|reflexivity].
  intros m' cb Hm'. destruct (cb_ok cb ev).
  - now rewrite pi_emit.
  - rewrite log_frame by now apply allowed_other. now rewrite pi_emit.
Qed.

Ltac quiet := first [ now apply allowed_other | intros; now apply allowed_other ].

Section Alerts.
Hypothesis pi_alerts_raised : forall m, pi (incr_alerts_raised m) = pi m.
Hypothesis pi_alert_queue : blind_to pi with_alert_queue.

Lemma _raise_alert_frame ty d m : pi (_raise_alert ty d m) = pi m.
Proof.
  unfold _raise_alert, read_clock.
  rewrite log_frame, run_callbacks_frame by quiet.
  now rewrite pi_alert_queue, !pi_clock, pi_alerts_raised.
Qed.

Lemma analyze_one_sensor_frame t m k : pi (analyze_one_sensor t m k) = pi m.
Proof.
  unfold analyze_one_sensor.
  destruct (sensor_states m !! k); [|reflexivity].
  destruct (_ <=? _)%Z; [apply _raise_alert_frame|reflexivity].
Qed.

Lemma analyze_sensors_frame t l m :
  pi (foldl (analyze_one_sensor t) m l) = pi m.
Proof.
  apply (foldl_invariant (fun m' => pi m' = pi m)); [|reflexivity].
  intros m' k Hm'. now rewrite analyze_one_sensor_frame.
Qed.

Lemma analyze_rate_frame t m : pi (analyze_rate t m) = pi m.
Proof.
  unfold analyze_rate. destruct (_ <=? _)%nat; [|reflexivity].
  destruct (Qle_bool _ _); [reflexivity|apply _raise_alert_frame].
Qed.

Lemma _analyze_alerts_frame m : pi (_analyze_alerts m) = pi m.
Proof.
  unfold _analyze_alerts, read_clock.
  now rewrite analyze_rate_frame, analyze_sensors_frame, pi_clock.
Qed.
End Alerts.

Section Sensors.
Variable touched : string -> Prop.
Hypothesis pi_get : forall k m, touched k -> pi (_get_sensor_state k m) = pi m.
Hypothesis pi_set : forall k f m, touched k -> pi (set_sensor k f m) = pi m.
Hypothesis allowed_timeout :
  forall e k, timeout_effect e = Some k -> touched k -> allowed e.

Lemma _handle_sensor_timeout_frame k d m :
  touched k -> pi (_handle_sensor_timeout k d m) = pi m.
Proof.
  intros Hk. unfold _handle_sensor_timeout, sensor_states_getitem, read_clock.
  rewrite log_frame, run_callbacks_frame
    by (intros; now apply (allowed_timeout _ k)).
  now rewrite pi_clock, pi_set, pi_get.
Qed.

Lemma check_one_sensor_frame t thr m k :
  touched k -> pi (check_one_sensor t thr m k) = pi m.
Proof.
  intros Hk. unfold check_one_sensor.
  destruct (sensor_states m !! k) as [st|]; [|reflexivity].
  destruct (last_seen st); [|reflexivity].
  destruct (decide _); [|reflexivity].
  destruct (_ <? _)%Z; [now apply _handle_sensor_timeout_frame|reflexivity].
Qed.

Lemma check_sensors_frame t thr l m :
  Forall touched l -> pi (foldl (check_one_sensor t thr) m l) = pi m.
Proof.
  intros Hl. revert m. induction Hl as [|k l Hk Hl IH]; intros m; simpl; [reflexivity|].
  now rewrite IH, check_one_sensor_frame.
Qed.

Section Ingest.
Hypothesis pi_anomalies : forall m, pi (incr_anomalies_detected m) = pi m.
Hypothesis pi_anomaly_queue : blind_to pi with_anomaly_queue.
Variable marked : addr -> Prop.
Hypothesis pi_annotate :
  forall a b s m, marked a -> pi (annotate_reading a b s m) = pi m.

Lemma _handle_anomaly_frame a k m :
  touched k -> pi (state_of (_handle_anomaly a k m)) = pi m.
Proof.
  intros Hk. unfold _handle_anomaly.
  set (m1 := set_sensor k _ _).
  assert (H1 : pi m1 = pi m) by (unfold m1; now rewrite pi_set, pi_get, pi_anomalies).
  destruct (heap m1 !! a) as [r|]; [|exact H1].
  destruct (r_timestamp r); [|exact H1].
  simpl. rewrite log_frame, run_callbacks_frame by quiet.
  now rewrite pi_anomaly_queue.
Qed.

Lemma detect_failed_frame a m : marked a -> pi (detect_failed a m) = pi m.
Proof.
  intros Ha. unfold detect_failed. rewrite pi_annotate by assumption.
  now rewrite log_frame by quiet.
Qed.

Lemma classified_frame a r k m :
  touched k -> marked a -> pi (classified a r k m) = pi m.
Proof.
  intros Hk Ha. unfold classified.
  destruct (anomaly_detector m) as [d|]; [|reflexivity].
  destruct (is_trained d); [|reflexivity].
  destruct (predict_single d r) as [[[] sc]|]; cbv zeta.
  - pose proof (_handle_anomaly_frame a k (annotate_reading a true sc m) Hk) as H.
    destruct (_handle_anomaly _ _ _); simpl in H.
    + now rewrite H, pi_annotate.
    + now rewrite detect_failed_frame, H, pi_annotate.
  - now rewrite pi_set, pi_annotate.
  - now apply detect_failed_frame.
Qed.

Hypothesis pi_data_buffer : blind_to pi with_data_buffer.
Hypothesis pi_total : forall t m, pi (count_reading t m) = pi m.

Lemma _process_single_reading_frame a m :
  (forall r k, heap m !! a = Some r -> r_sensor_id r = Some k -> touched k) ->
  marked a ->
  pi (_process_single_reading a m) = pi m.
Proof.
  intros Hk Ha.
  destruct (heap m !! a) as [r|] eqn:Hr;
    [|unfold _process_single_reading; now rewrite Hr].
  destruct (r_sensor_id r) as [k|] eqn:Hid.
  - rewrite (_process_single_reading_present a r k m Hr Hid).
    rewrite classified_frame by eauto. unfold recorded.
    rewrite !pi_set, pi_get, pi_data_buffer, pi_total, pi_clock by eauto.
    reflexivity.
  - rewrite (_process_single_reading_absent a r m Hr Hid).
    rewrite log_frame by quiet. now rewrite pi_clock.
Qed.
End Ingest.
End Sensors.
End Frame.

(** Writes to the sensor dict are invisible to an observation that is blind
    to [with_sensors]. *)
Lemma blind_get {X : Type} (pi : Monitor -> X) :
  (forall s o m, pi (with_sensors s o m) = pi m) ->
  forall k m, True -> pi (_get_sensor_state k m) = pi m.
Proof.
  intros H k m _. unfold _get_sensor_state.
  destruct (sensor_states m !! k); [reflexivity|apply H].
Qed.

Lemma blind_set {X : Type} (pi : Monitor -> X) :
  (forall s o m, pi (with_sensors s o m) = pi m) ->
  forall k f m, True -> pi (set_sensor k f m) = pi m.
Proof. intros H k f m _. apply H. Qed.

(** Side conditions of the frame lemmas that hold by computation. *)
Ltac blind :=
  first [ exact I
        | unfold blind_to; intros; reflexivity
        | intros; exact I
        | let k := fresh in let m := fresh in
          intros k m _; unfold _get_sensor_state;
          destruct (sensor_states m !! k); reflexivity ].


(** ** Sensor entries *)

Lemma get_sensor_lookup_ne k t m :
  k <> t -> sensor_states (_get_sensor_state k m) !! t = sensor_states m !! t.
Proof.
  intros Hne. unfold _get_sensor_state.
  destruct (sensor_states m !! k); [reflexivity|].
  simpl. now rewrite lookup_insert_ne.
Qed.

Lemma set_sensor_lookup_ne k f t m :
  k <> t -> sensor_states (set_sensor k f m) !! t = sensor_states m !! t.
Proof. intros Hne. simpl. now rewrite lookup_alter_ne. Qed.

Lemma get_sensor_lookup k m :
  sensor_states (_get_sensor_state k m) !! k
  = Some (default new_sensor_state (sensor_states m !! k)).
Proof.
  unfold _get_sensor_state. destruct (sensor_states m !! k) eqn:H; simpl.
  - exact H.
  - apply lookup_insert_eq.
Qed.

Lemma get_sensor_order_others k m :
  filter (fun j => j <> k) (sensor_order (_get_sensor_state k m))
  = filter (fun j => j <> k) (sensor_order m).
Proof.
  unfold _get_sensor_state. destruct (sensor_states m !! k); [reflexivity|].
  simpl. rewrite filter_app, filter_cons_False, filter_nil by (intros H; now apply H).
  apply app_nil_r.
Qed.

Lemma annotate_lookup_ne a b s c m :
  a <> c -> heap (annotate_reading a b s m) !! c = heap m !! c.
Proof. intros Hne. simpl. now rewrite list_lookup_alter_ne. Qed.

Lemma annotate_sensor_id a b s c m :
  r_sensor_id <$> heap (annotate_reading a b s m) !! c = r_sensor_id <$> heap m !! c.
Proof.
  simpl. destruct (decide (a = c)) as [->|Hne].
  - rewrite list_lookup_alter_eq. now destruct (heap m !! c).
  - now rewrite list_lookup_alter_ne.
Qed.

(** C10: processing one reading of sensor [s] leaves the entry of every
    other sensor [t] as it was (an absent entry stays absent), adds no key
    other than [s] to the sensor dict, and writes to no reading object other
    than the one processed. *)
Theorem other_sensors_untouched a r s t m :
  heap m !! a = Some r -> r_sensor_id r = Some s -> t <> s ->
  sensor_states (_process_single_reading a m) !! t = sensor_states m !! t
  /\ filter (fun k => k <> s) (sensor_order (_process_single_reading a m))
     = filter (fun k => k <> s) (sensor_order m)
  /\ (forall b, b <> a ->
        heap (_process_single_reading a m) !! b = heap m !! b).
Proof.
  intros Hr Hs Hts.
  assert (Hone : forall r' k, heap m !! a = Some r' -> r_sensor_id r' = Some k -> k = s)
    by (intros r' k Hr' Hk; congruence).
  split; [|split].
  - apply (_process_single_reading_frame (fun m => sensor_states m !! t))
      with (allowed := fun _ => True) (touched := fun k => k <> t) (marked := fun _ => True);
      try blind; auto.
    + intros k m0 Hk. now apply get_sensor_lookup_ne.
    + intros k f m0 Hk. now apply set_sensor_lookup_ne.
    + intros r' k Hr' Hk. rewrite (Hone r' k Hr' Hk). congruence.
  - apply (_process_single_reading_frame
             (fun m => filter (fun k => k <> s) (sensor_order m)))
      with (allowed := fun _ => True) (touched := fun k => k = s) (marked := fun _ => True);
      try blind; auto.
    + intros k m0 ->. apply get_sensor_order_others.
  - intros b Hb.
    apply (_process_single_reading_frame (fun m => heap m !! b))
      with (allowed := fun _ => True) (touched := fun _ => True) (marked := fun c => c <> b);
      try blind; auto.
    intros c b0 s0 m0 Hc. now apply annotate_lookup_ne.
Qed.

Lemma other_sensors_untouched_witness :
  let m := with_new_objects [sample_reading "a"]
             (run [OpStart always_anomalous;
                   OpProcessReadings [sample_reading "a"; sample_reading "b"]]
                  default_monitor) in
  sensor_states (_process_single_reading 2 m) !! "b" = sensor_states m !! "b"
  /\ sensor_states (_process_single_reading 2 m) !! "c" = None.
Proof.
  intros m.
  destruct (other_sensors_untouched 2 (sample_reading "a") "a" "b" m)
    as (Hb & _); [reflexivity|reflexivity|discriminate|].
  destruct (other_sensors_untouched 2 (sample_reading "a") "a" "c" m)
    as (Hc & _); [reflexivity|reflexivity|discriminate|].
  split; [exact Hb|]. rewrite Hc. vm_compute. reflexivity.
Defined.

(** ** The bookkeeping of a reading *)

Lemma recorded_anomaly_queue a t k m :
  anomaly_queue (recorded a t k m) = anomaly_queue m.
Proof.
  unfold recorded.
  now rewrite !(blind_set anomaly_queue), (blind_get anomaly_queue) by blind.
Qed.

Lemma recorded_heap a t k m : heap (recorded a t k m) = heap m.
Proof.
  unfold recorded. now rewrite !(blind_set heap), (blind_get heap) by blind.
Qed.

Lemma recorded_detector a t k m :
  anomaly_detector (recorded a t k m) = anomaly_detector m.
Proof.
  unfold recorded.
  now rewrite !(blind_set anomaly_detector), (blind_get anomaly_detector) by blind.
Qed.

Lemma recorded_sensor a t s m :
  sensor_states (recorded a t s m) !! s
  = Some (with_status active
            (with_recent_readings
               (deque_append 50 a
                  (recent_readings (default new_sensor_state (sensor_states m !! s))))
               (with_last_seen (Some t)
                  (default new_sensor_state (sensor_states m !! s))))).
Proof.
  unfold recorded. cbn [sensor_states set_sensor with_sensors].
  rewrite !lookup_alter_eq, get_sensor_lookup. reflexivity.
Qed.

Lemma recorded_stats a t k m :
  stats (recorded a t k m) = stats (count_reading t m).
Proof.
  unfold recorded. now rewrite !(blind_set stats), (blind_get stats) by blind.
Qed.

(** ** Ingestion *)

Lemma annotate_sensor_of a b s c m :
  sensor_of (heap (annotate_reading a b s m)) c = sensor_of (heap m) c.
Proof.
  unfold sensor_of, annotate_reading. cbn [heap with_heap].
  destruct (decide (a = c)) as [->|Hne].
  - rewrite list_lookup_alter_eq. now destruct (heap m !! c).
  - now rewrite list_lookup_alter_ne.
Qed.

Lemma _process_single_reading_sensor_of a c m :
  sensor_of (heap (_process_single_reading a m)) c = sensor_of (heap m) c.
Proof.
  apply (_process_single_reading_frame (fun m => sensor_of (heap m) c))
    with (allowed := fun _ => True) (touched := fun _ => True) (marked := fun _ => True); try blind; auto.
  intros a0 b s m0 _. apply annotate_sensor_of.
Qed.

Lemma _process_single_reading_total a m :
  total_readings (stats (_process_single_reading a m))
  = total_readings (stats m) + (if decide (is_Some (sensor_of (heap m) a)) then 1 else 0).
Proof.
  unfold sensor_of.
  destruct (heap m !! a) as [r|] eqn:Hr; cbn [mbind option_bind].
  2: { unfold _process_single_reading. rewrite Hr.
       case_decide as H; [now destruct H|lia]. }
  destruct (r_sensor_id r) as [k|] eqn:Hk.
  - rewrite (_process_single_reading_present a r k m Hr Hk).
    rewrite (classified_frame (fun m => total_readings (stats m)))
      with (allowed := fun _ => True) (touched := fun _ => True)
           (marked := fun _ => True); try blind; auto.
    case_decide as H; [|destruct H; eauto]. unfold recorded.
    rewrite !(blind_set (fun m => total_readings (stats m))) by blind.
    rewrite (blind_get (fun m => total_readings (stats m))) by blind.
    simpl. lia.
  - rewrite (_process_single_reading_absent a r m Hr Hk).
    case_decide as H; [now destruct H|]. unfold log, emit. simpl. lia.
Qed.

Lemma _process_readings_total refs : forall m,
  total_readings (stats (_process_readings refs m))
  = total_readings (stats m)
    + length (filter (fun a => is_Some (sensor_of (heap m) a)) refs).
Proof.
  induction refs as [|a refs IH]; intros m; simpl; [lia|].
  unfold _process_readings in *. rewrite IH, _process_single_reading_total.
  rewrite (list_filter_iff _ (fun a0 => is_Some (sensor_of (heap m) a0)))
    by (intros c; now rewrite _process_single_reading_sensor_of).
  rewrite (filter_cons _ a). destruct (decide _); simpl; lia.
Qed.

Lemma new_refs_with_id rs : forall h,
  length (filter (fun a => is_Some (sensor_of (h ++ rs) a)) (seq (length h) (length rs)))
  = length (filter (fun r => is_Some (r_sensor_id r)) rs).
Proof.
  induction rs as [|r rs IH]; intros h; simpl; [reflexivity|].
  specialize (IH (h ++ [r])%list). rewrite <- app_assoc, length_app in IH. simpl in IH.
  replace (length h + 1) with (S (length h)) in IH by lia.
  rewrite !filter_cons.
  assert (Hr : sensor_of (h ++ r :: rs) (length h) = r_sensor_id r).
  { unfold sensor_of. now rewrite list_lookup_middle. }
  rewrite Hr. destruct (decide (is_Some (r_sensor_id r))); simpl; now rewrite IH.
Qed.

(** C3: ingesting a sequence of readings raises [total_readings] by the
    number of readings that carry a [sensor_id]; a reading without one is
    skipped with a warning and leaves the counters, the last-reading
    timestamp, the data buffer, the object store, the sensor dict and both
    queues as they were. *)
Theorem total_readings_counts_present_ids rs refs m :
  total_readings (stats (process_new_readings rs m))
  = total_readings (stats m) + length (filter (fun r => is_Some (r_sensor_id r)) rs)
  /\ total_readings (stats (_process_readings refs m))
     = total_readings (stats m)
       + length (filter (fun a => is_Some (sensor_of (heap m) a)) refs)
  /\ (forall a r,
        heap m !! a = Some r -> r_sensor_id r = None ->
        let m' := _process_single_reading a m in
        stats m' = stats m
        /\ data_buffer m' = data_buffer m
        /\ heap m' = heap m
        /\ sensor_states m' = sensor_states m
        /\ sensor_order m' = sensor_order m
        /\ anomaly_queue m' = anomaly_queue m
        /\ alert_queue m' = alert_queue m
        /\ effects m' = (effects m ++ [Logged warning MissingSensorId])%list).
Proof.
  split; [|split].
  - unfold process_new_readings, alloc. rewrite _process_readings_total. simpl.
    now rewrite new_refs_with_id.
  - apply _process_readings_total.
  - intros a r Hr Hid. unfold _process_single_reading. rewrite Hr, Hid. simpl.
    repeat split; reflexivity.
Qed.

Lemma total_readings_counts_present_ids_witness :
  let m := with_new_objects [reading_without_id] default_monitor in
  total_readings
    (stats (process_new_readings
              [sample_reading "a"; reading_without_id; sample_reading "b"] m)) = 2
  /\ stats (_process_single_reading 0 m) = stats m
  /\ data_buffer (_process_single_reading 0 m) = []
  /\ sensor_states (_process_single_reading 0 m) = sensor_states m.
Proof.
  intros m.
  destruct (total_readings_counts_present_ids
              [sample_reading "a"; reading_without_id; sample_reading "b"] [] m)
    as (Htotal & _ & Hskip).
  destruct (Hskip 0 reading_without_id) as (Hstats & Hbuf & _ & Hsens & _);
    [reflexivity|reflexivity|].
  split; [exact Htotal|]. split; [exact Hstats|]. split; [exact Hbuf|exact Hsens].
Defined.

(** ** Footprints *)

Ltac split_unseen :=
  unfold ingest_writes, timeout_writes, alert_writes in *;
  repeat match goal with
         | H : Forall _ (_ ++ _) |- _ => apply Forall_app in H as [? ?]
         | H : Forall _ (_ :: _) |- _ => apply Forall_cons in H as [? ?]
         | H : Forall _ [] |- _ => clear H
         end;
  cbn [unseen] in *.

Section Footprint.
Context {X : Type} (pi : Monitor -> X).

Lemma _process_readings_unseen refs m :
  Forall (unseen pi) ingest_writes -> pi (_process_readings refs m) = pi m.
Proof.
  intros H. split_unseen. unfold _process_readings.
  apply (foldl_invariant (fun m' => pi m' = pi m)); [|reflexivity].
  intros m' a <-.
  apply _process_single_reading_frame
    with (allowed := fun _ => True) (touched := fun _ => True) (marked := fun _ => True); auto.
  - now apply blind_get.
  - now apply blind_set.
Qed.

Lemma process_new_readings_unseen rs m :
  Forall (unseen pi) (W_alloc :: ingest_writes) ->
  pi (process_new_readings rs m) = pi m.
Proof.
  intros H. apply Forall_cons in H as [Ha H]. cbn [unseen] in Ha.
  unfold process_new_readings, alloc.
  rewrite _process_readings_unseen by assumption. apply Ha.
Qed.

Lemma _check_sensor_timeouts_unseen m :
  Forall (unseen pi) timeout_writes -> pi (_check_sensor_timeouts m) = pi m.
Proof.
  intros H. split_unseen. unfold _check_sensor_timeouts, read_clock.
  rewrite check_sensors_frame with (allowed := fun _ => True) (touched := fun _ => True); auto.
  - now apply blind_get.
  - now apply blind_set.
  - apply Forall_true. auto.
Qed.

Lemma _analyze_alerts_unseen m :
  Forall (unseen pi) alert_writes -> pi (_analyze_alerts m) = pi m.
Proof.
  intros H. split_unseen.
  apply _analyze_alerts_frame with (allowed := fun _ => True); auto.
Qed.

Lemma loop_iteration_eq rs m :
  loop_iteration rs m
  = if is_monitoring m
    then _analyze_alerts (_check_sensor_timeouts (process_new_readings rs m))
    else m.
Proof.
  unfold loop_iteration, process_new_readings, alloc.
  destruct (is_monitoring m); [|reflexivity].
  now destruct (seq _ _).
Qed.

Lemma step_unseen o m :
  Forall (unseen pi) (footprint o) -> pi (step m o) = pi m.
Proof.
  intros H. destruct o; cbn [step footprint] in *.
  - unfold add_callback. split_unseen.
    repeat (destruct (String.eqb _ _)); auto.
  - unfold start_monitoring, read_clock, log. split_unseen.
    destruct (is_monitoring m); auto.
    cbv beta iota zeta. now rewrite H3, H2, H1, H0, H.
  - unfold stop_monitoring, log. split_unseen. now rewrite H0, H.
  - rewrite loop_iteration_eq. destruct (is_monitoring m); [|reflexivity].
    apply Forall_cons in H as [Ha H]. apply Forall_app in H as [Hi H].
    apply Forall_app in H as [Ht Hl].
    rewrite _analyze_alerts_unseen, _check_sensor_timeouts_unseen by assumption.
    apply process_new_readings_unseen. now constructor.
  - now apply process_new_readings_unseen.
  - now apply _process_readings_unseen.
  - now apply _check_sensor_timeouts_unseen.
  - now apply _analyze_alerts_unseen.
  - split_unseen. auto.
  - unfold get_monitoring_stats, read_clock. split_unseen.
    destruct (buffer_size _); simpl; auto.
  - split_unseen. simpl. auto.
  - split_unseen. simpl. auto.
Qed.

Lemma run_unseen ops m :
  Forall (fun o => Forall (unseen pi) (footprint o)) ops -> pi (run ops m) = pi m.
Proof.
  intros H. revert m. induction H as [|o ops Ho _ IH]; intros m; [reflexivity|].
  unfold run in *. simpl. now rewrite IH, step_unseen.
Qed.

End Footprint.

(** What no operation writes. *)
Lemma run_buffer_size ops m : buffer_size (run ops m) = buffer_size m.
Proof.
  apply (run_unseen buffer_size). apply Forall_true. intros o.
  destruct o; repeat constructor; try blind.
Qed.

(** ** The data buffer *)

Lemma _process_single_reading_buffer_size a m :
  buffer_size (_process_single_reading a m) = buffer_size m.
Proof.
  apply (_process_single_reading_frame buffer_size)
    with (allowed := fun _ => True) (touched := fun _ => True) (marked := fun _ => True); try blind; auto.
Qed.

Lemma _process_single_reading_data_buffer a m :
  data_buffer (_process_single_reading a m)
  = if decide (is_Some (sensor_of (heap m) a))
    then deque_append (buffer_size m) a (data_buffer m)
    else data_buffer m.
Proof.
  unfold sensor_of.
  destruct (heap m !! a) as [r|] eqn:Hr; cbn [mbind option_bind].
  2: { unfold _process_single_reading. rewrite Hr.
       case_decide as H; [now destruct H|reflexivity]. }
  destruct (r_sensor_id r) as [k|] eqn:Hk.
  - rewrite (_process_single_reading_present a r k m Hr Hk).
    rewrite (classified_frame data_buffer)
      with (allowed := fun _ => True) (touched := fun _ => True)
           (marked := fun _ => True); try blind; auto.
    case_decide as H; [|destruct H; eauto]. unfold recorded.
    rewrite !(blind_set data_buffer), (blind_get data_buffer) by blind.
    reflexivity.
  - rewrite (_process_single_reading_absent a r m Hr Hk).
    case_decide as H; [now destruct H|reflexivity].
Qed.

Lemma _process_readings_data_buffer refs : forall m,
  last_n (buffer_size m) (data_buffer (_process_readings refs m))
  = last_n (buffer_size m)
      (data_buffer m ++ filter (fun a => is_Some (sensor_of (heap m) a)) refs).
Proof.
  induction refs as [|a refs IH]; intros m; simpl.
  - now rewrite app_nil_r.
  - unfold _process_readings in *. simpl.
    pose proof (IH (_process_single_reading a m)) as H.
    rewrite _process_single_reading_buffer_size in H. rewrite H.
    rewrite (list_filter_iff _ (fun a0 => is_Some (sensor_of (heap m) a0)))
      by (intros c; now rewrite _process_single_reading_sensor_of).
    rewrite _process_single_reading_data_buffer, (filter_cons _ a).
    destruct (decide _); [|reflexivity].
    rewrite deque_append_last_n, last_n_app. now rewrite <- app_assoc.
Qed.

Lemma _process_readings_bounded refs : forall m,
  length (data_buffer m) <= buffer_size m ->
  length (data_buffer (_process_readings refs m)) <= buffer_size m.
Proof.
  induction refs as [|a refs IH]; intros m Hm; simpl; [assumption|].
  unfold _process_readings in *. simpl.
  rewrite <- (_process_single_reading_buffer_size a m). apply IH.
  rewrite _process_single_reading_buffer_size, _process_single_reading_data_buffer.
  destruct (decide _); [apply deque_append_length|assumption].
Qed.

Ltac unseen_by_all := repeat constructor; blind.

Lemma step_data_buffer o m :
  last_n (buffer_size m) (data_buffer (step m o))
  = last_n (buffer_size m) (data_buffer m ++ ingested_by m o).
Proof.
  assert (Hnew : forall rs,
            last_n (buffer_size m) (data_buffer (process_new_readings rs m))
            = last_n (buffer_size m)
                (data_buffer m
                 ++ filter (fun a => is_Some (sensor_of (heap (with_new_objects rs m)) a))
                           (new_refs rs m))).
  { intros rs. unfold process_new_readings, alloc.
    apply (_process_readings_data_buffer _ (with_new_objects rs m)). }
  destruct o; cbn [ingested_by]; rewrite ?app_nil_r;
    try (f_equal; apply (step_unseen data_buffer); unseen_by_all).
  - cbn [step]. rewrite loop_iteration_eq. destruct (is_monitoring m).
    + rewrite (_analyze_alerts_unseen data_buffer) by unseen_by_all.
      rewrite (_check_sensor_timeouts_unseen data_buffer) by unseen_by_all.
      apply Hnew.
    + now rewrite app_nil_r.
  - apply Hnew.
  - apply _process_readings_data_buffer.
Qed.

Lemma step_bounded o m :
  length (data_buffer m) <= buffer_size m ->
  length (data_buffer (step m o)) <= buffer_size m.
Proof.
  intros Hm.
  assert (Hnew : forall rs,
            length (data_buffer (process_new_readings rs m)) <= buffer_size m).
  { intros rs. unfold process_new_readings, alloc.
    apply (_process_readings_bounded _ (with_new_objects rs m)), Hm. }
  destruct o;
    try (rewrite (step_unseen data_buffer) by unseen_by_all; exact Hm).
  - cbn [step]. rewrite loop_iteration_eq. destruct (is_monitoring m); [|exact Hm].
    rewrite (_analyze_alerts_unseen data_buffer) by unseen_by_all.
    rewrite (_check_sensor_timeouts_unseen data_buffer) by unseen_by_all.
    apply Hnew.
  - apply Hnew.
  - now apply _process_readings_bounded.
Qed.

Lemma run_data_buffer ops : forall m,
  length (data_buffer m) <= buffer_size m ->
  data_buffer (run ops m) = last_n (buffer_size m) (data_buffer m ++ ingested ops m).
Proof.
  induction ops as [|o ops IH]; intros m Hm; simpl.
  - rewrite app_nil_r. symmetry. now apply last_n_all.
  - unfold run in *. simpl.
    assert (Hb : buffer_size (step m o) = buffer_size m) by apply (run_buffer_size [o]).
    rewrite IH by (rewrite Hb; now apply step_bounded).
    rewrite Hb, <- (last_n_all (buffer_size m) (data_buffer (step m o)))
      by now apply step_bounded.
    rewrite last_n_app, <- last_n_app, step_data_buffer, last_n_app.
    now rewrite <- app_assoc.
Qed.

(** ** The statistics snapshot *)

Lemma get_monitoring_stats_returns m :
  0 < buffer_size m ->
  exists snap,
    fst (get_monitoring_stats m) = Ok snap
    /\ snap_buffer_utilization snap
       = (Z.of_nat (length (data_buffer m)) # Pos.of_nat (buffer_size m))
    /\ snap_anomaly_rate snap
       = (Z.of_nat (anomalies_detected (stats m))
            # Pos.of_nat (Nat.max 1 (total_readings (stats m))))
    /\ snap_uptime_seconds snap
       = match start_time (stats m) with
         | Some t0 => (wall_clock m (clock_reads m) - t0)%Z # 1000000
         | None => 0%Q
         end
    /\ snap_total_readings snap = total_readings (stats m).
Proof.
  intros Hpos. unfold get_monitoring_stats, read_clock. cbv beta iota zeta.
  cbn [buffer_size with_clock_reads stats data_buffer is_monitoring wall_clock clock_reads].
  destruct (buffer_size m) eqn:Hb; [lia|].
  eexists. split; [reflexivity|]. cbn [snap_buffer_utilization snap_anomaly_rate
    snap_uptime_seconds snap_total_readings]. repeat split.
Qed.

Lemma fraction_in_unit_interval (k n : nat) :
  k <= n -> 0 < n ->
  (0 <= Z.of_nat k # Pos.of_nat n)%Q /\ (Z.of_nat k # Pos.of_nat n <= 1)%Q.
Proof.
  intros Hk Hn. unfold Qle. cbn [Qnum Qden].
  assert (Z.pos (Pos.of_nat n) = Z.of_nat n) as -> by lia.
  lia.
Qed.

(** C4: the data buffer of a monitor built with capacity [cap] holds the
    most recent [min n cap] of the [n] readings ingested so far, in insertion
    order, for every capacity.  What [get_monitoring_stats] reports as
    [buffer_utilization] depends on the capacity: for a positive one it is
    [min n cap / cap], a number between 0 and 1; for capacity 0, which the
    constructor accepts, the call raises [ZeroDivisionError] in every
    reachable state and no utilization is reported at all. *)
Theorem ring_buffer_utilization_raises_at_capacity_zero clk interval cap ops :
  let m0 := init clk interval cap in
  let m := run ops m0 in
  let n := length (ingested ops m0) in
  data_buffer m = last_n cap (ingested ops m0)
  /\ length (data_buffer m) = Nat.min n cap
  /\ match cap with
     | 0 => fst (get_monitoring_stats m) = Raise ZeroDivisionError
     | S _ =>
         exists snap,
           fst (get_monitoring_stats m) = Ok snap
           /\ snap_buffer_utilization snap
              = (Z.of_nat (Nat.min n cap) # Pos.of_nat cap)
           /\ (0 <= snap_buffer_utilization snap)%Q
           /\ (snap_buffer_utilization snap <= 1)%Q
     end.
Proof.
  intros m0 m n.
  assert (Hbuf : data_buffer m = last_n cap (ingested ops m0)).
  { unfold m. rewrite run_data_buffer by (simpl; lia). reflexivity. }
  assert (Hlen : length (data_buffer m) = Nat.min n cap).
  { rewrite Hbuf. apply last_n_length. }
  split; [exact Hbuf|]. split; [exact Hlen|].
  assert (Hsize : buffer_size m = cap) by apply run_buffer_size.
  destruct cap as [|cap'].
  - unfold get_monitoring_stats, read_clock. cbv beta iota zeta.
    cbn [buffer_size with_clock_reads]. now rewrite Hsize.
  - destruct (get_monitoring_stats_returns m) as (snap & Hok & Hutil & _); [lia|].
    exists snap. rewrite Hutil, Hlen, Hsize.
    split; [exact Hok|]. split; [reflexivity|].
    apply fraction_in_unit_interval; lia.
Qed.

(** The same five readings in a buffer of capacity 3 and in one of
    capacity 0. *)
Example ring_buffer_of_capacity_three :
  let ops := [OpProcessReadings [sample_reading "a"; sample_reading "b";
                                 reading_without_id; sample_reading "a";
                                 sample_reading "c"]] in
  data_buffer (run ops (init sample_clock 1 3)) = [1; 3; 4]
  /\ exists snap,
       fst (get_monitoring_stats (run ops (init sample_clock 1 3))) = Ok snap
       /\ snap_buffer_utilization snap = (3 # 3)%Q.
Proof.
  intros ops. split; [vm_compute; reflexivity|].
  eexists. split; vm_compute; reflexivity.
Qed.

Example ring_buffer_of_capacity_zero :
  let ops := [OpProcessReadings [sample_reading "a"; sample_reading "b";
                                 reading_without_id; sample_reading "a";
                                 sample_reading "c"]] in
  data_buffer (run ops (init sample_clock 1 0)) = []
  /\ total_readings (stats (run ops (init sample_clock 1 0))) = 4
  /\ fst (get_monitoring_stats (run ops (init sample_clock 1 0)))
     = Raise ZeroDivisionError.
Proof. intros ops. vm_compute. repeat split. Qed.

(** ** The sensor dict stays well formed *)

Lemma wf_get k m : wf (_get_sensor_state k m) <-> wf m.
Proof.
  unfold _get_sensor_state, wf.
  destruct (sensor_states m !! k) eqn:Hk; [reflexivity|].
  cbn [sensor_order sensor_states with_sensors].
  rewrite dom_insert_L, list_to_set_app_L, NoDup_app.
  apply not_elem_of_dom in Hk. split.
  - intros ((Hnd & Hk' & _) & Hdom). split; [exact Hnd|].
    assert (Hk'' : k ∉ sensor_order m).
    { intros Hin. apply (Hk' _ Hin). now apply list_elem_of_singleton. }
    apply set_eq. intros x. rewrite elem_of_list_to_set.
    assert (Hx : x ∈ ({[k]} ∪ dom (sensor_states m) : gset string)
                 <-> x ∈ (list_to_set (sensor_order m) ∪ list_to_set [k] : gset string))
      by now rewrite Hdom.
    rewrite !elem_of_union, !elem_of_list_to_set, list_elem_of_singleton,
      elem_of_singleton in Hx.
    split; intros H.
    + destruct (proj1 Hx (or_intror H)) as [?| ->]; [assumption|contradiction].
    + destruct (proj2 Hx (or_introl H)) as [->|?]; [contradiction|assumption].
  - intros (Hnd & Hdom). rewrite Hdom. split.
    + split; [exact Hnd|]. split; [|apply NoDup_singleton].
      intros x Hx Hx'. apply list_elem_of_singleton in Hx' as ->.
      apply Hk. rewrite Hdom. now apply elem_of_list_to_set.
    + apply set_eq. intros x.
      rewrite !elem_of_union, !elem_of_list_to_set, list_elem_of_singleton,
        elem_of_singleton. tauto.
Qed.

Lemma wf_set k f m : wf (set_sensor k f m) <-> wf m.
Proof. unfold wf. cbn [sensor_order sensor_states with_sensors set_sensor]. now rewrite dom_alter_L. Qed.

Lemma wfb_get k m : wfb (_get_sensor_state k m) = wfb m.
Proof. unfold wfb. apply bool_decide_ext, wf_get. Qed.

Lemma wfb_set k f m : wfb (set_sensor k f m) = wfb m.
Proof. unfold wfb. apply bool_decide_ext, wf_set. Qed.

Lemma wf_init clk interval size : wf (init clk interval size).
Proof. split; [constructor|]. simpl. now rewrite dom_empty_L. Qed.

Lemma step_wf o m : wf m -> wf (step m o).
Proof.
  intros Hm. apply (bool_decide_eq_true _).
  change (wfb (step m o) = true).
  assert (Hb : wfb m = true) by now apply bool_decide_eq_true.
  assert (Hingest : forall refs m', wfb (_process_readings refs m') = wfb m').
  { intros refs m'. unfold _process_readings.
    apply (foldl_invariant (fun m'' => wfb m'' = wfb m')); [|reflexivity].
    intros m'' a <-.
    apply (_process_single_reading_frame wfb)
      with (allowed := fun _ => True) (touched := fun _ => True) (marked := fun _ => True); try blind; auto.
    - intros k m0 _. apply wfb_get.
    - intros k f m0 _. apply wfb_set. }
  assert (Htimeouts : forall m', wfb (_check_sensor_timeouts m') = wfb m').
  { intros m'. unfold _check_sensor_timeouts, read_clock.
    rewrite (check_sensors_frame wfb) with (allowed := fun _ => True) (touched := fun _ => True); try blind; auto.
    - intros k m0 _. apply wfb_get.
    - intros k f m0 _. apply wfb_set.
    - now apply Forall_true. }
  assert (Halerts : forall m', wfb (_analyze_alerts m') = wfb m')
    by (intros m'; apply (_analyze_alerts_frame wfb) with (allowed := fun _ => True); blind).
  rewrite <- Hb.
  destruct o; try (apply (step_unseen wfb); repeat constructor; blind); cbn [step].
  - rewrite loop_iteration_eq. destruct (is_monitoring m); [|reflexivity].
    rewrite Halerts, Htimeouts. unfold process_new_readings, alloc.
    now rewrite Hingest.
  - unfold process_new_readings, alloc. now rewrite Hingest.
  - apply Hingest.
  - apply Htimeouts.
Qed.

Lemma run_wf ops : forall m, wf m -> wf (run ops m).
Proof.
  induction ops as [|o ops IH]; intros m Hm; [exact Hm|].
  apply IH, step_wf, Hm.
Qed.

(** ** Alert analysis *)

Lemma _raise_alert_queue ty d m :
  alert_queue (_raise_alert ty d m)
  = alert_queue m
    ++ [make_alert (wall_clock m (clock_reads m)) (wall_clock m (S (clock_reads m))) ty d].
Proof.
  unfold _raise_alert, read_clock. cbv beta iota zeta.
  rewrite (log_frame alert_queue (fun _ => True)),
    (run_callbacks_frame alert_queue (fun _ => True)) by blind.
  reflexivity.
Qed.

Lemma analyze_one_sensor_fires ct m k s :
  fires (analyze_one_sensor ct m k) s = fires m s.
Proof.
  apply (analyze_one_sensor_frame (fun m => fires m s))
    with (allowed := fun _ => True); blind.
Qed.

Lemma analyze_one_sensor_queue ct m k :
  exists new,
    alert_queue (analyze_one_sensor ct m k) = alert_queue m ++ new
    /\ forall s,
         filter (alert_about s) new
         = match fires m s with
           | Some c =>
               if decide (s = k)
               then [make_alert (wall_clock m (clock_reads m))
                                (wall_clock m (S (clock_reads m)))
                                "consecutive_anomalies"
                                (consecutive_data s c (ct))]
               else []
           | None => []
           end.
Proof.
  unfold analyze_one_sensor.
  destruct (sensor_states m !! k) as [st|] eqn:Hk.
  - destruct (_ <=? _)%Z eqn:Hthr.
    + eexists. split; [apply _raise_alert_queue|].
      intros s. rewrite filter_cons, filter_nil.
      destruct (decide (s = k)) as [->|Hne].
      * unfold fires. rewrite Hk, Hthr.
        rewrite decide_True by (split; reflexivity). reflexivity.
      * rewrite decide_False by (intros [_ H]; simpl in H; congruence).
        now destruct (fires m s).
    + exists []. split; [now rewrite app_nil_r|].
      intros s. rewrite filter_nil.
      destruct (decide (s = k)) as [->|Hne].
      * unfold fires. now rewrite Hk, Hthr.
      * now destruct (fires m s).
  - exists []. split; [now rewrite app_nil_r|].
    intros s. rewrite filter_nil.
    destruct (decide (s = k)) as [->|Hne].
    + unfold fires. now rewrite Hk.
    + now destruct (fires m s).
Qed.

Lemma analyze_sensors_queue ct l : forall m,
  NoDup l ->
  exists new,
    alert_queue (foldl (analyze_one_sensor ct) m l) = alert_queue m ++ new
    /\ forall s,
         match fires m s with
         | Some c =>
             if decide (s ∈ l)
             then exists t1 t2,
                 filter (alert_about s) new
                 = [make_alert t1 t2 "consecutive_anomalies" (consecutive_data s c ct)]
             else filter (alert_about s) new = []
         | None => filter (alert_about s) new = []
         end.
Proof.
  induction l as [|k l IH]; intros m Hnd; cbn [foldl].
  - exists []. split; [now rewrite app_nil_r|].
    intros s. destruct (fires m s); [|reflexivity].
    rewrite decide_False by apply not_elem_of_nil. reflexivity.
  - apply NoDup_cons in Hnd as [Hk Hnd].
    destruct (analyze_one_sensor_queue ct m k) as (new1 & Hq1 & Hf1).
    destruct (IH (analyze_one_sensor ct m k) Hnd) as (new2 & Hq2 & Hf2).
    exists (new1 ++ new2). split; [now rewrite Hq2, Hq1, app_assoc|].
    intros s. specialize (Hf1 s). specialize (Hf2 s).
    rewrite analyze_one_sensor_fires in Hf2. rewrite filter_app, Hf1.
    destruct (fires m s) as [c|]; [|now rewrite Hf2].
    destruct (decide (s = k)) as [->|Hne].
    + rewrite decide_True by apply list_elem_of_here.
      rewrite decide_False in Hf2 by assumption. rewrite Hf2. eauto.
    + destruct (decide (s ∈ l)) as [Hin|Hnin].
      * rewrite decide_True by now apply list_elem_of_further. exact Hf2.
      * rewrite decide_False by (intros H; apply elem_of_cons in H as [?|?]; contradiction).
        now rewrite Hf2.
Qed.

Lemma analyze_rate_queue ct m :
  exists new,
    alert_queue (analyze_rate ct m) = alert_queue m ++ new
    /\ forall s, filter (alert_about s) new = [].
Proof.
  unfold analyze_rate.
  destruct (_ <=? _)%nat; [|exists []; split; [now rewrite app_nil_r|reflexivity]].
  destruct (Qle_bool _ _); [exists []; split; [now rewrite app_nil_r|reflexivity]|].
  eexists. split; [apply _raise_alert_queue|].
  intros s. rewrite filter_cons, filter_nil.
  rewrite decide_False by (intros [H _]; simpl in H; discriminate). reflexivity.
Qed.

Lemma _analyze_alerts_queue m s :
  wf m ->
  exists new,
    alert_queue (_analyze_alerts m) = alert_queue m ++ new
    /\ match fires m s with
       | Some c =>
           exists t1 t2,
             filter (alert_about s) new
             = [make_alert t1 t2 "consecutive_anomalies"
                  (consecutive_data s c (wall_clock m (clock_reads m)))]
       | None => filter (alert_about s) new = []
       end.
Proof.
  intros [Hnd Hdom]. unfold _analyze_alerts, read_clock. cbv beta iota zeta.
  set (ct := wall_clock m (clock_reads m)).
  set (m1 := with_clock_reads (S (clock_reads m)) m).
  destruct (analyze_sensors_queue ct (sensor_order m1) m1 Hnd) as (new1 & Hq1 & Hf1).
  destruct (analyze_rate_queue ct (foldl (analyze_one_sensor ct) m1 (sensor_order m1)))
    as (new2 & Hq2 & Hf2).
  exists (new1 ++ new2). split; [now rewrite Hq2, Hq1, app_assoc|].
  specialize (Hf1 s). rewrite filter_app, Hf2, app_nil_r.
  change (fires m1 s) with (fires m s) in Hf1.
  destruct (fires m s) as [c|] eqn:Hfires; [|exact Hf1].
  rewrite decide_True in Hf1; [exact Hf1|].
  change (sensor_order m1) with (sensor_order m).
  apply (elem_of_list_to_set (C := gset string)). rewrite <- Hdom.
  apply elem_of_dom. unfold fires in Hfires.
  destruct (sensor_states m !! s); [eauto|discriminate].
Qed.

(** A sensor fires exactly when its entry has reached the threshold. *)
Lemma fires_iff m s c :
  fires m s = Some c
  <-> exists st, sensor_states m !! s = Some st
              /\ consecutive_anomalies st = c
              /\ (rule_consecutive_anomalies (alert_rules m) <= Z.of_nat c)%Z.
Proof.
  unfold fires. destruct (sensor_states m !! s) as [st|].
  - destruct (Z.leb_spec (rule_consecutive_anomalies (alert_rules m))
                (Z.of_nat (consecutive_anomalies st))) as [Hle|Hlt].
    + split.
      * intros [= <-]. eauto.
      * intros (st' & [= <-] & <- & _). reflexivity.
    + split; [discriminate|].
      intros (st' & [= <-] & <- & Hle). lia.
  - split; [discriminate|]. now intros (st' & [=] & _).
Qed.

(** C5: in one pass of [_analyze_alerts] over a reachable monitor, a sensor
    whose [consecutive_anomalies] has reached the configured threshold gets
    exactly one [consecutive_anomalies] alert, of severity [high], whose
    description names the sensor and the count; any other sensor gets none. *)
Theorem one_consecutive_alert_per_sensor clk interval size ops s :
  let m := run ops (init clk interval size) in
  exists new,
    alert_queue (_analyze_alerts m) = alert_queue m ++ new
    /\ match fires m s with
       | Some c =>
           exists a,
             filter (alert_about s) new = [a]
             /\ severity a = high
             /\ description a
                = "Sensor " +:+ s +:+ " has " +:+ pretty c +:+ " consecutive anomalies"
             /\ ad_count (alert_data a) = Some c
       | None => filter (alert_about s) new = []
       end.
Proof.
  intros m.
  destruct (_analyze_alerts_queue m s) as (new & Hq & Hf);
    [apply run_wf, wf_init|].
  exists new. split; [exact Hq|].
  destruct (fires m s) as [c|]; [|exact Hf].
  destruct Hf as (t1 & t2 & Hf). eexists. split; [exact Hf|].
  repeat split.
Qed.

Example two_sensors_over_threshold :
  let m := run [OpStart always_anomalous;
                OpProcessReadings [sample_reading "a"; sample_reading "b";
                                   sample_reading "a"; sample_reading "b";
                                   sample_reading "a"]]
               (init sample_clock 1 1000) in
  fires m "a" = Some 3
  /\ fires m "b" = None
  /\ map description (alert_queue (_analyze_alerts m))
     = ["Sensor a has 3 consecutive anomalies"].
Proof. vm_compute. repeat split. Qed.

(** ** Sensor timeouts *)

Lemma timeout_reports_emit s e m :
  timeout_reports s (emit e m)
  = timeout_reports s m ++ (if decide (timeout_effect e = Some s) then [e] else []).
Proof.
  unfold timeout_reports. cbn [emit effects with_effects].
  rewrite filter_app, filter_cons, filter_nil. reflexivity.
Qed.

Lemma run_callbacks_cons kind cb cbs ev m :
  run_callbacks kind (cb :: cbs) ev m
  = run_callbacks kind cbs ev
      (if cb_ok cb ev then emit (Called kind (cb_id cb) ev) m
       else log error (CallbackError kind) (emit (Called kind (cb_id cb) ev) m)).
Proof. reflexivity. Qed.

Lemma timeout_reports_callbacks s cbs te : forall m,
  te_sensor_id te = s ->
  timeout_reports s (run_callbacks "on_sensor_failure" cbs (TimeoutEv te) m)
  = timeout_reports s m
    ++ map (fun cb => Called "on_sensor_failure" (cb_id cb) (TimeoutEv te)) cbs.
Proof.
  intros m Hs. revert m. induction cbs as [|cb cbs IH]; intros m.
  - cbn. now rewrite app_nil_r.
  - rewrite run_callbacks_cons, IH. cbn [map].
    destruct (cb_ok cb (TimeoutEv te)); unfold log;
      rewrite ?timeout_reports_emit; cbn [timeout_effect];
      rewrite decide_True by congruence; rewrite ?decide_False by discriminate;
      rewrite ?app_nil_r, <- app_assoc; reflexivity.
Qed.

Lemma _handle_sensor_timeout_reports s d m :
  timeout_reports s (_handle_sensor_timeout s d m)
  = timeout_reports s m ++ timeout_calls m s d (wall_clock m (clock_reads m)).
Proof.
  unfold _handle_sensor_timeout, sensor_states_getitem, read_clock, log, timeout_calls.
  cbv beta iota zeta.
  rewrite timeout_reports_emit, timeout_reports_callbacks by reflexivity.
  cbn [timeout_effect]. rewrite decide_True by reflexivity.
  rewrite <- app_assoc. f_equal.
  - unfold _get_sensor_state. now destruct (sensor_states m !! s).
  - f_equal. unfold _get_sensor_state. now destruct (sensor_states m !! s).
Qed.

Lemma _handle_sensor_timeout_state s d m st :
  sensor_states m !! s = Some st ->
  sensor_states (_handle_sensor_timeout s d m) !! s = Some (with_status timeout st).
Proof.
  intros Hs. unfold _handle_sensor_timeout, sensor_states_getitem, read_clock.
  cbv beta iota zeta.
  rewrite (log_frame (fun m => sensor_states m !! s) (fun _ => True)),
    (run_callbacks_frame (fun m => sensor_states m !! s) (fun _ => True)) by blind.
  cbn [sensor_states with_clock_reads set_sensor with_sensors].
  rewrite lookup_alter_eq, get_sensor_lookup, Hs. reflexivity.
Qed.

Lemma timeout_view_emit s e m :
  timeout_effect e <> Some s -> timeout_view s (emit e m) = timeout_view s m.
Proof.
  intros He. unfold timeout_view. rewrite timeout_reports_emit.
  rewrite decide_False by assumption. now rewrite app_nil_r.
Qed.

Lemma timeout_view_get s k m :
  k <> s -> timeout_view s (_get_sensor_state k m) = timeout_view s m.
Proof.
  intros Hk. unfold timeout_view. rewrite get_sensor_lookup_ne by assumption.
  unfold _get_sensor_state. now destruct (sensor_states m !! k).
Qed.

Lemma timeout_view_set s k f m :
  k <> s -> timeout_view s (set_sensor k f m) = timeout_view s m.
Proof.
  intros Hk. unfold timeout_view. now rewrite set_sensor_lookup_ne.
Qed.

Lemma timeout_view_allowed s e k :
  timeout_effect e = Some k -> k <> s -> timeout_effect e <> Some s.
Proof. congruence. Qed.

Lemma timeout_view_other s e :
  timeout_effect e = None -> timeout_effect e <> Some s.
Proof. congruence. Qed.

Lemma check_others_view s now thr l m :
  Forall (fun k => k <> s) l ->
  timeout_view s (foldl (check_one_sensor now thr) m l) = timeout_view s m.
Proof.
  apply (check_sensors_frame (timeout_view s))
    with (allowed := fun e => timeout_effect e <> Some s);
    try blind.
  - intros e m0. apply timeout_view_emit.
  - intros e. apply timeout_view_other.
  - intros k m0. apply timeout_view_get.
  - intros k f m0. apply timeout_view_set.
  - intros e k. apply timeout_view_allowed.
Qed.

Lemma check_one_sensor_idle now thr m s :
  thr = timedelta_seconds (rule_sensor_timeout (alert_rules m)) ->
  overdue now m s = None ->
  check_one_sensor now thr m s = m.
Proof.
  intros ->. unfold overdue, check_one_sensor.
  destruct (sensor_states m !! s) as [st|]; [|reflexivity].
  destruct (last_seen st); [|reflexivity].
  destruct (decide _); [|reflexivity].
  now destruct (_ <? _)%Z.
Qed.

Lemma check_one_sensor_due now thr m s d :
  thr = timedelta_seconds (rule_sensor_timeout (alert_rules m)) ->
  overdue now m s = Some d ->
  check_one_sensor now thr m s = _handle_sensor_timeout s d m.
Proof.
  intros ->. unfold overdue, check_one_sensor.
  destruct (sensor_states m !! s) as [st|]; [|discriminate].
  destruct (last_seen st); [|discriminate].
  destruct (decide _); [|discriminate].
  destruct (_ <? _)%Z; [|discriminate]. now intros [= <-].
Qed.

Lemma timeout_view_inv s m' m :
  timeout_view s m' = timeout_view s m ->
  timeout_reports s m' = timeout_reports s m
  /\ sensor_states m' !! s = sensor_states m !! s
  /\ alert_rules m' = alert_rules m
  /\ callbacks m' = callbacks m.
Proof. unfold timeout_view. intros [= -> -> -> ->]. repeat split. Qed.

Lemma overdue_view now m m' s :
  timeout_view s m' = timeout_view s m -> overdue now m' s = overdue now m s.
Proof. unfold timeout_view, overdue. now intros [= _ -> -> _]. Qed.

Lemma overdue_iff now m s d :
  overdue now m s = Some d
  <-> exists st seen,
        sensor_states m !! s = Some st
        /\ status st = active
        /\ last_seen st = Some seen
        /\ d = (now - seen)%Z
        /\ (rule_sensor_timeout (alert_rules m) * 1000000 < now - seen)%Z.
Proof.
  unfold overdue, timedelta_seconds, microseconds_per_second.
  destruct (sensor_states m !! s) as [st|].
  2: { split; [discriminate|]. now intros (? & ? & [=] & _). }
  destruct (last_seen st) as [seen|] eqn:Hseen.
  2: { split; [discriminate|]. intros (? & ? & [= <-] & _ & H & _). congruence. }
  destruct (decide (status st = active)) as [Hact|Hact].
  2: { split; [discriminate|]. intros (? & ? & [= <-] & H & _). contradiction. }
  destruct (Z.ltb_spec (rule_sensor_timeout (alert_rules m) * 1000000) (now - seen)).
  - split.
    + intros [= <-]. eauto 10.
    + intros (? & ? & [= <-] & _ & H' & -> & _). congruence.
  - split; [discriminate|].
    intros (? & ? & [= <-] & _ & H' & _ & Hlt). rewrite Hseen in H'. injection H' as <-. lia.
Qed.

Lemma _check_sensor_timeouts_view m s :
  wf m ->
  let now := wall_clock m (clock_reads m) in
  let m' := _check_sensor_timeouts m in
  match overdue now m s with
  | Some d =>
      sensor_states m' !! s = with_status timeout <$> sensor_states m !! s
      /\ exists t, timeout_reports s m' = timeout_reports s m ++ timeout_calls m s d t
  | None =>
      sensor_states m' !! s = sensor_states m !! s
      /\ timeout_reports s m' = timeout_reports s m
  end.
Proof.
  intros [Hnd Hdom] now m'. unfold m', _check_sensor_timeouts, read_clock.
  cbv beta iota zeta.
  set (m1 := with_clock_reads (S (clock_reads m)) m).
  change (alert_rules m1) with (alert_rules m).
  change (sensor_order m1) with (sensor_order m).
  change (wall_clock m (clock_reads m)) with now.
  set (thr := timedelta_seconds (rule_sensor_timeout (alert_rules m))).
  assert (Hview1 : timeout_view s m1 = timeout_view s m) by reflexivity.
  destruct (decide (s ∈ sensor_order m)) as [Hin|Hnin].
  - apply list_elem_of_split in Hin as (l1 & l2 & Hl). rewrite Hl in Hnd |- *.
    apply NoDup_app in Hnd as (_ & Hl1 & Hnd2). apply NoDup_cons in Hnd2 as (Hl2 & _).
    assert (H1 : Forall (fun k => k <> s) l1).
    { apply Forall_forall. intros k Hk ->. apply (Hl1 _ Hk), list_elem_of_here. }
    assert (H2 : Forall (fun k => k <> s) l2).
    { apply Forall_forall. intros k Hk ->. contradiction. }
    rewrite foldl_app. cbn [foldl].
    set (m2 := foldl (check_one_sensor now thr) m1 l1).
    assert (Hview2 : timeout_view s m2 = timeout_view s m)
      by (unfold m2; now rewrite check_others_view).
    pose proof (check_others_view s now thr l2 (check_one_sensor now thr m2 s) H2) as Hview3.
    rewrite <- (overdue_view now m m2 s Hview2).
    apply timeout_view_inv in Hview2 as (Hrep2 & Hst2 & Hrules2 & Hcb2).
    assert (Hthr : thr = timedelta_seconds (rule_sensor_timeout (alert_rules m2)))
      by now rewrite Hrules2.
    destruct (overdue now m2 s) as [d|] eqn:Hdue.
    + rewrite (check_one_sensor_due now thr m2 s d Hthr Hdue) in Hview3 |- *.
      apply timeout_view_inv in Hview3 as (Hrep & Hst & _ & _).
      rewrite Hst, Hrep, _handle_sensor_timeout_reports, Hrep2. split.
      * apply overdue_iff in Hdue as (st & _ & Hst' & _).
        rewrite (_handle_sensor_timeout_state s d m2 st Hst').
        now rewrite <- Hst2, Hst'.
      * eexists. unfold timeout_calls. rewrite Hcb2. reflexivity.
    + rewrite (check_one_sensor_idle now thr m2 s Hthr Hdue) in Hview3 |- *.
      apply timeout_view_inv in Hview3 as (Hrep & Hst & _ & _).
      now rewrite Hst, Hrep, Hst2, Hrep2.
  - assert (H : Forall (fun k => k <> s) (sensor_order m)).
    { apply Forall_forall. intros k Hk ->. contradiction. }
    pose proof (check_others_view s now thr (sensor_order m) m1 H) as Hview.
    rewrite Hview1 in Hview. apply timeout_view_inv in Hview as (Hrep & Hst & _ & _).
    assert (Hnone : sensor_states m !! s = None).
    { apply not_elem_of_dom. rewrite Hdom. now rewrite elem_of_list_to_set. }
    unfold overdue. rewrite Hnone. split; [now rewrite Hst, Hnone|exact Hrep].
Qed.

Lemma sensor_view_emit s e m :
  timeout_effect e <> Some s -> sensor_view s (emit e m) = sensor_view s m.
Proof.
  intros He. unfold sensor_view. rewrite timeout_reports_emit.
  rewrite decide_False by assumption. now rewrite app_nil_r.
Qed.

Lemma sensor_view_get s k m :
  k <> s -> sensor_view s (_get_sensor_state k m) = sensor_view s m.
Proof.
  intros Hk. unfold sensor_view. rewrite get_sensor_lookup_ne by assumption.
  unfold _get_sensor_state. now destruct (sensor_states m !! k).
Qed.

Lemma sensor_view_set s k f m :
  k <> s -> sensor_view s (set_sensor k f m) = sensor_view s m.
Proof. intros Hk. unfold sensor_view. now rewrite set_sensor_lookup_ne. Qed.

Lemma sensor_view_status s m m' :
  sensor_view s m' = sensor_view s m -> status_of m' s = status_of m s.
Proof. unfold sensor_view, status_of. now intros [= _ ->]. Qed.

Lemma check_one_sensor_inactive now thr m s :
  status_of m s <> Some active -> check_one_sensor now thr m s = m.
Proof.
  unfold status_of, check_one_sensor.
  destruct (sensor_states m !! s) as [st|]; [|reflexivity].
  destruct (last_seen st); [|reflexivity].
  destruct (decide _) as [Hact|]; [|reflexivity].
  simpl. intros H. congruence.
Qed.

Ltac view_side s :=
  first [ blind
        | intros ? ?; apply sensor_view_emit
        | intros ?; apply timeout_view_other
        | intros ? ?; apply sensor_view_get
        | intros ? ? ?; apply sensor_view_set
        | intros ? ?; apply timeout_view_allowed ].

Lemma _process_readings_view s refs : forall m,
  Forall (fun a => sensor_of (heap m) a <> Some s) refs ->
  sensor_view s (_process_readings refs m) = sensor_view s m.
Proof.
  induction refs as [|a refs IH]; intros m Hq; [reflexivity|].
  apply Forall_cons in Hq as [Ha Hq].
  unfold _process_readings in *. cbn [foldl]. rewrite IH.
  - apply (_process_single_reading_frame (sensor_view s))
      with (allowed := fun e => timeout_effect e <> Some s)
           (touched := fun k => k <> s) (marked := fun _ => True);
      try view_side s; auto.
    intros r k Hr Hk ->. apply Ha. unfold sensor_of. now rewrite Hr.
  - eapply Forall_impl; [exact Hq|]. intros c Hc.
    now rewrite _process_single_reading_sensor_of.
Qed.

Lemma new_refs_quiet s h rs :
  Forall (fun r => r_sensor_id r <> Some s) rs ->
  Forall (fun a => sensor_of (h ++ rs) a <> Some s) (seq (length h) (length rs)).
Proof.
  intros Hq. apply Forall_forall. intros a Ha. apply elem_of_seq in Ha.
  unfold sensor_of. rewrite lookup_app_r by lia.
  destruct (rs !! (a - length h)) as [r|] eqn:Hr; [|discriminate].
  exact (Forall_lookup_1 _ _ _ _ Hq Hr).
Qed.

Lemma process_new_readings_view s rs m :
  Forall (fun r => r_sensor_id r <> Some s) rs ->
  sensor_view s (process_new_readings rs m) = sensor_view s m.
Proof.
  intros Hq. unfold process_new_readings, alloc.
  rewrite _process_readings_view; [reflexivity|].
  now apply new_refs_quiet.
Qed.

Lemma _check_sensor_timeouts_quiet s m :
  status_of m s <> Some active ->
  sensor_view s (_check_sensor_timeouts m) = sensor_view s m.
Proof.
  intros Hst. unfold _check_sensor_timeouts, read_clock. cbv beta iota zeta.
  set (m1 := with_clock_reads _ m).
  change (sensor_view s m) with (sensor_view s m1).
  apply (foldl_invariant (fun m' => sensor_view s m' = sensor_view s m1)); [|reflexivity].
  intros m' k Hm'. destruct (decide (k = s)) as [->|Hk].
  - rewrite check_one_sensor_inactive; [exact Hm'|].
    now rewrite (sensor_view_status s m1 m' Hm').
  - rewrite <- Hm'.
    apply (check_one_sensor_frame (sensor_view s))
      with (allowed := fun e => timeout_effect e <> Some s)
           (touched := fun k => k <> s); try view_side s; auto.
Qed.

Lemma _analyze_alerts_view s m :
  sensor_view s (_analyze_alerts m) = sensor_view s m.
Proof.
  apply (_analyze_alerts_frame (sensor_view s))
    with (allowed := fun e => timeout_effect e <> Some s); view_side s.
Qed.

Lemma step_quiet s o m :
  quiet_for s m o -> status_of m s <> Some active ->
  sensor_view s (step m o) = sensor_view s m.
Proof.
  intros Hq Hst. destruct o; cbn [step quiet_for] in *.
  - unfold add_callback. repeat (destruct (String.eqb _ _)); reflexivity.
  - unfold start_monitoring, read_clock, log. destruct (is_monitoring m);
      now rewrite sensor_view_emit.
  - unfold stop_monitoring, log. now rewrite sensor_view_emit.
  - rewrite loop_iteration_eq. destruct (is_monitoring m); [|reflexivity].
    pose proof (process_new_readings_view s rs m Hq) as H1.
    rewrite _analyze_alerts_view, _check_sensor_timeouts_quiet; [exact H1|].
    now rewrite (sensor_view_status s _ _ H1).
  - now apply process_new_readings_view.
  - now apply _process_readings_view.
  - now apply _check_sensor_timeouts_quiet.
  - apply _analyze_alerts_view.
  - reflexivity.
  - unfold get_monitoring_stats, read_clock. cbv beta iota zeta.
    now destruct (buffer_size _).
  - reflexivity.
  - reflexivity.
Qed.

Lemma run_quiet s ops : forall m,
  quiet_run s ops m -> status_of m s <> Some active ->
  sensor_view s (run ops m) = sensor_view s m.
Proof.
  induction ops as [|o ops IH]; intros m Hq Hst; [reflexivity|].
  destruct Hq as [Ho Hq]. unfold run in *. cbn [foldl].
  pose proof (step_quiet s o m Ho Hst) as H.
  rewrite IH; [exact H|exact Hq|].
  now rewrite (sensor_view_status s _ _ H).
Qed.

(** C7: the timeout check acts on a sensor only when its entry is [active]
    with a [last_seen] more than the threshold ago; it then moves the entry
    from [active] to [timeout], calls every sensor-failure callback once with
    the timeout event and logs it once.  While the entry is not [active] and
    no reading of the sensor comes in, no operation reports a timeout of it
    again. *)
Theorem timeout_fires_once_per_occurrence m s :
  wf m ->
  let now := wall_clock m (clock_reads m) in
  let m' := _check_sensor_timeouts m in
  match overdue now m s with
  | Some d =>
      status_of m s = Some active
      /\ status_of m' s = Some timeout
      /\ exists t, timeout_reports s m' = timeout_reports s m ++ timeout_calls m s d t
  | None =>
      sensor_states m' !! s = sensor_states m !! s
      /\ timeout_reports s m' = timeout_reports s m
  end
  /\ forall ops,
       status_of m s <> Some active -> quiet_run s ops m ->
       timeout_reports s (run ops m) = timeout_reports s m
       /\ status_of (run ops m) s = status_of m s.
Proof.
  intros Hwf now m'. split.
  - pose proof (_check_sensor_timeouts_view m s Hwf) as H. cbv zeta in H.
    fold now m' in H.
    destruct (overdue now m s) as [d|] eqn:Hdue; [|exact H].
    destruct H as [Hst Hrep].
    apply overdue_iff in Hdue as (st & seen & Hlook & Hact & _).
    unfold status_of. rewrite Hst, Hlook. simpl. rewrite Hact. auto.
  - intros ops Hst Hq. pose proof (run_quiet s ops m Hq Hst) as H.
    split; [now injection H|exact (sensor_view_status s _ _ H)].
Qed.

Lemma timeout_fires_once_per_occurrence_witness :
  let m := run [OpAddCallback "on_sensor_failure" failing_callback;
                OpProcessReadings [sample_reading "a"; sample_reading "b"]]
               (init sample_clock 1 1000) in
  let m' := _check_sensor_timeouts m in
  status_of m "a" = Some active
  /\ status_of m' "a" = Some timeout
  /\ length (timeout_reports "a" m') = 2
  /\ timeout_reports "a" (run [OpCheckTimeouts; OpAnalyzeAlerts;
                               OpProcessReadings [sample_reading "b"];
                               OpCheckTimeouts] m')
     = timeout_reports "a" m'.
Proof.
  intros m m'.
  assert (Hwf : wf m) by (apply (bool_decide_eq_true_1 (wf m)); vm_compute; reflexivity).
  assert (Hwf' : wf m') by (apply (bool_decide_eq_true_1 (wf m')); vm_compute; reflexivity).
  destruct (timeout_fires_once_per_occurrence m "a" Hwf) as [(Hact & Hto & t & Hrep) _].
  destruct (timeout_fires_once_per_occurrence m' "a" Hwf') as [_ Hquiet].
  split; [exact Hact|]. split; [exact Hto|]. split.
  - fold m' in Hrep. rewrite Hrep. reflexivity.
  - apply Hquiet.
    + vm_compute. discriminate.
    + repeat split; repeat constructor; vm_compute; discriminate.
Defined.

(** ** Timeouts and the alert engine *)

Lemma _check_sensor_timeouts_alerts m :
  alert_queue (_check_sensor_timeouts m) = alert_queue m
  /\ alerts_raised (stats (_check_sensor_timeouts m)) = alerts_raised (stats m).
Proof.
  split.
  - apply (_check_sensor_timeouts_unseen alert_queue). repeat constructor; blind.
  - apply (_check_sensor_timeouts_unseen (fun m => alerts_raised (stats m))).
    repeat constructor; blind.
Qed.

(** C1: what the code does when a timeout is detected.  The entry of the
    sensor goes to [timeout], the sensor-failure callback is called and the
    timeout is logged; no alert is raised: the alert counter and the alert
    queue stay as they were and no alert callback is called. *)
Theorem sensor_timeout_raises_no_alert :
  let m := stale_sensor_monitor in
  let m' := _check_sensor_timeouts m in
  overdue (wall_clock m (clock_reads m)) m "a" = Some 1000000000%Z
  /\ status_of m' "a" = Some timeout
  /\ alerts_raised (stats m') = 0
  /\ alert_queue m' = []
  /\ drop (length (effects m)) (effects m')
     = [Called "on_sensor_failure" 2
          (TimeoutEv {| te_timestamp := 1700000000000000%Z; te_sensor_id := "a";
                        te_timeout_duration := 1000000000%Z;
                        te_event_type := "sensor_timeout" |});
        Logged error (SensorTimeoutMsg "a" 1000000000%Z)]
  /\ _get_alert_severity "sensor_timeout" = high
  /\ _get_alert_description "sensor_timeout"
       {| ad_sensor_id := Some "a"; ad_count := None; ad_rate := None;
          ad_threshold := None; ad_timeout_duration := Some 1000%Q;
          ad_timestamp := Some 1700000000000000%Z |}
     = "Sensor a timeout for 1000 seconds".
Proof. vm_compute. repeat split. Qed.

(** ** Alert ids *)

(** C8: two sensors over the threshold in one analysis pass, within one
    second on the clock, get two different alerts with the same
    [alert_id]. *)
Theorem alert_ids_collide :
  let m := run [OpStart always_anomalous;
                OpProcessReadings [sample_reading "a"; sample_reading "b";
                                   sample_reading "a"; sample_reading "b";
                                   sample_reading "a"; sample_reading "b"];
                OpAnalyzeAlerts]
               (init sample_clock 1 1000) in
  exists a1 a2,
    alert_queue m = [a1; a2]
    /\ ad_sensor_id (alert_data a1) = Some "a"
    /\ ad_sensor_id (alert_data a2) = Some "b"
    /\ alert_id a1 = "alert_1700000000_consecutive_anomalies"
    /\ alert_id a2 = "alert_1700000000_consecutive_anomalies".
Proof. vm_compute. eexists _, _. repeat split. Qed.

(** ** The event queues *)

Lemma _handle_anomaly_queue a k m :
  match _handle_anomaly a k m with
  | Returned m' => exists ev, anomaly_queue m' = anomaly_queue m ++ [ev]
  | Raised _ m' => anomaly_queue m' = anomaly_queue m
  end.
Proof.
  unfold _handle_anomaly. set (m1 := set_sensor k _ _).
  assert (H1 : anomaly_queue m1 = anomaly_queue m).
  { unfold m1. now rewrite (blind_set anomaly_queue), (blind_get anomaly_queue) by blind. }
  destruct (heap m1 !! a) as [r|]; [|exact H1].
  destruct (r_timestamp r); [|exact H1].
  eexists.
  rewrite (log_frame anomaly_queue (fun _ => True)),
    (run_callbacks_frame anomaly_queue (fun _ => True)) by blind.
  cbn [anomaly_queue with_anomaly_queue]. now rewrite H1.
Qed.

Lemma classified_anomaly_queue a r k m :
  exists new,
    anomaly_queue (classified a r k m) = anomaly_queue m ++ new
    /\ length new
       = match anomaly_detector m with
         | Some d =>
             if is_trained d then
               match predict_single d r with
               | Some (true, sc) =>
                   match _handle_anomaly a k (annotate_reading a true sc m) with
                   | Returned _ => 1
                   | Raised _ _ => 0
                   end
               | _ => 0
               end
             else 0
         | None => 0
         end.
Proof.
  unfold classified.
  destruct (anomaly_detector m) as [d|]; [|exists []; now rewrite app_nil_r].
  destruct (is_trained d); [|exists []; now rewrite app_nil_r].
  destruct (predict_single d r) as [[[] sc]|]; cbv zeta;
    try (exists []; now rewrite app_nil_r).
  pose proof (_handle_anomaly_queue a k (annotate_reading a true sc m)) as H.
  destruct (_handle_anomaly _ _ _) as [m2|e m2].
  - destruct H as [ev ->]. now exists [ev].
  - exists []. cbn [detect_failed anomaly_queue annotate_reading with_heap log emit
                     with_effects]. now rewrite H, app_nil_r.
Qed.

Lemma _process_single_reading_anomaly_queue a m :
  anomaly_queue m `prefix_of` anomaly_queue (_process_single_reading a m).
Proof.
  destruct (heap m !! a) as [r|] eqn:Hr;
    [|unfold _process_single_reading; now rewrite Hr].
  destruct (r_sensor_id r) as [k|] eqn:Hk.
  - rewrite (_process_single_reading_present a r k m Hr Hk).
    destruct (classified_anomaly_queue a r k
                (recorded a (default (wall_clock m (clock_reads m)) (r_timestamp r)) k m))
      as (new & -> & _).
    rewrite recorded_anomaly_queue. now apply prefix_app_r.
  - now rewrite (_process_single_reading_absent a r m Hr Hk).
Qed.

Lemma _process_readings_anomaly_queue refs : forall m,
  anomaly_queue m `prefix_of` anomaly_queue (_process_readings refs m).
Proof.
  induction refs as [|a refs IH]; intros m; [reflexivity|].
  etrans; [apply (_process_single_reading_anomaly_queue a)|apply IH].
Qed.

Lemma _analyze_alerts_alert_queue m :
  alert_queue m `prefix_of` alert_queue (_analyze_alerts m).
Proof.
  unfold _analyze_alerts, read_clock. cbv beta iota zeta.
  set (m1 := with_clock_reads _ m). change (alert_queue m) with (alert_queue m1).
  etrans.
  - apply (foldl_invariant
             (fun m' => alert_queue m1 `prefix_of` alert_queue m')
             (analyze_one_sensor (wall_clock m (clock_reads m)))
             (sensor_order m1)); [|reflexivity].
    intros m' k Hm'. etrans; [exact Hm'|].
    destruct (analyze_one_sensor_queue (wall_clock m (clock_reads m)) m' k) as (new & -> & _).
    now apply prefix_app_r.
  - destruct (analyze_rate_queue (wall_clock m (clock_reads m))
                (foldl (analyze_one_sensor (wall_clock m (clock_reads m))) m1
                   (sensor_order m1))) as (new & -> & _).
    now apply prefix_app_r.
Qed.

Lemma step_queues o m :
  match o with
  | OpGetRecentAnomalies limit =>
      anomaly_queue (step m o) = drop (Z.to_nat limit) (anomaly_queue m)
      /\ alert_queue (step m o) = alert_queue m
  | OpGetRecentAlerts limit =>
      anomaly_queue (step m o) = anomaly_queue m
      /\ alert_queue (step m o) = drop (Z.to_nat limit) (alert_queue m)
  | _ =>
      anomaly_queue m `prefix_of` anomaly_queue (step m o)
      /\ alert_queue m `prefix_of` alert_queue (step m o)
  end.
Proof.
  assert (Hnew : forall rs,
            anomaly_queue m `prefix_of` anomaly_queue (process_new_readings rs m)
            /\ alert_queue (process_new_readings rs m) = alert_queue m).
  { intros rs. split.
    - unfold process_new_readings, alloc.
      apply (_process_readings_anomaly_queue _ (with_heap (heap m ++ rs) m)).
    - apply (process_new_readings_unseen alert_queue). unseen_by_all. }
  destruct o;
    try (split; [rewrite (step_unseen anomaly_queue) by unseen_by_all
                |rewrite (step_unseen alert_queue) by unseen_by_all]; reflexivity);
    cbn [step].
  - rewrite loop_iteration_eq. destruct (is_monitoring m); [|split; reflexivity].
    destruct (Hnew rs) as [Ha Hl]. split.
    + rewrite (_analyze_alerts_unseen anomaly_queue),
        (_check_sensor_timeouts_unseen anomaly_queue) by unseen_by_all. exact Ha.
    + etrans; [|apply _analyze_alerts_alert_queue].
      rewrite (_check_sensor_timeouts_unseen alert_queue) by unseen_by_all.
      now rewrite Hl.
  - destruct (Hnew rs) as [Ha Hl]. split; [exact Ha|now rewrite Hl].
  - split; [apply _process_readings_anomaly_queue|].
    now rewrite (_process_readings_unseen alert_queue) by unseen_by_all.
  - split; [|apply _analyze_alerts_alert_queue].
    now rewrite (_analyze_alerts_unseen anomaly_queue) by unseen_by_all.
  - split; reflexivity.
  - split; reflexivity.
Qed.

Lemma _handle_anomaly_returns a k r ts m :
  heap m !! a = Some r -> r_timestamp r = Some ts ->
  exists m', _handle_anomaly a k m = Returned m'.
Proof.
  intros Hr Hts. unfold _handle_anomaly.
  rewrite (blind_set heap), (blind_get heap) by blind.
  change (heap (incr_anomalies_detected m)) with (heap m).
  rewrite Hr, Hts. eauto.
Qed.

Lemma annotate_lookup_eq a b s r m :
  heap m !! a = Some r ->
  heap (annotate_reading a b s m) !! a = Some (annotate b s r).
Proof.
  intros Hr. unfold annotate_reading. cbn [heap with_heap].
  now rewrite list_lookup_alter_eq, Hr.
Qed.

(** One reading of a sensor that carries a timestamp, classified
    anomalous, puts exactly one event on the anomaly queue. *)
Lemma _process_single_reading_anomalous a r k ts d sc m :
  heap m !! a = Some r -> r_sensor_id r = Some k -> r_timestamp r = Some ts ->
  anomaly_detector m = Some d -> is_trained d = true ->
  predict_single d r = Some (true, sc) ->
  length (anomaly_queue (_process_single_reading a m)) = S (length (anomaly_queue m)).
Proof.
  intros Hr Hk Hts Hd Ht Hp.
  rewrite (_process_single_reading_present a r k m Hr Hk).
  set (m1 := recorded _ _ _ m).
  destruct (classified_anomaly_queue a r k m1) as (new & -> & Hlen).
  assert (Hd1 : anomaly_detector m1 = Some d)
    by (unfold m1; now rewrite recorded_detector).
  rewrite Hd1, Ht, Hp in Hlen.
  destruct (_handle_anomaly_returns a k (annotate true sc r) ts
              (annotate_reading a true sc m1)) as [m' Hret].
  { apply annotate_lookup_eq. unfold m1. now rewrite recorded_heap. }
  { exact Hts. }
  rewrite Hret in Hlen.
  rewrite length_app, Hlen, Nat.add_1_r. f_equal.
  unfold m1. now rewrite recorded_anomaly_queue.
Qed.

Lemma process_anomalous_reading m :
  anomaly_detector m = Some always_anomalous ->
  length (anomaly_queue (process_new_readings [sample_reading "a"] m))
  = S (length (anomaly_queue m))
  /\ anomaly_detector (process_new_readings [sample_reading "a"] m)
     = Some always_anomalous.
Proof.
  intros Hd. split.
  2: { rewrite <- Hd. apply (process_new_readings_unseen anomaly_detector). unseen_by_all. }
  unfold process_new_readings, alloc, _process_readings. cbn [length seq foldl].
  set (m0 := with_heap (heap m ++ [sample_reading "a"]) m).
  change (anomaly_queue m) with (anomaly_queue m0).
  apply (_process_single_reading_anomalous _ (sample_reading "a") "a"
           1699999000000000%Z always_anomalous 1%Q);
    try reflexivity; [|exact Hd].
  now apply list_lookup_middle.
Qed.

Lemma anomaly_queue_grows n : forall m,
  anomaly_detector m = Some always_anomalous ->
  length (anomaly_queue (run (replicate n (OpProcessReadings [sample_reading "a"])) m))
  = length (anomaly_queue m) + n.
Proof.
  induction n as [|n IH]; intros m Hd; cbn [replicate]; [cbn; lia|].
  unfold run in *. cbn [foldl step].
  destruct (process_anomalous_reading m Hd) as [Hlen Hd'].
  rewrite IH, Hlen by exact Hd'. lia.
Qed.

Lemma alert_queue_grows s c n : forall m,
  wf m -> fires m s = Some c ->
  length (alert_queue m) + n
  <= length (alert_queue (run (replicate n OpAnalyzeAlerts) m)).
Proof.
  induction n as [|n IH]; intros m Hwf Hf; cbn [replicate]; [cbn; lia|].
  unfold run in *. cbn [foldl step].
  destruct (_analyze_alerts_queue m s Hwf) as (new & Hq & Hnew). rewrite Hf in Hnew.
  destruct Hnew as (t1 & t2 & Hnew).
  assert (Hlen : 1 <= length new).
  { pose proof (length_filter (alert_about s) new) as H. rewrite Hnew in H. exact H. }
  assert (Hf' : fires (_analyze_alerts m) s = Some c).
  { rewrite <- Hf.
    apply (_analyze_alerts_frame (fun m => fires m s)) with (allowed := fun _ => True);
      blind. }
  specialize (IH (_analyze_alerts m) (step_wf OpAnalyzeAlerts m Hwf) Hf').
  rewrite Hq, length_app in IH. lia.
Qed.

Lemma alarmed_monitor_facts :
  wf alarmed_monitor
  /\ fires alarmed_monitor "a" = Some 3
  /\ anomaly_detector alarmed_monitor = Some always_anomalous.
Proof.
  split; [apply run_wf, wf_init|]. split; vm_compute; reflexivity.
Qed.

Lemma queues_outgrow n :
  exists ops,
    n < length (anomaly_queue (run ops alarmed_monitor))
    /\ n < length (alert_queue (run ops alarmed_monitor)).
Proof.
  destruct alarmed_monitor_facts as (Hwf & Hf & Hd).
  exists (replicate (S n) OpAnalyzeAlerts
          ++ replicate (S n) (OpProcessReadings [sample_reading "a"])).
  unfold run. rewrite foldl_app.
  fold (run (replicate (S n) OpAnalyzeAlerts) alarmed_monitor).
  set (m1 := run (replicate (S n) OpAnalyzeAlerts) alarmed_monitor).
  fold (run (replicate (S n) (OpProcessReadings [sample_reading "a"])) m1).
  assert (Hd1 : anomaly_detector m1 = Some always_anomalous).
  { rewrite <- Hd. apply (run_unseen anomaly_detector).
    apply Forall_replicate. unseen_by_all. }
  assert (Hq1 : S n <= length (alert_queue m1)).
  { pose proof (alert_queue_grows "a" 3 (S n) alarmed_monitor Hwf Hf) as H.
    fold m1 in H. lia. }
  split.
  - rewrite anomaly_queue_grows by exact Hd1. lia.
  - rewrite (run_unseen alert_queue); [lia|].
    apply Forall_replicate. unseen_by_all.
Qed.

(** C2, as the claim states it, fails: no capacity bounds the anomaly queue
    and the alert queue over all runs of the monitor. *)
Lemma queues_have_no_capacity :
  ~ exists cap,
      forall ops,
        length (anomaly_queue (run ops alarmed_monitor)) <= cap
        /\ length (alert_queue (run ops alarmed_monitor)) <= cap.
Proof.
  intros [cap H]. destruct (queues_outgrow cap) as (ops & Ha & _).
  destruct (H ops) as [Ha' _]. lia.
Qed.

(** C2, amended: the two queues are unbounded FIFO queues.  No operation
    but [get_recent_anomalies] and [get_recent_alerts] removes anything from
    them: every other operation leaves what a queue holds as a prefix of
    what it holds afterwards, the two readers drop [limit] elements from the
    front of their queue, and for every [n] some run leaves more than [n]
    elements in each queue. *)
Theorem queues_are_unbounded_fifo :
  (forall o m,
     match o with
     | OpGetRecentAnomalies limit =>
         anomaly_queue (step m o) = drop (Z.to_nat limit) (anomaly_queue m)
         /\ alert_queue (step m o) = alert_queue m
     | OpGetRecentAlerts limit =>
         anomaly_queue (step m o) = anomaly_queue m
         /\ alert_queue (step m o) = drop (Z.to_nat limit) (alert_queue m)
     | _ =>
         anomaly_queue m `prefix_of` anomaly_queue (step m o)
         /\ alert_queue m `prefix_of` alert_queue (step m o)
     end)
  /\ (forall n, exists ops,
        n < length (anomaly_queue (run ops alarmed_monitor))
        /\ n < length (alert_queue (run ops alarmed_monitor))).
Proof. split; [apply step_queues|apply queues_outgrow]. Qed.

(** ** Classifier failures *)



Lemma detect_failed_fields a m :
  heap (detect_failed a m) = alter (annotate false 0%Q) a (heap m)
  /\ sensor_states (detect_failed a m) = sensor_states m
  /\ stats (detect_failed a m) = stats m
  /\ anomaly_queue (detect_failed a m) = anomaly_queue m.
Proof. repeat split. Qed.

Lemma _process_readings_cons a rest m :
  _process_readings (a :: rest) m
  = _process_readings rest (_process_single_reading a m).
Proof. reflexivity. Qed.




(** ** The counters behind the anomaly rate *)

Lemma _handle_anomaly_stats a k m :
  stats (state_of (_handle_anomaly a k m)) = stats (incr_anomalies_detected m).
Proof.
  unfold _handle_anomaly. set (m1 := set_sensor k _ _).
  assert (H1 : stats m1 = stats (incr_anomalies_detected m)).
  { unfold m1. now rewrite (blind_set stats), (blind_get stats) by blind. }
  destruct (heap m1 !! a) as [r|]; [|exact H1].
  destruct (r_timestamp r); [|exact H1].
  cbn [state_of].
  rewrite (log_frame stats (fun _ => True)),
    (run_callbacks_frame stats (fun _ => True)) by blind.
  exact H1.
Qed.

Lemma classified_stats a r k m :
  total_readings (stats (classified a r k m)) = total_readings (stats m)
  /\ anomalies_detected (stats (classified a r k m)) <= S (anomalies_detected (stats m)).
Proof.
  unfold classified.
  destruct (anomaly_detector m) as [d|]; [|split; [reflexivity|lia]].
  destruct (is_trained d); [|split; [reflexivity|lia]].
  destruct (predict_single d r) as [[[] sc]|]; cbv zeta;
    try (split; [reflexivity|cbn; lia]).
  pose proof (_handle_anomaly_stats a k (annotate_reading a true sc m)) as H.
  destruct (_handle_anomaly _ _ _) as [m2|e m2]; cbn [state_of] in H.
  - rewrite H. split; [reflexivity|cbn; lia].
  - destruct (detect_failed_fields a m2) as (_ & _ & -> & _).
    rewrite H. split; [reflexivity|cbn; lia].
Qed.

Lemma _process_single_reading_counters a m :
  counters_ok m -> counters_ok (_process_single_reading a m).
Proof.
  unfold counters_ok. intros Hm.
  destruct (heap m !! a) as [r|] eqn:Hr;
    [|unfold _process_single_reading; now rewrite Hr].
  destruct (r_sensor_id r) as [k|] eqn:Hk.
  - rewrite (_process_single_reading_present a r k m Hr Hk).
    destruct (classified_stats a r k
                (recorded a (default (wall_clock m (clock_reads m)) (r_timestamp r)) k m))
      as [-> Hle].
    rewrite recorded_stats in Hle |- *. cbn in Hle |- *. lia.
  - now rewrite (_process_single_reading_absent a r m Hr Hk).
Qed.

Lemma _process_readings_counters refs : forall m,
  counters_ok m -> counters_ok (_process_readings refs m).
Proof.
  induction refs as [|a refs IH]; intros m Hm; [exact Hm|].
  rewrite _process_readings_cons. now apply IH, _process_single_reading_counters.
Qed.

Lemma counters_ok_eq m m' : counters m' = counters m -> counters_ok m -> counters_ok m'.
Proof. unfold counters, counters_ok. intros [= -> ->]. auto. Qed.

Lemma step_counters o m : counters_ok m -> counters_ok (step m o).
Proof.
  intros Hm.
  assert (Hnew : forall rs, counters_ok (process_new_readings rs m)).
  { intros rs. unfold process_new_readings, alloc.
    now apply _process_readings_counters. }
  destruct o;
    try (apply (counters_ok_eq m); [apply (step_unseen counters); unseen_by_all|exact Hm]);
    cbn [step].
  - rewrite loop_iteration_eq. destruct (is_monitoring m); [|exact Hm].
    apply (counters_ok_eq (process_new_readings rs m)); [|apply Hnew].
    rewrite (_analyze_alerts_unseen counters) by unseen_by_all.
    now rewrite (_check_sensor_timeouts_unseen counters) by unseen_by_all.
  - apply Hnew.
  - now apply _process_readings_counters.
Qed.

Lemma run_counters ops : forall m, counters_ok m -> counters_ok (run ops m).
Proof.
  induction ops as [|o ops IH]; intros m Hm; [exact Hm|].
  apply IH, step_counters, Hm.
Qed.

(** For a monitor with a buffer of positive capacity the snapshot is
    computed, with the anomaly rate and the uptime the claim gives. *)
Lemma get_monitoring_stats_of_run clk interval size ops :
  0 < size ->
  let m := run ops (init clk interval size) in
  exists snap,
    fst (get_monitoring_stats m) = Ok snap
    /\ snap_anomaly_rate snap
       = (Z.of_nat (anomalies_detected (stats m))
            # Pos.of_nat (Nat.max 1 (total_readings (stats m))))
    /\ (total_readings (stats m) = 0 -> (snap_anomaly_rate snap == 0)%Q)
    /\ (start_time (stats m) = None -> snap_uptime_seconds snap = 0%Q).
Proof.
  intros Hsize m.
  destruct (get_monitoring_stats_returns m) as (snap & Hok & _ & Hrate & Hup & _).
  { unfold m. rewrite run_buffer_size. exact Hsize. }
  exists snap. split; [exact Hok|]. split; [exact Hrate|]. split.
  - intros Htot. rewrite Hrate.
    assert (Hc : counters_ok m) by (apply run_counters; unfold counters_ok; cbn; lia).
    unfold counters_ok in Hc. rewrite Htot in Hc.
    assert (anomalies_detected (stats m) = 0) as -> by lia. reflexivity.
  - intros Hst. now rewrite Hup, Hst.
Qed.

(** C6: what the code does for a monitor built with [buffer_size=0].  The
    constructor accepts it ([deque(maxlen=0)] is a valid deque), and in every
    state such a monitor reaches, before or after monitoring has started,
    [get_monitoring_stats] raises [ZeroDivisionError] on the division by
    [self.buffer_size]. *)
Theorem get_monitoring_stats_raises_for_zero_capacity clk interval ops :
  fst (get_monitoring_stats (run ops (init clk interval 0))) = Raise ZeroDivisionError.
Proof.
  pose proof (run_buffer_size ops (init clk interval 0)) as Hsize.
  cbn [buffer_size init] in Hsize.
  unfold get_monitoring_stats, read_clock. cbv beta iota zeta.
  cbn [buffer_size with_clock_reads]. now rewrite Hsize.
Qed.

Example stats_before_monitoring_starts :
  fst (get_monitoring_stats (init sample_clock 1 0)) = Raise ZeroDivisionError
  /\ exists snap,
       fst (get_monitoring_stats (init sample_clock 1 1000)) = Ok snap
       /\ snap_total_readings snap = 0
       /\ snap_anomaly_rate snap = (0 # 1)%Q
       /\ snap_uptime_seconds snap = 0%Q.
Proof. split; [reflexivity|]. eexists. repeat split. Qed.

(** ** Callbacks *)

(** X1: [add_callback] accepts exactly the three event types 'on_anomaly',
    'on_alert' and 'on_sensor_failure'.  For one of them the callback is
    appended behind the callbacks already registered for that type, the
    lists of the other two types stay as they were, and nothing but the
    callback table changes; for any other string it raises [ValueError]. *)
Theorem add_callback_registers_last event_type callback m :
  match add_callback event_type callback m with
  | Ok m' =>
      event_type ∈ event_types
      /\ callbacks_of event_type m' = callbacks_of event_type m ++ [callback]
      /\ (forall other, other ∈ event_types -> other <> event_type ->
            callbacks_of other m' = callbacks_of other m)
      /\ m' = with_callbacks (callbacks m') m
  | Raise e => e = ValueError /\ event_type ∉ event_types
  end.
Proof.
  unfold add_callback, event_types.
  destruct (String.eqb_spec event_type "on_anomaly") as [->|H1].
  { split; [set_solver|]. split; [reflexivity|]. split; [|reflexivity].
    intros other Ho Hne. unfold callbacks_of.
    destruct (String.eqb_spec other "on_anomaly") as [->|_]; [contradiction|].
    now destruct (String.eqb other "on_alert"). }
  destruct (String.eqb_spec event_type "on_alert") as [->|H2].
  { split; [set_solver|]. split; [reflexivity|]. split; [|reflexivity].
    intros other Ho Hne. unfold callbacks_of.
    destruct (String.eqb_spec other "on_anomaly") as [->|_]; [reflexivity|].
    now destruct (String.eqb_spec other "on_alert") as [->|_]. }
  destruct (String.eqb_spec event_type "on_sensor_failure") as [->|H3].
  { split; [set_solver|]. split; [reflexivity|]. split; [|reflexivity].
    intros other Ho Hne. unfold callbacks_of.
    destruct (String.eqb_spec other "on_anomaly") as [->|Ha]; [reflexivity|].
    destruct (String.eqb_spec other "on_alert") as [->|Hb]; [reflexivity|].
    apply elem_of_cons in Ho as [->|Ho]; [contradiction|].
    apply elem_of_cons in Ho as [->|Ho]; [contradiction|].
    apply list_elem_of_singleton in Ho. contradiction. }
  split; [reflexivity|]. intros Hin.
  apply elem_of_cons in Hin as [->|Hin]; [contradiction|].
  apply elem_of_cons in Hin as [->|Hin]; [contradiction|].
  apply list_elem_of_singleton in Hin. contradiction.
Qed.

Lemma add_callback_registers_last_witness :
  exists m',
    add_callback "on_alert" failing_callback stale_sensor_monitor = Ok m'
    /\ callbacks_of "on_alert" m' = [recording_callback 1; failing_callback]
    /\ callbacks_of "on_sensor_failure" m' = [recording_callback 2].
Proof.
  pose proof (add_callback_registers_last "on_alert" failing_callback stale_sensor_monitor)
    as H.
  destruct (add_callback "on_alert" failing_callback stale_sensor_monitor) as [m'|e] eqn:E.
  - exists m'. split; [reflexivity|]. destruct H as (_ & Hown & Hother & _).
    split; [rewrite Hown; vm_compute; reflexivity|].
    rewrite Hother; [vm_compute; reflexivity| |discriminate].
    unfold event_types. do 2 apply elem_of_cons, or_intror.
    apply elem_of_cons. now left.
  - vm_compute in E. discriminate E.
Defined.

Lemma run_callbacks_effects kind cbs ev : forall m,
  exists new,
    run_callbacks kind cbs ev m = with_effects (effects m ++ new) m
    /\ calls_in new = map (fun cb => Called kind (cb_id cb) ev) cbs
    /\ length (callback_errors_in new)
       = length (filter (fun cb => cb_ok cb ev = false) cbs).
Proof.
  induction cbs as [|cb cbs IH]; intros m.
  - exists []. split; [|split; reflexivity].
    cbn [run_callbacks foldl]. rewrite app_nil_r. now destruct m.
  - rewrite run_callbacks_cons.
    destruct (cb_ok cb ev) eqn:Hok.
    + destruct (IH (emit (Called kind (cb_id cb) ev) m)) as (new & -> & Hc & He).
      exists (Called kind (cb_id cb) ev :: new). split; [|split].
      * cbn [emit effects with_effects]. now rewrite <- app_assoc.
      * unfold calls_in in *. rewrite filter_cons_True by reflexivity. cbn [map].
        now rewrite Hc.
      * unfold callback_errors_in in *. rewrite filter_cons_False by discriminate.
        rewrite He, (filter_cons_False _ cb) by congruence. reflexivity.
    + destruct (IH (log error (CallbackError kind) (emit (Called kind (cb_id cb) ev) m)))
        as (new & -> & Hc & He).
      exists (Called kind (cb_id cb) ev :: Logged error (CallbackError kind) :: new).
      split; [|split].
      * cbn [log emit effects with_effects]. now rewrite <- !app_assoc.
      * unfold calls_in in *. rewrite filter_cons_True by reflexivity.
        rewrite filter_cons_False by discriminate. cbn [map]. now rewrite Hc.
      * unfold callback_errors_in in *. rewrite filter_cons_False by discriminate.
        rewrite filter_cons_True by reflexivity.
        rewrite (filter_cons_True _ cb) by exact Hok. cbn [length]. now rewrite He.
Qed.

(** ** The entry of the sensor a reading belongs to *)

Lemma _handle_anomaly_entry a k m :
  sensor_states (state_of (_handle_anomaly a k m)) !! k
  = Some (with_consecutive_anomalies
            (S (consecutive_anomalies (default new_sensor_state (sensor_states m !! k))))
            (default new_sensor_state (sensor_states m !! k))).
Proof.
  unfold _handle_anomaly. set (m1 := set_sensor k _ _).
  assert (H1 : sensor_states m1 !! k
               = Some (with_consecutive_anomalies
                         (S (consecutive_anomalies
                               (default new_sensor_state (sensor_states m !! k))))
                         (default new_sensor_state (sensor_states m !! k)))).
  { unfold m1. cbn [sensor_states set_sensor with_sensors].
    rewrite lookup_alter_eq, get_sensor_lookup. reflexivity. }
  destruct (heap m1 !! a) as [r|]; [|exact H1].
  destruct (r_timestamp r); [|exact H1].
  cbn [state_of].
  rewrite (log_frame (fun m => sensor_states m !! k) (fun _ => True)),
    (run_callbacks_frame (fun m => sensor_states m !! k) (fun _ => True)) by blind.
  exact H1.
Qed.

Lemma classified_entry a r k m st :
  sensor_states m !! k = Some st ->
  sensor_states (classified a r k m) !! k
  = Some (with_consecutive_anomalies (next_count m r (consecutive_anomalies st)) st).
Proof.
  intros Hst. unfold classified, next_count.
  destruct (anomaly_detector m) as [d|]; [|now destruct st].
  destruct (is_trained d); [|now destruct st].
  destruct (predict_single d r) as [[[] sc]|]; cbv zeta.
  - pose proof (_handle_anomaly_entry a k (annotate_reading a true sc m)) as H.
    change (sensor_states (annotate_reading a true sc m)) with (sensor_states m) in H.
    rewrite Hst in H. cbn [default from_option] in H.
    destruct (_handle_anomaly _ _ _) as [m2|e m2]; cbn [state_of] in H.
    + exact H.
    + destruct (detect_failed_fields a m2) as (_ & -> & _). exact H.
  - cbn [sensor_states set_sensor with_sensors annotate_reading with_heap].
    now rewrite lookup_alter_eq, Hst.
  - destruct (detect_failed_fields a m) as (_ & -> & _). rewrite Hst. now destruct st.
Qed.

Lemma _process_single_reading_entry a r s m :
  heap m !! a = Some r -> r_sensor_id r = Some s ->
  sensor_states (_process_single_reading a m) !! s
  = Some (updated_entry a r m (default new_sensor_state (sensor_states m !! s))).
Proof.
  intros Hr Hs.
  rewrite (_process_single_reading_present a r s m Hr Hs).
  set (t := default _ _).
  rewrite (classified_entry a r s (recorded a t s m) _ (recorded_sensor a t s m)).
  unfold updated_entry, next_count. rewrite recorded_detector. reflexivity.
Qed.

Lemma deque_append_last {A : Type} (n : nat) (x : A) (d : list A) :
  0 < n -> last (deque_append n x d) = Some x.
Proof.
  intros Hn. unfold deque_append. rewrite length_app. cbn [length].
  rewrite drop_app_le by lia. now rewrite last_app.
Qed.

(** X2: after [_process_single_reading] has processed a reading that carries
    the id of sensor [s], the entry of [s] (a fresh one when [s] was unknown)
    has status 'active', [last_seen] is the reading's timestamp (the clock
    time when the reading has none), the reading is the newest of at most 50
    recent readings, and the consecutive-anomaly counter is one more after
    an anomalous verdict, 0 after a normal one, and unchanged when there is
    no trained classifier or the classifier fails. *)
Theorem reading_updates_its_sensor a r s m :
  heap m !! a = Some r -> r_sensor_id r = Some s ->
  let st := default new_sensor_state (sensor_states m !! s) in
  sensor_states (_process_single_reading a m) !! s
  = Some {| last_seen := Some (default (wall_clock m (clock_reads m)) (r_timestamp r));
            consecutive_anomalies := next_count m r (consecutive_anomalies st);
            recent_readings := deque_append 50 a (recent_readings st);
            status := active |}
  /\ length (deque_append 50 a (recent_readings st)) <= 50
  /\ last (deque_append 50 a (recent_readings st)) = Some a.
Proof.
  intros Hr Hs st. split; [|split].
  - apply (_process_single_reading_entry a r s m Hr Hs).
  - apply deque_append_length.
  - apply deque_append_last. lia.
Qed.

Lemma reading_updates_its_sensor_witness :
  let m := with_new_objects [sample_reading "a"] alarmed_monitor in
  sensor_states (_process_single_reading 3 m) !! "a"
  = Some {| last_seen := Some 1699999000000000%Z; consecutive_anomalies := 4;
            recent_readings := [0; 1; 2; 3]; status := active |}.
Proof.
  intros m.
  destruct (reading_updates_its_sensor 3 (sample_reading "a") "a" m) as (H & _);
    [vm_compute; reflexivity|reflexivity|].
  rewrite H. vm_compute. reflexivity.
Defined.

(** ** Detected anomalies *)

Lemma _handle_anomaly_returned a k r ts m :
  heap m !! a = Some r -> r_timestamp r = Some ts ->
  exists m1,
    _handle_anomaly a k m
    = Returned
        (log warning
           (AnomalyDetected k (default 0%Q (r_value r)) (default 0%Q (r_anomaly_score r)))
           (run_callbacks "on_anomaly" (on_anomaly (callbacks m))
              (AnomalyEv (anomaly_event_of a k ts m))
              (with_anomaly_queue (anomaly_queue m ++ [anomaly_event_of a k ts m]) m1)))
    /\ stats m1 = stats (incr_anomalies_detected m)
    /\ heap m1 = heap m
    /\ effects m1 = effects m.
Proof.
  intros Hr Hts.
  exists (set_sensor k
            (fun st => with_consecutive_anomalies (S (consecutive_anomalies st)) st)
            (_get_sensor_state k (incr_anomalies_detected m))).
  split; [|split; [|split]].
  - unfold _handle_anomaly. cbv zeta.
    rewrite (blind_set heap), (blind_get heap) by blind.
    change (heap (incr_anomalies_detected m)) with (heap m). rewrite Hr, Hts.
    cbn [callbacks with_anomaly_queue].
    rewrite (blind_set callbacks), (blind_get callbacks) by blind.
    rewrite (blind_set anomaly_queue), (blind_get anomaly_queue) by blind.
    cbn [sensor_states set_sensor with_sensors].
    rewrite lookup_alter_eq, get_sensor_lookup.
    reflexivity.
  - now rewrite (blind_set stats), (blind_get stats) by blind.
  - now rewrite (blind_set heap), (blind_get heap) by blind.
  - now rewrite (blind_set effects), (blind_get effects) by blind.
Qed.

Lemma recorded_effects a t k m : effects (recorded a t k m) = effects m.
Proof.
  unfold recorded. now rewrite !(blind_set effects), (blind_get effects) by blind.
Qed.

Lemma recorded_callbacks a t k m : callbacks (recorded a t k m) = callbacks m.
Proof.
  unfold recorded. now rewrite !(blind_set callbacks), (blind_get callbacks) by blind.
Qed.

Lemma calls_in_app l k : calls_in (l ++ k) = calls_in l ++ calls_in k.
Proof. apply filter_app. Qed.

Lemma classified_anomalous a r k ts d sc m :
  heap m !! a = Some r -> r_timestamp r = Some ts ->
  anomaly_detector m = Some d -> is_trained d = true ->
  predict_single d r = Some (true, sc) ->
  stats (classified a r k m) = stats (incr_anomalies_detected m)
  /\ anomaly_queue (classified a r k m)
     = anomaly_queue m ++ [anomaly_event_of a k ts m]
  /\ heap (classified a r k m) = heap (annotate_reading a true sc m)
  /\ exists new,
       effects (classified a r k m) = effects m ++ new
       /\ calls_in new
          = map (fun cb => Called "on_anomaly" (cb_id cb)
                             (AnomalyEv (anomaly_event_of a k ts m)))
                (on_anomaly (callbacks m)).
Proof.
  intros Hr Hts Hd Ht Hp. unfold classified. rewrite Hd, Ht, Hp. cbv zeta.
  destruct (_handle_anomaly_returned a k (annotate true sc r) ts
              (annotate_reading a true sc m))
    as (m1 & -> & Hstats & Hheap & Heff); [now apply annotate_lookup_eq|exact Hts|].
  change (callbacks (annotate_reading a true sc m)) with (callbacks m).
  change (anomaly_queue (annotate_reading a true sc m)) with (anomaly_queue m).
  change (anomaly_event_of a k ts (annotate_reading a true sc m))
    with (anomaly_event_of a k ts m).
  set (ev := anomaly_event_of a k ts m).
  set (m2 := with_anomaly_queue (anomaly_queue m ++ [ev]) m1).
  destruct (run_callbacks_effects "on_anomaly" (on_anomaly (callbacks m)) (AnomalyEv ev) m2)
    as (new & Hrun & Hcalls & _).
  rewrite Hrun. unfold log, emit.
  cbn [stats anomaly_queue heap effects with_effects m2 with_anomaly_queue].
  split; [exact Hstats|]. split; [reflexivity|]. split; [exact Hheap|].
  exists (new ++ [Logged warning
                    (AnomalyDetected k (default 0%Q (r_value (annotate true sc r)))
                       (default 0%Q (r_anomaly_score (annotate true sc r))))]).
  split.
  - rewrite Heff. now rewrite <- app_assoc.
  - rewrite calls_in_app, Hcalls. apply app_nil_r.
Qed.

(** X3: a reading with a timestamp that the trained classifier calls
    anomalous is counted in [anomalies_detected], marked
    [is_anomaly_detected = True] with its score, and put at the back of the
    anomaly queue as one event that carries the sensor's new consecutive
    count; every 'on_anomaly' callback is called once with that event, in
    registration order, whether or not earlier callbacks raised. *)
Theorem anomaly_is_counted_queued_and_announced a r s ts d sc m :
  heap m !! a = Some r -> r_sensor_id r = Some s -> r_timestamp r = Some ts ->
  anomaly_detector m = Some d -> is_trained d = true ->
  predict_single d r = Some (true, sc) ->
  let m' := _process_single_reading a m in
  let ev := anomaly_event_of a s ts m in
  anomalies_detected (stats m') = S (anomalies_detected (stats m))
  /\ anomaly_queue m' = anomaly_queue m ++ [ev]
  /\ heap m' !! a = Some (annotate true sc r)
  /\ exists new,
       effects m' = effects m ++ new
       /\ calls_in new
          = map (fun cb => Called "on_anomaly" (cb_id cb) (AnomalyEv ev))
                (on_anomaly (callbacks m)).
Proof.
  intros Hr Hs Hts Hd Ht Hp m' ev. unfold m'.
  rewrite (_process_single_reading_present a r s m Hr Hs).
  set (t := default _ _).
  destruct (classified_anomalous a r s ts d sc (recorded a t s m))
    as (Hstats & Hq & Hheap & new & Heff & Hcalls);
    [now rewrite recorded_heap|exact Hts|now rewrite recorded_detector|exact Ht|exact Hp|].
  assert (Hev : anomaly_event_of a s ts (recorded a t s m) = ev).
  { unfold ev, anomaly_event_of. rewrite recorded_sensor. reflexivity. }
  rewrite Hev in Hq, Hcalls.
  split; [|split; [|split]].
  - rewrite Hstats. cbn [stats incr_anomalies_detected with_stats anomalies_detected].
    now rewrite recorded_stats.
  - now rewrite Hq, recorded_anomaly_queue.
  - rewrite Hheap. apply annotate_lookup_eq. now rewrite recorded_heap.
  - exists new. rewrite Heff, recorded_effects. split; [reflexivity|].
    now rewrite Hcalls, recorded_callbacks.
Qed.

Lemma anomaly_is_counted_queued_and_announced_witness :
  let m := with_new_objects [sample_reading "a"] alarmed_monitor in
  anomalies_detected (stats (_process_single_reading 3 m)) = 4
  /\ length (anomaly_queue (_process_single_reading 3 m)) = 4.
Proof.
  intros m.
  destruct (anomaly_is_counted_queued_and_announced 3 (sample_reading "a") "a"
              1699999000000000%Z always_anomalous 1%Q m) as (Hn & Hq & _);
    [vm_compute; reflexivity|reflexivity|reflexivity|vm_compute; reflexivity
    |reflexivity|reflexivity|].
  split; [rewrite Hn; vm_compute; reflexivity|].
  rewrite Hq, length_app. vm_compute. reflexivity.
Defined.

Lemma _handle_anomaly_raised a k r m :
  heap m !! a = Some r -> r_timestamp r = None ->
  exists m1,
    _handle_anomaly a k m = Raised KeyError m1
    /\ stats m1 = stats (incr_anomalies_detected m)
    /\ heap m1 = heap m
    /\ effects m1 = effects m
    /\ anomaly_queue m1 = anomaly_queue m.
Proof.
  intros Hr Hts.
  exists (set_sensor k
            (fun st => with_consecutive_anomalies (S (consecutive_anomalies st)) st)
            (_get_sensor_state k (incr_anomalies_detected m))).
  split; [|split; [|split; [|split]]].
  - unfold _handle_anomaly. cbv zeta.
    rewrite (blind_set heap), (blind_get heap) by blind.
    change (heap (incr_anomalies_detected m)) with (heap m). now rewrite Hr, Hts.
  - now rewrite (blind_set stats), (blind_get stats) by blind.
  - now rewrite (blind_set heap), (blind_get heap) by blind.
  - now rewrite (blind_set effects), (blind_get effects) by blind.
  - now rewrite (blind_set anomaly_queue), (blind_get anomaly_queue) by blind.
Qed.

Lemma classified_without_timestamp a r k d sc m :
  heap m !! a = Some r -> r_timestamp r = None ->
  anomaly_detector m = Some d -> is_trained d = true ->
  predict_single d r = Some (true, sc) ->
  stats (classified a r k m) = stats (incr_anomalies_detected m)
  /\ anomaly_queue (classified a r k m) = anomaly_queue m
  /\ heap (classified a r k m) !! a = Some (annotate false 0 r)
  /\ effects (classified a r k m) = effects m ++ [Logged error DetectError].
Proof.
  intros Hr Hts Hd Ht Hp. unfold classified. rewrite Hd, Ht, Hp. cbv zeta.
  destruct (_handle_anomaly_raised a k (annotate true sc r)
              (annotate_reading a true sc m))
    as (m1 & -> & Hstats & Hheap & Heff & Hq); [now apply annotate_lookup_eq|exact Hts|].
  destruct (detect_failed_fields a m1) as (Hh & _ & Hst & Hqq).
  split; [now rewrite Hst, Hstats|]. split; [now rewrite Hqq, Hq|]. split.
  - rewrite Hh, Hheap, list_lookup_alter_eq.
    rewrite (annotate_lookup_eq a true sc r m Hr). reflexivity.
  - unfold detect_failed, annotate_reading, log, emit.
    cbn [effects with_heap with_effects]. now rewrite Heff.
Qed.

(** X4: a reading without the 'timestamp' key that the trained classifier
    calls anomalous makes [_handle_anomaly] fail after it has incremented
    its counters: [anomalies_detected] and the sensor's consecutive count
    have grown by one, but no event is queued, the reading ends up marked
    [is_anomaly_detected = False] with score 0.0, and the only logger or
    callback call made is the error line of the [except] branch. *)
Theorem anomaly_without_timestamp_is_half_recorded a r s d sc m :
  heap m !! a = Some r -> r_sensor_id r = Some s -> r_timestamp r = None ->
  anomaly_detector m = Some d -> is_trained d = true ->
  predict_single d r = Some (true, sc) ->
  let m' := _process_single_reading a m in
  anomalies_detected (stats m') = S (anomalies_detected (stats m))
  /\ (consecutive_anomalies <$> sensor_states m' !! s)
     = Some (S (from_option consecutive_anomalies 0 (sensor_states m !! s)))
  /\ anomaly_queue m' = anomaly_queue m
  /\ heap m' !! a = Some (annotate false 0 r)
  /\ effects m' = effects m ++ [Logged error DetectError].
Proof.
  intros Hr Hs Hts Hd Ht Hp m'.
  pose proof (_process_single_reading_entry a r s m Hr Hs) as Hentry.
  fold m' in Hentry. unfold updated_entry, next_count in Hentry.
  rewrite Hd, Ht, Hp in Hentry.
  unfold m' in *.
  rewrite (_process_single_reading_present a r s m Hr Hs) in Hentry |- *.
  set (t := default _ _) in *.
  destruct (classified_without_timestamp a r s d sc (recorded a t s m))
    as (Hstats & Hq & Hheap & Heff);
    [now rewrite recorded_heap|exact Hts|now rewrite recorded_detector|exact Ht|exact Hp|].
  split; [|split; [|split; [|split]]].
  - rewrite Hstats. cbn [stats incr_anomalies_detected with_stats anomalies_detected].
    now rewrite recorded_stats.
  - rewrite Hentry. now destruct (sensor_states m !! s).
  - now rewrite Hq, recorded_anomaly_queue.
  - exact Hheap.
  - now rewrite Heff, recorded_effects.
Qed.

Lemma anomaly_without_timestamp_is_half_recorded_witness :
  let m := with_new_objects [reading_without_timestamp "a"] alarmed_monitor in
  anomalies_detected (stats (_process_single_reading 3 m)) = 4
  /\ length (anomaly_queue (_process_single_reading 3 m)) = 3
  /\ (consecutive_anomalies <$> sensor_states (_process_single_reading 3 m) !! "a")
     = Some 4.
Proof.
  intros m.
  destruct (anomaly_without_timestamp_is_half_recorded 3 (reading_without_timestamp "a")
              "a" always_anomalous 1%Q m) as (Hn & Hc & Hq & _);
    [vm_compute; reflexivity|reflexivity|reflexivity|vm_compute; reflexivity
    |reflexivity|reflexivity|].
  split; [rewrite Hn; vm_compute; reflexivity|].
  split; [rewrite Hq; vm_compute; reflexivity|].
  rewrite Hc. vm_compute. reflexivity.
Defined.

(** ** Reading the queues *)

(** X5: [get_recent_anomalies] and [get_recent_alerts] split their queue:
    what is returned followed by what stays is the old queue, the returned
    list has [min limit (queue length)] elements, and the other queue is not
    read.  With [limit <= 0] nothing is returned and nothing changes, and
    two calls in a row with non-negative limits return together what one
    call with the sum of the limits returns. *)
Theorem get_recent_takes_from_the_front limit limit' m :
  let events := fst (get_recent_anomalies limit m) in
  let m1 := snd (get_recent_anomalies limit m) in
  let alerts := fst (get_recent_alerts limit m) in
  let m2 := snd (get_recent_alerts limit m) in
  events ++ anomaly_queue m1 = anomaly_queue m
  /\ length events = Nat.min (Z.to_nat limit) (length (anomaly_queue m))
  /\ alert_queue m1 = alert_queue m
  /\ alerts ++ alert_queue m2 = alert_queue m
  /\ length alerts = Nat.min (Z.to_nat limit) (length (alert_queue m))
  /\ anomaly_queue m2 = anomaly_queue m
  /\ ((limit <= 0)%Z -> events = [] /\ alerts = [] /\ m1 = m2)
  /\ ((0 <= limit)%Z -> (0 <= limit')%Z ->
      events ++ fst (get_recent_anomalies limit' m1)
      = fst (get_recent_anomalies (limit + limit') m)
      /\ alerts ++ fst (get_recent_alerts limit' m2)
         = fst (get_recent_alerts (limit + limit') m)).
Proof.
  cbn [fst snd get_recent_anomalies get_recent_alerts anomaly_queue alert_queue
       with_anomaly_queue with_alert_queue].
  rewrite !take_drop, !length_take.
  do 6 (split; [reflexivity|]). split.
  - intros Hl. assert (Z.to_nat limit = 0) as -> by lia.
    cbn [take drop]. repeat split.
  - intros H1 H2. rewrite Z2Nat.inj_add by assumption.
    split; apply take_take_drop.
Qed.

Lemma get_recent_takes_from_the_front_witness :
  fst (get_recent_alerts 0 alarmed_monitor) = []
  /\ fst (get_recent_anomalies (-3) alarmed_monitor) = []
  /\ length (fst (get_recent_anomalies 1 alarmed_monitor)
             ++ fst (get_recent_anomalies 1 (snd (get_recent_anomalies 1 alarmed_monitor))))
     = 2.
Proof.
  pose proof (get_recent_takes_from_the_front 0 0 alarmed_monitor) as H0.
  pose proof (get_recent_takes_from_the_front (-3) 0 alarmed_monitor) as H3.
  pose proof (get_recent_takes_from_the_front 1 1 alarmed_monitor) as H1.
  cbv zeta in H0, H3, H1.
  destruct H0 as (_ & _ & _ & _ & _ & _ & H0 & _).
  destruct H3 as (_ & _ & _ & _ & _ & _ & H3 & _).
  destruct H1 as (_ & _ & _ & _ & _ & _ & _ & H1).
  split; [apply H0; lia|]. split; [apply H3; lia|].
  destruct H1 as [H1 _]; [lia|lia|]. rewrite H1. vm_compute. reflexivity.
Defined.

(** ** The alerts an analysis pass raises *)

Lemma _raise_alert_counter ty d m :
  alerts_raised (stats (_raise_alert ty d m)) = S (alerts_raised (stats m)).
Proof.
  unfold _raise_alert, read_clock. cbv beta iota zeta.
  rewrite (log_frame (fun m => alerts_raised (stats m)) (fun _ => True)),
    (run_callbacks_frame (fun m => alerts_raised (stats m)) (fun _ => True)) by blind.
  reflexivity.
Qed.

Lemma analyze_sensors_alerts ct l : forall m,
  exists new,
    alert_queue (foldl (analyze_one_sensor ct) m l) = alert_queue m ++ new
    /\ Forall is_consecutive_alert new
    /\ alerts_raised (stats (foldl (analyze_one_sensor ct) m l))
       = alerts_raised (stats m) + length new.
Proof.
  induction l as [|k l IH]; intros m; cbn [foldl].
  - exists []. rewrite app_nil_r. cbn [length]. repeat split; [constructor|lia].
  - destruct (IH (analyze_one_sensor ct m k)) as (new & -> & Hall & ->).
    unfold analyze_one_sensor.
    destruct (sensor_states m !! k) as [st|]; [|now exists new].
    destruct (_ <=? _)%Z; [|now exists new].
    eexists (_ :: new). rewrite _raise_alert_queue, _raise_alert_counter, <- app_assoc.
    split; [reflexivity|]. split.
    + constructor; [split; reflexivity|exact Hall].
    + cbn [length]. lia.
Qed.

Lemma analyze_rate_alerts ct m :
  exists new,
    alert_queue (analyze_rate ct m) = alert_queue m ++ new
    /\ (if rate_fires m
        then exists a, new = [a] /\ is_rate_alert a
                       /\ ad_rate (alert_data a) = Some (Z.of_nat (flagged_recent m) # 100)
        else new = [])
    /\ alerts_raised (stats (analyze_rate ct m)) = alerts_raised (stats m) + length new.
Proof.
  unfold analyze_rate, rate_fires, flagged_recent.
  destruct (Nat.leb_spec 100 (length (data_buffer m))) as [Hlen|Hlen]; cbn [andb].
  2: { exists []. rewrite app_nil_r. cbn [length]. repeat split. lia. }
  rewrite last_n_length, Nat.min_r by exact Hlen.
  change (Pos.of_nat 100) with 100%positive.
  destruct (Qle_bool _ _); cbn [negb].
  - exists []. rewrite app_nil_r. cbn [length]. repeat split. lia.
  - eexists [_]. rewrite _raise_alert_queue, _raise_alert_counter.
    split; [reflexivity|]. split; [|cbn [length]; lia].
    eexists. split; [reflexivity|]. repeat split.
Qed.

Lemma _analyze_alerts_alerts m :
  exists new1 new2,
    alert_queue (_analyze_alerts m) = alert_queue m ++ new1 ++ new2
    /\ Forall is_consecutive_alert new1
    /\ (if rate_fires m
        then exists a, new2 = [a] /\ is_rate_alert a
                       /\ ad_rate (alert_data a) = Some (Z.of_nat (flagged_recent m) # 100)
        else new2 = [])
    /\ alerts_raised (stats (_analyze_alerts m))
       = alerts_raised (stats m) + length (new1 ++ new2).
Proof.
  unfold _analyze_alerts, read_clock. cbv beta iota zeta.
  set (ct := wall_clock m (clock_reads m)).
  set (m1 := with_clock_reads (S (clock_reads m)) m).
  destruct (analyze_sensors_alerts ct (sensor_order m1) m1) as (new1 & Hq1 & Hall & Hc1).
  set (m2 := foldl (analyze_one_sensor ct) m1 (sensor_order m1)) in *.
  destruct (analyze_rate_alerts ct m2) as (new2 & Hq2 & Hrate & Hc2).
  assert (Hfires : rate_fires m2 = rate_fires m).
  { change (rate_fires m) with (rate_fires m1). unfold m2.
    apply (analyze_sensors_frame rate_fires) with (allowed := fun _ => True); blind. }
  assert (Hflag : flagged_recent m2 = flagged_recent m).
  { change (flagged_recent m) with (flagged_recent m1). unfold m2.
    apply (analyze_sensors_frame flagged_recent) with (allowed := fun _ => True); blind. }
  rewrite Hfires, Hflag in Hrate.
  exists new1, new2. rewrite Hq2, Hq1, Hc2, Hc1, length_app.
  change (alert_queue m1) with (alert_queue m).
  change (alerts_raised (stats m1)) with (alerts_raised (stats m)).
  rewrite <- app_assoc. repeat split; try assumption. lia.
Qed.

Lemma default_threshold_boundary n :
  negb (Qle_bool (Z.of_nat n # 100) (2 # 10)) = (20 <? n)%nat.
Proof.
  unfold Qle_bool. cbn [Qnum Qden].
  destruct (Z.leb_spec (Z.of_nat n * 10) (2 * 100)) as [H|H];
    destruct (Nat.ltb_spec 20 n) as [H'|H']; cbn [negb]; try reflexivity; lia.
Qed.

Lemma filter_none {A : Type} (P Q : A -> Prop) `{forall x, Decision (Q x)} (l : list A) :
  Forall P l -> (forall x, P x -> ~ Q x) -> filter Q l = [].
Proof.
  intros Hall Hno. induction Hall as [|x l Hx _ IH]; [reflexivity|].
  rewrite filter_cons_False by now apply Hno. exact IH.
Qed.

(** X6: with the default threshold of 0.2, one pass of [_analyze_alerts]
    raises a 'high_anomaly_rate' alert exactly when the data buffer holds at
    least 100 readings and more than 20 of the last 100 are flagged as
    anomalies (20 flagged readings are not enough); it raises at most one
    such alert, of severity 'medium', carrying the rate [flagged / 100]. *)
Theorem high_anomaly_rate_needs_more_than_20_of_100 m :
  rule_anomaly_rate_threshold (alert_rules m) = (2 # 10) ->
  exists new,
    alert_queue (_analyze_alerts m) = alert_queue m ++ new
    /\ if (100 <=? length (data_buffer m))%nat && (20 <? flagged_recent m)%nat
       then exists a,
           filter (fun a => alert_type a = "high_anomaly_rate") new = [a]
           /\ severity a = medium
           /\ ad_rate (alert_data a) = Some (Z.of_nat (flagged_recent m) # 100)
       else filter (fun a => alert_type a = "high_anomaly_rate") new = [].
Proof.
  intros Hthr.
  destruct (_analyze_alerts_alerts m) as (new1 & new2 & Hq & Hall & Hrate & _).
  exists (new1 ++ new2). split; [exact Hq|].
  assert (H1 : filter (fun a => alert_type a = "high_anomaly_rate") new1 = []).
  { apply (filter_none is_consecutive_alert); [exact Hall|].
    intros a [Ha _] Hb. rewrite Ha in Hb. discriminate. }
  rewrite filter_app, H1. cbn [app].
  unfold rate_fires in Hrate. rewrite Hthr, default_threshold_boundary in Hrate.
  destruct (_ && _).
  - destruct Hrate as (a & -> & [Hty Hsev] & Hr). exists a.
    rewrite filter_cons_True by exact Hty. repeat split; assumption.
  - now rewrite Hrate.
Qed.

Lemma high_anomaly_rate_needs_more_than_20_of_100_witness :
  let m := run [OpStart always_anomalous;
                OpProcessReadings (replicate 100 (sample_reading "a"))]
               default_monitor in
  exists new a,
    alert_queue (_analyze_alerts m) = alert_queue m ++ new
    /\ filter (fun a => alert_type a = "high_anomaly_rate") new = [a]
    /\ severity a = medium.
Proof.
  intros m.
  destruct (high_anomaly_rate_needs_more_than_20_of_100 m) as (new & Hq & Hf);
    [vm_compute; reflexivity|].
  assert (Hc : (100 <=? length (data_buffer m))%nat && (20 <? flagged_recent m)%nat = true)
    by (vm_compute; reflexivity).
  rewrite Hc in Hf. destruct Hf as (a & Hf & Hsev & _).
  exists new, a. split; [exact Hq|]. split; [exact Hf|exact Hsev].
Defined.

(** ** The alerts of a run *)

Lemma alert_kinds_ok_eq m m' :
  alert_view m' = alert_view m -> alert_kinds_ok m -> alert_kinds_ok m'.
Proof. unfold alert_view, alert_kinds_ok. intros [= _ -> ->]. auto. Qed.

Lemma _analyze_alerts_kinds m :
  length (data_buffer m) <= buffer_size m ->
  alert_kinds_ok m -> alert_kinds_ok (_analyze_alerts m).
Proof.
  intros Hb Hm. unfold alert_kinds_ok in *.
  rewrite (_analyze_alerts_unseen buffer_size) by unseen_by_all.
  destruct (_analyze_alerts_alerts m) as (new1 & new2 & -> & Hall & Hrate & _).
  destruct (Nat.ltb_spec (buffer_size m) 100) as [Hlt|Hge].
  - assert (Hno : rate_fires m = false).
    { unfold rate_fires. destruct (Nat.leb_spec 100 (length (data_buffer m))); [lia|reflexivity]. }
    rewrite Hno in Hrate. subst new2. rewrite app_nil_r.
    apply Forall_app. split; assumption.
  - apply Forall_app. split; [exact Hm|]. apply Forall_app. split.
    + eapply Forall_impl; [exact Hall|]. intros a Ha. now left.
    + destruct (rate_fires m).
      * destruct Hrate as (a & -> & Ha & _). constructor; [now right|constructor].
      * subst new2. constructor.
Qed.

Lemma step_alert_kinds o m :
  length (data_buffer m) <= buffer_size m ->
  alert_kinds_ok m -> alert_kinds_ok (step m o).
Proof.
  intros Hb Hm.
  destruct o;
    try (apply (alert_kinds_ok_eq m); [apply (step_unseen alert_view); unseen_by_all|exact Hm]);
    cbn [step].
  - rewrite loop_iteration_eq. destruct (is_monitoring m); [|exact Hm].
    apply _analyze_alerts_kinds.
    + rewrite (_check_sensor_timeouts_unseen data_buffer),
        (_check_sensor_timeouts_unseen buffer_size),
        (process_new_readings_unseen buffer_size) by unseen_by_all.
      apply (step_bounded (OpProcessReadings rs)), Hb.
    + apply (alert_kinds_ok_eq m); [|exact Hm].
      rewrite (_check_sensor_timeouts_unseen alert_view) by unseen_by_all.
      apply (process_new_readings_unseen alert_view). unseen_by_all.
  - now apply _analyze_alerts_kinds.
  - unfold alert_kinds_ok in *. cbn [get_recent_alerts snd buffer_size alert_queue with_alert_queue].
    destruct (_ <? _)%nat; now apply Forall_drop.
Qed.

Lemma run_alert_kinds ops : forall m,
  length (data_buffer m) <= buffer_size m ->
  alert_kinds_ok m -> alert_kinds_ok (run ops m).
Proof.
  induction ops as [|o ops IH]; intros m Hb Hm; [exact Hm|].
  apply IH.
  - change (step m o) with (run [o] m) at 2. rewrite run_buffer_size.
    now apply step_bounded.
  - now apply step_alert_kinds.
Qed.

(** X7: whatever operations are run on a new monitor, every alert in the
    alert queue is a 'consecutive_anomalies' alert of severity 'high' or a
    'high_anomaly_rate' alert of severity 'medium', and the latter can only
    occur in a monitor whose [buffer_size] is at least 100.  No
    'sensor_timeout' or 'critical_sensor_anomaly' alert is ever raised. *)
Theorem only_two_kinds_of_alert_are_raised clk interval size ops :
  let m := run ops (init clk interval size) in
  Forall (fun a => (alert_type a = "consecutive_anomalies" /\ severity a = high)
                   \/ (alert_type a = "high_anomaly_rate" /\ severity a = medium
                       /\ 100 <= size))
         (alert_queue m).
Proof.
  intros m.
  assert (H : alert_kinds_ok m).
  { apply run_alert_kinds; [cbn; lia|].
    unfold alert_kinds_ok. cbn [alert_queue init]. destruct (_ <? _)%nat; constructor. }
  unfold alert_kinds_ok in H. unfold m in H at 1. rewrite run_buffer_size in H.
  cbn [buffer_size init] in H.
  destruct (Nat.ltb_spec size 100) as [Hlt|Hge].
  - eapply Forall_impl; [exact H|]. intros a Ha. now left.
  - eapply Forall_impl; [exact H|]. intros a [Ha|[Ha Hs]]; [now left|right; auto].
Qed.

Lemma step_alerts_raised o m :
  alerts_raised (stats (step m o)) + length (alert_queue m)
  = alerts_raised (stats m) + length (alert_queue (step m o)) + drained_by m o.
Proof.
  assert (Han : forall m0 m1, alert_view m1 = alert_view m0 ->
            alerts_raised (stats (_analyze_alerts m1)) + length (alert_queue m0)
            = alerts_raised (stats m0) + length (alert_queue (_analyze_alerts m1)) + 0).
  { intros m0 m1 [= Hr Hq _].
    destruct (_analyze_alerts_alerts m1) as (new1 & new2 & -> & _ & _ & ->).
    rewrite Hr, Hq, !length_app. lia. }
  destruct o; cbn [drained_by];
    try (match goal with
         | |- context [step m ?o] =>
             rewrite (step_unseen (fun m => alerts_raised (stats m)) o m),
               (step_unseen alert_queue o m) by unseen_by_all
         end; lia);
    cbn [step].
  - rewrite loop_iteration_eq. destruct (is_monitoring m); [|lia].
    apply Han.
    rewrite (_check_sensor_timeouts_unseen alert_view) by unseen_by_all.
    apply (process_new_readings_unseen alert_view). unseen_by_all.
  - now apply Han.
  - cbn [get_recent_alerts fst snd stats alert_queue with_alert_queue].
    rewrite length_take, length_drop. lia.
Qed.

Lemma run_alerts_raised ops : forall m,
  alerts_raised (stats (run ops m)) + length (alert_queue m)
  = alerts_raised (stats m) + length (alert_queue (run ops m)) + drained ops m.
Proof.
  induction ops as [|o ops IH]; intros m; [cbn; lia|].
  change (run (o :: ops) m) with (run ops (step m o)). cbn [drained].
  pose proof (IH (step m o)). pose proof (step_alerts_raised o m). lia.
Qed.

(** X8: in every run from a new monitor, the counter [alerts_raised]
    equals the number of alerts still in the alert queue plus the number of
    alerts that calls of [get_recent_alerts] have taken out of it. *)
Theorem alerts_raised_counts_every_alert clk interval size ops :
  let m0 := init clk interval size in
  alerts_raised (stats (run ops m0)) = length (alert_queue (run ops m0)) + drained ops m0.
Proof.
  intros m0. pose proof (run_alerts_raised ops m0) as H.
  change (alerts_raised (stats m0)) with 0 in H.
  change (length (alert_queue m0)) with 0 in H. lia.
Qed.

(** ** The sensor table of a run *)

Lemma entries_ok_eq m m' :
  sensor_states m' = sensor_states m -> entries_ok m -> entries_ok m'.
Proof. unfold entries_ok. intros ->. auto. Qed.

Lemma deque_append_nonempty {A : Type} (n : nat) (x : A) (d : list A) :
  0 < n -> 1 <= length (deque_append n x d).
Proof.
  intros Hn. unfold deque_append. rewrite length_drop, length_app. cbn [length]. lia.
Qed.

Lemma _process_single_reading_others a r s t m :
  heap m !! a = Some r -> r_sensor_id r = Some s -> t <> s ->
  sensor_states (_process_single_reading a m) !! t = sensor_states m !! t.
Proof.
  intros Hr Hs Hts.
  apply (_process_single_reading_frame (fun m => sensor_states m !! t))
    with (allowed := fun _ => True) (touched := fun k => k <> t) (marked := fun _ => True);
    try blind; auto.
  - intros k m0 Hk. now apply get_sensor_lookup_ne.
  - intros k f m0 Hk. now apply set_sensor_lookup_ne.
  - intros r' k Hr' Hk. congruence.
Qed.

Lemma _process_single_reading_entries a m :
  entries_ok m -> entries_ok (_process_single_reading a m).
Proof.
  intros Hm. destruct (heap m !! a) as [r|] eqn:Hr.
  2: { unfold _process_single_reading. rewrite Hr. exact Hm. }
  destruct (r_sensor_id r) as [s|] eqn:Hs.
  - intros k st Hk. destruct (decide (k = s)) as [->|Hne].
    + rewrite (_process_single_reading_entry a r s m Hr Hs) in Hk.
      injection Hk as <-. unfold entry_ok, updated_entry.
      cbn [status last_seen recent_readings].
      split; [discriminate|]. split; [eexists; reflexivity|]. split.
      * apply deque_append_nonempty. lia.
      * apply deque_append_length.
    + rewrite (_process_single_reading_others a r s k m Hr Hs Hne) in Hk.
      exact (Hm k st Hk).
  - rewrite (_process_single_reading_absent a r m Hr Hs). exact Hm.
Qed.

Lemma _process_readings_entries refs : forall m,
  entries_ok m -> entries_ok (_process_readings refs m).
Proof.
  induction refs as [|a refs IH]; intros m Hm; [exact Hm|].
  rewrite _process_readings_cons. now apply IH, _process_single_reading_entries.
Qed.

Lemma _handle_sensor_timeout_entries k d m :
  is_Some (sensor_states m !! k) ->
  entries_ok m -> entries_ok (_handle_sensor_timeout k d m).
Proof.
  intros [st0 Hk] Hm.
  assert (Hs : sensor_states (_handle_sensor_timeout k d m)
               = alter (with_status timeout) k (sensor_states m)).
  { unfold _handle_sensor_timeout, sensor_states_getitem, read_clock.
    cbv beta iota zeta.
    rewrite (log_frame sensor_states (fun _ => True)),
      (run_callbacks_frame sensor_states (fun _ => True)) by blind.
    cbn [sensor_states with_clock_reads set_sensor with_sensors].
    unfold _get_sensor_state. now rewrite Hk. }
  intros j st. rewrite Hs. destruct (decide (j = k)) as [->|Hne].
  - rewrite lookup_alter_eq, Hk. cbn [fmap option_fmap option_map]. intros [= <-].
    destruct (Hm k st0 Hk) as (_ & Hseen & Hlen).
    split; [discriminate|]. split; assumption.
  - rewrite lookup_alter_ne by congruence. apply Hm.
Qed.

Lemma check_one_sensor_entries t thr m k :
  entries_ok m -> entries_ok (check_one_sensor t thr m k).
Proof.
  intros Hm. unfold check_one_sensor.
  destruct (sensor_states m !! k) as [st|] eqn:Hk; [|exact Hm].
  destruct (last_seen st); [|exact Hm].
  destruct (decide _); [|exact Hm].
  destruct (_ <? _)%Z; [|exact Hm].
  apply _handle_sensor_timeout_entries; [|exact Hm]. rewrite Hk. eexists; reflexivity.
Qed.

Lemma _check_sensor_timeouts_entries m :
  entries_ok m -> entries_ok (_check_sensor_timeouts m).
Proof.
  intros Hm. unfold _check_sensor_timeouts, read_clock. cbv beta iota zeta.
  apply foldl_invariant; [|exact Hm].
  intros m' k. apply check_one_sensor_entries.
Qed.

Lemma _analyze_alerts_entries m :
  entries_ok m -> entries_ok (_analyze_alerts m).
Proof.
  apply entries_ok_eq. apply (_analyze_alerts_unseen sensor_states). unseen_by_all.
Qed.

Lemma step_entries o m : entries_ok m -> entries_ok (step m o).
Proof.
  intros Hm.
  assert (Hnew : forall rs, entries_ok (process_new_readings rs m)).
  { intros rs. unfold process_new_readings, alloc.
    now apply _process_readings_entries. }
  destruct o;
    try (apply (entries_ok_eq m); [apply (step_unseen sensor_states); unseen_by_all|exact Hm]);
    cbn [step].
  - rewrite loop_iteration_eq. destruct (is_monitoring m); [|exact Hm].
    apply _analyze_alerts_entries, _check_sensor_timeouts_entries, Hnew.
  - apply Hnew.
  - now apply _process_readings_entries.
  - now apply _check_sensor_timeouts_entries.
Qed.

Lemma run_entries ops : forall m, entries_ok m -> entries_ok (run ops m).
Proof.
  induction ops as [|o ops IH]; intros m Hm; [exact Hm|].
  apply IH, step_entries, Hm.
Qed.

Lemma entries_ok_init clk interval size : entries_ok (init clk interval size).
Proof. intros k st. cbn [sensor_states init]. now rewrite lookup_empty. Qed.

Lemma wf_lookup m k : wf m -> k ∈ sensor_order m -> is_Some (sensor_states m !! k).
Proof.
  intros [_ Hdom] Hk. apply elem_of_dom. rewrite Hdom. now apply elem_of_list_to_set.
Qed.

Lemma get_sensor_summary_keys m :
  wf m -> map fst (get_sensor_summary m) = sensor_order m.
Proof.
  intros Hwf. unfold get_sensor_summary.
  assert (Hall : Forall (fun k => is_Some (sensor_states m !! k)) (sensor_order m)).
  { apply Forall_forall. intros k Hk. now apply wf_lookup. }
  induction Hall as [|k l [st Hk] _ IH]; [reflexivity|].
  cbn [omap list_omap]. rewrite Hk. cbn [fmap option_fmap option_map map fst].
  f_equal. exact IH.
Qed.

Lemma get_sensor_summary_entries m :
  entries_ok m ->
  Forall (fun kv => ss_status kv.2 <> unknown /\ is_Some (ss_last_seen kv.2)
                    /\ 1 <= ss_recent_reading_count kv.2 <= 50)
         (get_sensor_summary m).
Proof.
  intros Hm. unfold get_sensor_summary.
  induction (sensor_order m) as [|k l IH]; [constructor|].
  cbn [omap list_omap]. destruct (sensor_states m !! k) as [st|] eqn:Hk; [|exact IH].
  cbn [fmap option_fmap option_map]. constructor; [|exact IH].
  exact (Hm k st Hk).
Qed.

(** X9: in every state a new monitor can reach, [get_sensor_summary] has
    exactly one item per key of the sensor dict, in the dict's key order and
    without repeated keys, and every item has a status other than
    'unknown', a [last_seen] value, and a [recent_reading_count] between 1
    and 50. *)
Theorem sensor_summary_lists_every_sensor_seen clk interval size ops :
  let m := run ops (init clk interval size) in
  map fst (get_sensor_summary m) = sensor_order m
  /\ NoDup (map fst (get_sensor_summary m))
  /\ Forall (fun kv => ss_status kv.2 <> unknown /\ is_Some (ss_last_seen kv.2)
                       /\ 1 <= ss_recent_reading_count kv.2 <= 50)
            (get_sensor_summary m).
Proof.
  intros m.
  assert (Hwf : wf m) by apply run_wf, wf_init.
  assert (Hok : entries_ok m) by apply run_entries, entries_ok_init.
  split; [now apply get_sensor_summary_keys|]. split.
  - rewrite get_sensor_summary_keys by exact Hwf. apply Hwf.
  - now apply get_sensor_summary_entries.
Qed.




(** ** Raising an alert *)

(** X11: [_raise_alert] increments [alerts_raised], puts the new alert at
    the back of the alert queue, calls every 'on_alert' callback once with
    that alert in registration order, logs one error line per callback that
    raised, and ends with the critical log line that carries the alert's
    description; a raising callback stops neither the later callbacks nor
    the final log line. *)
Theorem alert_reaches_queue_and_every_callback ty d m :
  let alert := make_alert (wall_clock m (clock_reads m))
                 (wall_clock m (S (clock_reads m))) ty d in
  let m' := _raise_alert ty d m in
  alert_queue m' = alert_queue m ++ [alert]
  /\ alerts_raised (stats m') = S (alerts_raised (stats m))
  /\ exists new,
       effects m'
       = effects m ++ new ++ [Logged critical_level (AlertMsg (description alert))]
       /\ calls_in new
          = map (fun cb => Called "on_alert" (cb_id cb) (AlertEv alert))
                (on_alert (callbacks m))
       /\ length (callback_errors_in new)
          = length (filter (fun cb => cb_ok cb (AlertEv alert) = false)
                           (on_alert (callbacks m))).
Proof.
  intros alert m'. split; [apply _raise_alert_queue|]. split; [apply _raise_alert_counter|].
  unfold m', _raise_alert, read_clock. cbv beta iota zeta.
  cbn [clock_reads wall_clock with_clock_reads incr_alerts_raised with_stats
       alert_queue with_alert_queue callbacks].
  fold alert.
  match goal with
  | |- context [run_callbacks ?kind ?cbs ?ev ?m0] =>
      destruct (run_callbacks_effects kind cbs ev m0) as (new & -> & Hcalls & Herrs)
  end.
  exists new. split; [|split; [exact Hcalls|exact Herrs]].
  unfold log, emit. cbn [effects with_effects with_alert_queue with_clock_reads
                         incr_alerts_raised with_stats].
  now rewrite <- app_assoc.
Qed.

(** ** Starting and stopping *)

Lemma step_lifecycle o m : lifecycle_view (step m o) = lifecycle (lifecycle_view m) o.
Proof.
  destruct o; cbn [lifecycle];
    try (apply (step_unseen lifecycle_view); unseen_by_all); cbn [step].
  - unfold start_monitoring, lifecycle_view, read_clock.
    cbn [fst]. destruct (is_monitoring m) eqn:E; cbn; rewrite ?E; reflexivity.
  - reflexivity.
Qed.

Lemma step_started o m : started_ok (started_view m) -> started_ok (started_view (step m o)).
Proof.
  intros Hm.
  destruct o;
    try (rewrite (step_unseen started_view) by unseen_by_all; exact Hm); cbn [step].
  - unfold start_monitoring, read_clock.
    destruct (is_monitoring m) eqn:E; [exact Hm|].
    unfold started_ok. cbn. eexists; reflexivity.
  - unfold started_ok, started_view in *. cbn in *.
    destruct (anomaly_detector m); [exact Hm|]. split; [apply Hm|reflexivity].
Qed.

(** X12: over any run from a new monitor, the monitoring flag and the
    detector in use follow [start_monitoring] and [stop_monitoring] alone: a
    start while monitoring changes neither (the detector is not replaced), a
    stop clears the flag and keeps the detector, and no other operation
    touches them.  The start time is unset as long as no start has taken
    effect, and set from then on, also after a stop. *)
Theorem monitoring_follows_start_and_stop clk interval size ops :
  let m := run ops (init clk interval size) in
  let s := foldl lifecycle (false, None) ops in
  is_monitoring m = s.1
  /\ anomaly_detector m = s.2
  /\ match s.2 with
     | None => start_time (stats m) = None /\ is_monitoring m = false
     | Some _ => is_Some (start_time (stats m))
     end.
Proof.
  intros m s.
  assert (Hv : forall ops m0, lifecycle_view (run ops m0) = foldl lifecycle (lifecycle_view m0) ops).
  { clear. induction ops as [|o ops IH]; intros m0; [reflexivity|].
    change (run (o :: ops) m0) with (run ops (step m0 o)).
    cbn [foldl]. now rewrite IH, step_lifecycle. }
  assert (Hs : forall ops m0, started_ok (started_view m0) -> started_ok (started_view (run ops m0))).
  { clear. induction ops as [|o ops IH]; intros m0 H0; [exact H0|].
    apply IH, step_started, H0. }
  specialize (Hv ops (init clk interval size)).
  specialize (Hs ops (init clk interval size)).
  fold m in Hv, Hs. change (lifecycle_view (init clk interval size)) with (false, @None Detector) in Hv.
  fold s in Hv. unfold lifecycle_view in Hv.
  assert (H1 : is_monitoring m = s.1) by now rewrite <- Hv.
  assert (H2 : anomaly_detector m = s.2) by now rewrite <- Hv.
  split; [exact H1|]. split; [exact H2|].
  rewrite <- H2. apply Hs. split; reflexivity.
Qed.

(** ** Counting the readings of a run *)

Lemma _process_single_reading_counted a m :
  reading_counters_ok (reading_counters m) ->
  reading_counters_ok (reading_counters (_process_single_reading a m)).
Proof.
  intros Hm. destruct (heap m !! a) as [r|] eqn:Hr.
  2: { unfold _process_single_reading. now rewrite Hr. }
  destruct (r_sensor_id r) as [k|] eqn:Hk.
  - rewrite (_process_single_reading_present a r k m Hr Hk).
    rewrite (classified_frame reading_counters)
      with (allowed := fun _ => True) (touched := fun _ => True)
           (marked := fun _ => True); try blind; auto.
    unfold reading_counters. rewrite recorded_stats.
    unfold reading_counters_ok. cbn. lia.
  - rewrite (_process_single_reading_absent a r m Hr Hk). exact Hm.
Qed.

Lemma _process_readings_counted refs : forall m,
  reading_counters_ok (reading_counters m) ->
  reading_counters_ok (reading_counters (_process_readings refs m)).
Proof.
  induction refs as [|a refs IH]; intros m Hm; [exact Hm|].
  rewrite _process_readings_cons. now apply IH, _process_single_reading_counted.
Qed.

Lemma step_counted o m :
  reading_counters_ok (reading_counters m) ->
  reading_counters_ok (reading_counters (step m o)).
Proof.
  intros Hm.
  assert (Hnew : forall rs, reading_counters_ok (reading_counters (process_new_readings rs m))).
  { intros rs. unfold process_new_readings, alloc.
    now apply _process_readings_counted. }
  destruct o;
    try (rewrite (step_unseen reading_counters) by unseen_by_all; exact Hm); cbn [step].
  - rewrite loop_iteration_eq. destruct (is_monitoring m); [|exact Hm].
    rewrite (_analyze_alerts_unseen reading_counters),
      (_check_sensor_timeouts_unseen reading_counters) by unseen_by_all.
    apply Hnew.
  - apply Hnew.
  - now apply _process_readings_counted.
Qed.

Lemma step_total_readings o m :
  total_readings (stats (step m o))
  = total_readings (stats m) + length (ingested_by m o).
Proof.
  assert (Hnew : forall rs,
            total_readings (stats (process_new_readings rs m))
            = total_readings (stats m)
              + length (filter (fun a => is_Some (sensor_of (heap (with_new_objects rs m)) a))
                               (new_refs rs m))).
  { intros rs. unfold process_new_readings, alloc.
    apply (_process_readings_total _ (with_new_objects rs m)). }
  destruct o; cbn [ingested_by length];
    try (rewrite (step_unseen (fun m => total_readings (stats m))) by unseen_by_all; lia);
    cbn [step].
  - rewrite loop_iteration_eq. destruct (is_monitoring m); [|cbn [length]; lia].
    rewrite (_analyze_alerts_unseen (fun m => total_readings (stats m))),
      (_check_sensor_timeouts_unseen (fun m => total_readings (stats m))) by unseen_by_all.
    apply Hnew.
  - apply Hnew.
  - apply _process_readings_total.
Qed.

Lemma run_total_readings ops : forall m,
  total_readings (stats (run ops m)) = total_readings (stats m) + length (ingested ops m).
Proof.
  induction ops as [|o ops IH]; intros m; [cbn; lia|].
  change (run (o :: ops) m) with (run ops (step m o)).
  cbn [ingested]. rewrite IH, step_total_readings, length_app. lia.
Qed.

(** X13: over any run from a new monitor, [total_readings] is the number
    of readings ingested so far, the data buffer holds
    [min total_readings buffer_size] of them, and [last_reading_time] is
    unset exactly as long as [total_readings] is 0. *)
Theorem total_readings_counts_the_run clk interval size ops :
  let m0 := init clk interval size in
  let m := run ops m0 in
  total_readings (stats m) = length (ingested ops m0)
  /\ length (data_buffer m) = Nat.min (total_readings (stats m)) size
  /\ match last_reading_time (stats m) with
     | None => total_readings (stats m) = 0
     | Some _ => 0 < total_readings (stats m)
     end.
Proof.
  intros m0 m.
  assert (Ht : total_readings (stats m) = length (ingested ops m0))
    by apply (run_total_readings ops m0).
  split; [exact Ht|]. split.
  - unfold m. rewrite (run_data_buffer ops m0) by (cbn; lia).
    rewrite last_n_length. cbn [app data_buffer m0 init buffer_size]. fold m0. fold m.
    now rewrite Ht.
  - assert (H : reading_counters_ok (reading_counters m)).
    { unfold m. clear. generalize m0 (eq_refl : reading_counters_ok (reading_counters m0)).
      induction ops as [|o ops IH]; intros m H; [exact H|].
      apply IH, step_counted, H. }
    exact H.
Qed.

(** ** Anomalies counted and anomalies queued *)

Lemma classified_accounting a r k m :
  exists new,
    anomaly_queue (classified a r k m) = anomaly_queue m ++ new
    /\ anomalies_detected (stats m) + length new
       <= anomalies_detected (stats (classified a r k m)).
Proof.
  unfold classified.
  destruct (anomaly_detector m) as [d|]; [|exists []; now rewrite app_nil_r, Nat.add_0_r].
  destruct (is_trained d); [|exists []; now rewrite app_nil_r, Nat.add_0_r].
  destruct (predict_single d r) as [[[] sc]|]; cbv zeta.
  - pose proof (_handle_anomaly_queue a k (annotate_reading a true sc m)) as Hq.
    pose proof (_handle_anomaly_stats a k (annotate_reading a true sc m)) as Hs.
    destruct (_handle_anomaly _ _ _) as [m2|e m2]; cbn [state_of] in Hs.
    + destruct Hq as [ev ->]. exists [ev]. split; [reflexivity|].
      rewrite Hs. cbn. lia.
    + exists []. destruct (detect_failed_fields a m2) as (_ & _ & -> & _).
      split.
      * cbn [detect_failed anomaly_queue annotate_reading with_heap log emit with_effects].
        now rewrite Hq, app_nil_r.
      * rewrite Hs. cbn. lia.
  - exists []. split; [now rewrite app_nil_r|cbn; lia].
  - exists []. destruct (detect_failed_fields a m) as (_ & _ & -> & _).
    split; [|cbn; lia].
    cbn [detect_failed anomaly_queue annotate_reading with_heap log emit with_effects].
    now rewrite app_nil_r.
Qed.

Lemma _process_single_reading_accounting taken a m :
  queued_le_counted taken m -> queued_le_counted taken (_process_single_reading a m).
Proof.
  unfold queued_le_counted. intros Hm.
  destruct (heap m !! a) as [r|] eqn:Hr;
    [|unfold _process_single_reading; now rewrite Hr].
  destruct (r_sensor_id r) as [k|] eqn:Hk.
  - rewrite (_process_single_reading_present a r k m Hr Hk).
    destruct (classified_accounting a r k
                (recorded a (default (wall_clock m (clock_reads m)) (r_timestamp r)) k m))
      as (new & -> & Hle).
    rewrite recorded_stats in Hle. rewrite recorded_anomaly_queue, length_app.
    cbn [stats count_reading with_stats anomalies_detected] in Hle. lia.
  - now rewrite (_process_single_reading_absent a r m Hr Hk).
Qed.

Lemma _process_readings_accounting taken refs : forall m,
  queued_le_counted taken m -> queued_le_counted taken (_process_readings refs m).
Proof.
  induction refs as [|a refs IH]; intros m Hm; [exact Hm|].
  rewrite _process_readings_cons. now apply IH, _process_single_reading_accounting.
Qed.

Lemma queued_le_counted_eq taken m m' :
  anomaly_view m' = anomaly_view m -> queued_le_counted taken m -> queued_le_counted taken m'.
Proof. unfold anomaly_view, queued_le_counted. intros [= -> ->]. auto. Qed.

Lemma step_accounting n o m :
  queued_le_counted n m -> queued_le_counted (n + taken_by m o) (step m o).
Proof.
  intros Hm.
  assert (Hnew : forall rs, queued_le_counted n (process_new_readings rs m)).
  { intros rs. unfold process_new_readings, alloc.
    now apply _process_readings_accounting. }
  destruct o; cbn [taken_by]; rewrite ?Nat.add_0_r;
    try (apply (queued_le_counted_eq n m);
         [apply (step_unseen anomaly_view); unseen_by_all|exact Hm]);
    cbn [step].
  - rewrite loop_iteration_eq. destruct (is_monitoring m); [|exact Hm].
    apply (queued_le_counted_eq n (process_new_readings rs m)); [|apply Hnew].
    rewrite (_analyze_alerts_unseen anomaly_view) by unseen_by_all.
    now rewrite (_check_sensor_timeouts_unseen anomaly_view) by unseen_by_all.
  - apply Hnew.
  - now apply _process_readings_accounting.
  - unfold queued_le_counted in *.
    cbn [get_recent_anomalies fst snd stats anomaly_queue with_anomaly_queue].
    rewrite length_take, length_drop. lia.
Qed.

Lemma run_accounting ops : forall n m,
  queued_le_counted n m -> queued_le_counted (n + taken ops m) (run ops m).
Proof.
  induction ops as [|o ops IH]; intros n m Hm; [cbn [taken]; now rewrite Nat.add_0_r|].
  change (run (o :: ops) m) with (run ops (step m o)). cbn [taken].
  rewrite Nat.add_assoc. apply IH, step_accounting, Hm.
Qed.

(** X14: over any run from a new monitor, the anomaly events still queued
    plus those already read with [get_recent_anomalies] never exceed
    [anomalies_detected], which never exceeds [total_readings]. *)
Theorem every_queued_anomaly_was_counted clk interval size ops :
  let m0 := init clk interval size in
  let m := run ops m0 in
  length (anomaly_queue m) + taken ops m0 <= anomalies_detected (stats m)
  /\ anomalies_detected (stats m) <= total_readings (stats m).
Proof.
  intros m0 m. split.
  - apply (run_accounting ops 0 m0). unfold queued_le_counted. cbn. lia.
  - apply run_counters. unfold counters_ok. cbn. lia.
Qed.

(** The gap is real: an anomalous reading without a timestamp is counted
    and never queued. *)
Example counted_anomaly_that_is_not_queued :
  let m := run [OpStart always_anomalous;
                OpProcessReadings [reading_without_timestamp "a"]] default_monitor in
  anomalies_detected (stats m) = 1 /\ anomaly_queue m = [].
Proof. vm_compute. split; reflexivity. Qed.

(** ** The order of the sensor dict *)

Lemma order_with_eq s m :
  order_with s m
  = match sensor_states m !! s with
    | Some _ => sensor_order m
    | None => sensor_order m ++ [s]
    end.
Proof. unfold order_with, _get_sensor_state. now destruct (sensor_states m !! s). Qed.

Lemma order_with_get s m : order_with s (_get_sensor_state s m) = order_with s m.
Proof.
  unfold order_with, _get_sensor_state.
  destruct (sensor_states m !! s) eqn:E.
  - now rewrite E.
  - cbn [sensor_states with_sensors]. now rewrite lookup_insert_eq.
Qed.

Lemma order_with_set s k f m : order_with s (set_sensor k f m) = order_with s m.
Proof.
  unfold order_with, _get_sensor_state, set_sensor.
  cbn [sensor_states with_sensors sensor_order].
  destruct (decide (k = s)) as [->|Hne].
  - rewrite lookup_alter_eq. now destruct (sensor_states m !! s).
  - rewrite lookup_alter_ne by exact Hne. now destruct (sensor_states m !! s).
Qed.

Lemma _get_sensor_state_order s m :
  wf m -> sensor_order (_get_sensor_state s m) = note_sensor (sensor_order m) s.
Proof.
  intros [_ Hdom]. unfold _get_sensor_state, note_sensor.
  destruct (sensor_states m !! s) eqn:E.
  - rewrite decide_True; [reflexivity|].
    apply (elem_of_list_to_set (C := gset string)). rewrite <- Hdom.
    apply elem_of_dom. now rewrite E.
  - rewrite decide_False; [reflexivity|].
    intros Hin. apply not_elem_of_dom in E. apply E. rewrite Hdom.
    now apply elem_of_list_to_set.
Qed.

Lemma _process_single_reading_order a r s m :
  heap m !! a = Some r -> r_sensor_id r = Some s ->
  sensor_order (_process_single_reading a m) = sensor_order (_get_sensor_state s m).
Proof.
  intros Hr Hs.
  assert (H : order_with s (_process_single_reading a m) = order_with s m).
  { apply (_process_single_reading_frame (order_with s))
      with (allowed := fun _ => True) (touched := fun k => k = s) (marked := fun _ => True);
      try (unfold blind_to; intros; rewrite !order_with_eq; reflexivity);
      try (intros; exact I).
    - intros k m0 ->. apply order_with_get.
    - intros k f m0 _. apply order_with_set.
    - intros r' k Hr' Hk. congruence. }
  unfold order_with at 1 in H. unfold _get_sensor_state at 1 in H.
  now rewrite (_process_single_reading_entry a r s m Hr Hs) in H.
Qed.

Lemma _process_single_reading_wf a m : wf m -> wf (_process_single_reading a m).
Proof. apply (step_wf (OpReprocess [a])). Qed.

Lemma _process_readings_order refs : forall m,
  wf m ->
  exists ids,
    sensor_order (_process_readings refs m) = foldl note_sensor (sensor_order m) ids
    /\ Forall2 (fun a k => sensor_of (heap m) a = Some k)
               (filter (fun a => is_Some (sensor_of (heap m) a)) refs) ids.
Proof.
  induction refs as [|a refs IH]; intros m Hwf.
  - exists []. split; [reflexivity|constructor].
  - rewrite _process_readings_cons.
    destruct (IH (_process_single_reading a m) (_process_single_reading_wf a m Hwf))
      as (ids & -> & Hids).
    rewrite (list_filter_iff _ (fun a0 => is_Some (sensor_of (heap m) a0))) in Hids
      by (intros c; now rewrite _process_single_reading_sensor_of).
    assert (Hids' : Forall2 (fun a k => sensor_of (heap m) a = Some k)
                      (filter (fun a => is_Some (sensor_of (heap m) a)) refs) ids).
    { eapply Forall2_impl; [exact Hids|]. intros c k. cbv beta.
      now rewrite _process_single_reading_sensor_of. }
    rewrite filter_cons.
    destruct (sensor_of (heap m) a) as [s|] eqn:Hs.
    + rewrite decide_True by (eexists; reflexivity).
      exists (s :: ids). split; [|constructor; [exact Hs|exact Hids']].
      cbn [foldl]. f_equal. unfold sensor_of in Hs.
      destruct (heap m !! a) as [r|] eqn:Hr; [|discriminate].
      cbn [mbind option_bind] in Hs.
      rewrite (_process_single_reading_order a r s m Hr Hs).
      now apply _get_sensor_state_order.
    + rewrite decide_False by (intros [? ?]; discriminate).
      exists ids. split; [|exact Hids']. f_equal. unfold sensor_of in Hs.
      destruct (heap m !! a) as [r|] eqn:Hr.
      * cbn [mbind option_bind] in Hs.
        now rewrite (_process_single_reading_absent a r m Hr Hs).
      * unfold _process_single_reading. now rewrite Hr.
Qed.

Lemma _process_readings_sensor_of refs c : forall m,
  sensor_of (heap (_process_readings refs m)) c = sensor_of (heap m) c.
Proof.
  induction refs as [|a refs IH]; intros m; [reflexivity|].
  rewrite _process_readings_cons, IH. apply _process_single_reading_sensor_of.
Qed.

Lemma check_one_sensor_order t thr m k :
  sensor_order (check_one_sensor t thr m k) = sensor_order m.
Proof.
  unfold check_one_sensor.
  destruct (sensor_states m !! k) as [st|] eqn:Hk; [|reflexivity].
  destruct (last_seen st); [|reflexivity].
  destruct (decide _); [|reflexivity].
  destruct (_ <? _)%Z; [|reflexivity].
  unfold _handle_sensor_timeout, sensor_states_getitem, read_clock.
  cbv beta iota zeta.
  rewrite (log_frame sensor_order (fun _ => True)),
    (run_callbacks_frame sensor_order (fun _ => True)) by blind.
  cbn [sensor_order with_clock_reads set_sensor with_sensors].
  unfold _get_sensor_state. now rewrite Hk.
Qed.

Lemma check_sensors_order t thr l : forall m,
  sensor_order (foldl (check_one_sensor t thr) m l) = sensor_order m.
Proof.
  induction l as [|k l IH]; intros m; [reflexivity|].
  cbn [foldl]. now rewrite IH, check_one_sensor_order.
Qed.

Lemma _check_sensor_timeouts_order m :
  sensor_order (_check_sensor_timeouts m) = sensor_order m.
Proof.
  unfold _check_sensor_timeouts, read_clock. cbv beta iota zeta.
  now rewrite check_sensors_order.
Qed.

Lemma step_order o m :
  wf m ->
  exists ids,
    sensor_order (step m o) = foldl note_sensor (sensor_order m) ids
    /\ Forall2 (fun a k => sensor_of (heap (step m o)) a = Some k) (ingested_by m o) ids.
Proof.
  intros Hwf.
  assert (Hold : forall refs,
            exists ids,
              sensor_order (_process_readings refs m) = foldl note_sensor (sensor_order m) ids
              /\ Forall2 (fun a k => sensor_of (heap (_process_readings refs m)) a = Some k)
                         (filter (fun a => is_Some (sensor_of (heap m) a)) refs) ids).
  { intros refs. destruct (_process_readings_order refs m Hwf) as (ids & Ho & Hids).
    exists ids. split; [exact Ho|].
    eapply Forall2_impl; [exact Hids|]. intros c k. cbv beta.
    now rewrite _process_readings_sensor_of. }
  assert (Hnew : forall rs,
            exists ids,
              sensor_order (process_new_readings rs m) = foldl note_sensor (sensor_order m) ids
              /\ Forall2 (fun a k => sensor_of (heap (process_new_readings rs m)) a = Some k)
                   (filter (fun a => is_Some (sensor_of (heap (with_new_objects rs m)) a))
                           (new_refs rs m)) ids).
  { intros rs. unfold process_new_readings, alloc.
    destruct (_process_readings_order (new_refs rs m) (with_new_objects rs m) Hwf)
      as (ids & Ho & Hids).
    exists ids. split; [exact Ho|].
    eapply Forall2_impl; [exact Hids|]. intros c k. cbv beta.
    now rewrite _process_readings_sensor_of. }
  destruct o; cbn [ingested_by];
    try (exists []; split; [apply (step_unseen sensor_order); unseen_by_all|constructor]);
    cbn [step].
  - rewrite loop_iteration_eq. destruct (is_monitoring m).
    + destruct (Hnew rs) as (ids & Ho & Hids). exists ids.
      rewrite (_analyze_alerts_unseen sensor_order) by unseen_by_all.
      rewrite _check_sensor_timeouts_order.
      split; [exact Ho|].
      eapply Forall2_impl; [exact Hids|]. intros c k. cbv beta.
      rewrite (_analyze_alerts_unseen (fun m => sensor_of (heap m) c)) by unseen_by_all.
      now rewrite (_check_sensor_timeouts_unseen (fun m => sensor_of (heap m) c))
        by unseen_by_all.
    + exists []. split; [reflexivity|constructor].
  - apply Hnew.
  - apply Hold.
  - exists []. split; [apply _check_sensor_timeouts_order|constructor].
Qed.

Lemma with_new_objects_sensor_of rs m a k :
  sensor_of (heap m) a = Some k -> sensor_of (heap (with_new_objects rs m)) a = Some k.
Proof.
  unfold sensor_of. cbn [with_new_objects alloc snd heap with_heap].
  destruct (heap m !! a) as [r|] eqn:Hr; [|discriminate].
  now rewrite (lookup_app_l_Some _ _ _ _ Hr).
Qed.

Lemma step_sensor_of o m a k :
  sensor_of (heap m) a = Some k -> sensor_of (heap (step m o)) a = Some k.
Proof.
  intros Ha.
  assert (Hnew : forall rs, sensor_of (heap (process_new_readings rs m)) a = Some k).
  { intros rs. unfold process_new_readings, alloc.
    rewrite _process_readings_sensor_of. now apply (with_new_objects_sensor_of rs). }
  destruct o;
    try (rewrite (step_unseen (fun m => sensor_of (heap m) a)) by unseen_by_all; exact Ha);
    cbn [step].
  - rewrite loop_iteration_eq. destruct (is_monitoring m); [|exact Ha].
    rewrite (_analyze_alerts_unseen (fun m => sensor_of (heap m) a)) by unseen_by_all.
    rewrite (_check_sensor_timeouts_unseen (fun m => sensor_of (heap m) a)) by unseen_by_all.
    apply Hnew.
  - apply Hnew.
  - now rewrite _process_readings_sensor_of.
Qed.

Lemma run_sensor_of ops : forall m a k,
  sensor_of (heap m) a = Some k -> sensor_of (heap (run ops m)) a = Some k.
Proof.
  induction ops as [|o ops IH]; intros m a k Ha; [exact Ha|].
  apply IH, step_sensor_of, Ha.
Qed.

Lemma run_order ops : forall m,
  wf m ->
  exists ids,
    sensor_order (run ops m) = foldl note_sensor (sensor_order m) ids
    /\ Forall2 (fun a k => sensor_of (heap (run ops m)) a = Some k) (ingested ops m) ids.
Proof.
  induction ops as [|o ops IH]; intros m Hwf.
  - exists []. split; [reflexivity|constructor].
  - change (run (o :: ops) m) with (run ops (step m o)). cbn [ingested].
    destruct (step_order o m Hwf) as (ids1 & Ho1 & Hids1).
    destruct (IH (step m o) (step_wf o m Hwf)) as (ids2 & Ho2 & Hids2).
    exists (ids1 ++ ids2). split.
    + now rewrite Ho2, Ho1, foldl_app.
    + apply Forall2_app; [|exact Hids2].
      eapply Forall2_impl; [exact Hids1|]. intros a k. cbv beta. apply run_sensor_of.
Qed.

Lemma omap_Forall2 {A B : Type} (f : A -> option B) (l : list A) (ids : list B) :
  Forall2 (fun a k => f a = Some k) l ids -> omap f l = ids.
Proof.
  induction 1 as [|a k l ids Ha _ IH]; [reflexivity|].
  cbn [omap list_omap]. now rewrite Ha, IH.
Qed.

(** X15: the keys of [get_sensor_summary] are the sensor ids of the
    readings ingested so far, each once, in the order in which the sensors
    first reported. *)
Theorem sensors_are_listed_by_first_reading clk interval size ops :
  let m0 := init clk interval size in
  let m := run ops m0 in
  map fst (get_sensor_summary m)
  = foldl note_sensor [] (omap (sensor_of (heap m)) (ingested ops m0)).
Proof.
  intros m0 m.
  rewrite get_sensor_summary_keys by apply run_wf, wf_init.
  destruct (run_order ops m0 (wf_init clk interval size)) as (ids & Ho & Hids).
  fold m in Ho, Hids. now rewrite (omap_Forall2 _ _ _ Hids), Ho.
Qed.
